(** * Smart table-tennis bat: sliding-window stroke classification sketch

    A shallow embedding of the Arduino sketch (Edge Impulse classifier,
    ring buffer of IMU samples, half-window hop, decision gate and the
    OLED presentation state machine), together with the properties its
    specification states about it.

    Reading of the source text.  The sketch is kept in the repository as
    running text in which every pair of [*] characters on a line range
    was swallowed: [thrthr] is [thr*thr], [axax+ayay+azaz] is
    [ax*ax+ay*ay+az*az], [axCONVERT_G_TO_MS2] is [ax*CONVERT_G_TO_MS2].
    In the same way [case1:] and [case0:] inside the three [switch]
    statements are the case labels [case 1:], [case 0:]: as goto labels
    they would be declared three times in [loop], which C++ rejects.

    Numbers.  [uint16_t] and [uint32_t] globals are integers in [Z] with
    the wrap-around written out at each assignment; [float] is IEEE-754
    binary32, taken from the Standard Library's executable [SpecFloat]
    (round to nearest even, no contraction of multiply-add). *)

From Stdlib Require Import ZArith Lia Bool String.
From Stdlib Require Import Floats.SpecFloat.
From stdpp Require Import base list.

Local Open Scope Z_scope.

(** ** binary32 arithmetic *)

Module F32.
Definition prec : Z := 24.
Definition emax : Z := 128.

Definition t : Type := spec_float.

Definition zero : t := S754_zero false.
Definition of_Z (z : Z) : t := binary_normalize prec emax z 0 false.
Definition mul (x y : t) : t := SFmul prec emax x y.
Definition add (x y : t) : t := SFadd prec emax x y.
Definition div (x y : t) : t := SFdiv prec emax x y.
(** [x > y] on floats; false as soon as one side is a NaN. *)
Definition gt (x y : t) : bool := SFltb y x.

(** A decimal literal [n / 10^k] with the suffix [f]: the binary32
    number nearest to it.  Both integers used below are below 2^24, so
    the correctly rounded quotient is that number. *)
Definition decimal (n d : Z) : t := div (of_Z n) (of_Z d).
End F32.

#[global] Instance F32_inhabited : Inhabited F32.t := populate F32.zero.

(** ** Configuration constants (lines 20-32) *)

Definition SAMPLE_INTERVAL_MS : Z := 20.
Definition CONF_THRESH : F32.t := Eval vm_compute in F32.decimal 50 100.
Definition ACCEL_THRESH_G : F32.t := Eval vm_compute in F32.decimal 20 10.
Definition FLASH_DURATION_MS : Z := 3000.
Definition IDLE_TIMEOUT_MS : Z := 10000.
Definition ANIM_INTERVAL_MS : Z := 200.
Definition CONVERT_G_TO_MS2 : F32.t := Eval vm_compute in F32.decimal 980665 100000.

Definition BALL_COUNT : Z := 5.

(** Wrap-around of the unsigned types. *)
Definition u8 (z : Z) : Z := z mod 2 ^ 8.
Definition u16 (z : Z) : Z := z mod 2 ^ 16.
Definition u32 (z : Z) : Z := z mod 2 ^ 32.

(** ** Data (lines 39-68) *)

Inductive State := STATE_OPENING | STATE_MAIN | STATE_FLASH | STATE_IDLE.

#[global] Instance State_eq_dec : EqDecision State.
Proof. solve_decision. Defined.

(** [typedef float BufferRow[AXIS_COUNT]] *)
Definition BufferRow : Type := list F32.t.

(** [typedef struct { uint8_t index; float confidence; } InferenceResult] *)
Record InferenceResult := { index : Z; confidence : F32.t }.

(** The ring of samples with its three [uint16_t] cursors and counters. *)
Record Ring := {
  imuBuffer : list BufferRow;
  bufIndex : Z;
  sampleCount : Z;      (* counts until window full *)
  sampleCounter : Z     (* counts since last inference *)
}.

Record Counters := {
  countBHdrive : Z; countBHsmash : Z;
  countFHdrive : Z; countFHloop : Z; countFHsmash : Z;
  totalStrokes : Z
}.

Record Timers := {
  lastIMUread : Z; lastDisplay : Z; lastIdleAnim : Z;
  lastStrokeTime : Z; flashStart : Z
}.

(** What the sketch asks of the libraries around it, newest call first:
    the display commands with the content they paint, and the calls of
    [readIMU] and [runInference]. *)
Inductive Call :=
| CallReadIMU (r : BufferRow)      (* the row it stored *)
| CallRunInference
| CallPlayAnim
| CallDrawMainScreen (c : Counters)
| CallDrawFlash (idx : Z) (msg : string)
| CallDrawIdle (up : bool).

(** All globals of the sketch; [sig] is the [static] frame inside
    [runInference]. *)
Record Globals := {
  currentState : State;
  ring : Ring;
  counts : Counters;
  timers : Timers;
  encIndex : list Z;
  sig : list F32.t;
  calls : list Call
}.

Definition set_currentState (v : State) (g : Globals) : Globals :=
  {| currentState := v; ring := ring g; counts := counts g; timers := timers g;
     encIndex := encIndex g; sig := sig g; calls := calls g |}.
Definition set_ring (v : Ring) (g : Globals) : Globals :=
  {| currentState := currentState g; ring := v; counts := counts g; timers := timers g;
     encIndex := encIndex g; sig := sig g; calls := calls g |}.
Definition set_counts (v : Counters) (g : Globals) : Globals :=
  {| currentState := currentState g; ring := ring g; counts := v; timers := timers g;
     encIndex := encIndex g; sig := sig g; calls := calls g |}.
Definition set_timers (v : Timers) (g : Globals) : Globals :=
  {| currentState := currentState g; ring := ring g; counts := counts g; timers := v;
     encIndex := encIndex g; sig := sig g; calls := calls g |}.
Definition set_encIndex (v : list Z) (g : Globals) : Globals :=
  {| currentState := currentState g; ring := ring g; counts := counts g; timers := timers g;
     encIndex := v; sig := sig g; calls := calls g |}.
Definition set_sig (v : list F32.t) (g : Globals) : Globals :=
  {| currentState := currentState g; ring := ring g; counts := counts g; timers := timers g;
     encIndex := encIndex g; sig := v; calls := calls g |}.
Definition call (c : Call) (g : Globals) : Globals :=
  {| currentState := currentState g; ring := ring g; counts := counts g; timers := timers g;
     encIndex := encIndex g; sig := sig g; calls := c :: calls g |}.

Definition set_lastIMUread (v : Z) (t : Timers) : Timers :=
  {| lastIMUread := v; lastDisplay := lastDisplay t; lastIdleAnim := lastIdleAnim t;
     lastStrokeTime := lastStrokeTime t; flashStart := flashStart t |}.
Definition set_lastDisplay (v : Z) (t : Timers) : Timers :=
  {| lastIMUread := lastIMUread t; lastDisplay := v; lastIdleAnim := lastIdleAnim t;
     lastStrokeTime := lastStrokeTime t; flashStart := flashStart t |}.
Definition set_lastIdleAnim (v : Z) (t : Timers) : Timers :=
  {| lastIMUread := lastIMUread t; lastDisplay := lastDisplay t; lastIdleAnim := v;
     lastStrokeTime := lastStrokeTime t; flashStart := flashStart t |}.
Definition set_lastStrokeTime (v : Z) (t : Timers) : Timers :=
  {| lastIMUread := lastIMUread t; lastDisplay := lastDisplay t; lastIdleAnim := lastIdleAnim t;
     lastStrokeTime := v; flashStart := flashStart t |}.
Definition set_flashStart (v : Z) (t : Timers) : Timers :=
  {| lastIMUread := lastIMUread t; lastDisplay := lastDisplay t; lastIdleAnim := lastIdleAnim t;
     lastStrokeTime := lastStrokeTime t; flashStart := v |}.

(** What one pass through [loop] reads from the outside: the clock, and
    what the IMU has to offer (in g and in degrees per second). *)
Record Tick := {
  now : Z;                                   (* millis() at line 154 *)
  accel : option (F32.t * F32.t * F32.t);    (* None: accelerationAvailable() is false *)
  gyro : option (F32.t * F32.t * F32.t);     (* None: gyroscopeAvailable() is false *)
  millis_draw : Z                            (* millis() inside drawIdle *)
}.

(** [for (i = i0; ...; i++) body], [n] rounds. *)
Fixpoint for_loop {St : Type} (n : nat) (i : Z) (body : Z -> St -> St) (s : St) : St :=
  match n with
  | O => s
  | S k => for_loop k (i + 1) body (body i s)
  end.

(** Array cells: [a[i]] and [a[i] = v]. *)
Definition cell {A : Type} `{Inhabited A} (a : list A) (i : Z) : A := a !!! Z.to_nat i.
Definition store {A : Type} (a : list A) (i : Z) (v : A) : list A := <[Z.to_nat i := v]> a.

(** Encouragement messages (lines 58-65). *)
Definition encMsgs : list (list string) :=
  [ ["Solid backhand!"; "Clean drive!"];
    ["Backhand power!"; "What a backhand!"];
    ["Nice drive!"; "Perfect contact!"];
    ["Heavy topspin!"; "Great loop!"];
    ["Pure power!"; "Smashed it!"] ]%string.
Definition encCount : list Z := [2; 2; 2; 2; 2].

Definition set_sampleCounter (v : Z) (r : Ring) : Ring :=
  {| imuBuffer := imuBuffer r; bufIndex := bufIndex r; sampleCount := sampleCount r;
     sampleCounter := v |}.

#[global] Instance string_inhabited : Inhabited string := populate EmptyString.

(** ** The sketch *)

Section Sketch.

(** The generated model header [table_tennis_2_inferencing.h] and the
    Edge Impulse SDK are not among the sources.  Their three constants
    and two entry points are parameters of the sketch:
    [signal_from_buffer sig n] and [run_classifier signal] answer [None]
    where the C++ functions return an error code, and [run_classifier]
    answers the array [res.classification[.].value] otherwise.  The
    [for] loops run as many rounds as their bound says, which is what
    the C++ loops do while the bound fits the counter ([uint16_t] for
    the samples, [uint8_t] for the axes). *)
Variable EI_CLASSIFIER_DSP_INPUT_FRAME_SIZE : Z.
Variable EI_CLASSIFIER_RAW_SAMPLES_PER_FRAME : Z.
Variable EI_CLASSIFIER_LABEL_COUNT : Z.
Variable signal_from_buffer : list F32.t -> Z -> option (list F32.t).
Variable run_classifier : list F32.t -> option (list F32.t).

Definition WINDOW_SIZE : Z := EI_CLASSIFIER_DSP_INPUT_FRAME_SIZE.
Definition AXIS_COUNT : Z := EI_CLASSIFIER_RAW_SAMPLES_PER_FRAME.
Definition WINDOW_SAMPLES : Z := Z.quot WINDOW_SIZE AXIS_COUNT.
Definition HOP_SAMPLES : Z := Z.quot (WINDOW_SAMPLES + 1) 2.
Definition IDLE_LABEL_INDEX : Z := u8 (EI_CLASSIFIER_LABEL_COUNT - 1).

(** *** Helpers (lines 71-108) *)

(** [ax*ax+ay*ay+az*az] of one row. *)
Definition sq_magnitude (r : BufferRow) : F32.t :=
  let ax := cell r 0 in
  let ay := cell r 1 in
  let az := cell r 2 in
  F32.add (F32.add (F32.mul ax ax) (F32.mul ay ay)) (F32.mul az az).

(** The loop of [accelAboveThreshold], [n] rounds left, leaving with
    [true] at the first row above the threshold. *)
Fixpoint accel_scan (n : nat) (i : Z) (buf : list BufferRow) (thr2 : F32.t) : bool :=
  match n with
  | O => false
  | S k =>
      if F32.gt (sq_magnitude (cell buf i)) thr2 then true
      else accel_scan k (i + 1) buf thr2
  end.

Definition accel_thr2 : F32.t :=
  let thr := F32.mul ACCEL_THRESH_G CONVERT_G_TO_MS2 in
  F32.mul thr thr.

Definition accelAboveThreshold (g : Globals) : bool :=
  let thr2 := accel_thr2 in
  accel_scan (Z.to_nat WINDOW_SAMPLES) 0 (imuBuffer (ring g)) thr2.

Definition readIMU (tk : Tick) (g : Globals) : Globals :=
  let '(ax, ay, az) :=
    match accel tk with Some v => v | None => (F32.zero, F32.zero, F32.zero) end in
  let '(gx, gy, gz) :=
    match gyro tk with Some v => v | None => (F32.zero, F32.zero, F32.zero) end in
  let rg := ring g in
  let r := cell (imuBuffer rg) (bufIndex rg) in
  let r := store r 0 (F32.mul ax CONVERT_G_TO_MS2) in
  let r := store r 1 (F32.mul ay CONVERT_G_TO_MS2) in
  let r := store r 2 (F32.mul az CONVERT_G_TO_MS2) in
  let r := store r 3 gx in
  let r := store r 4 gy in
  let r := store r 5 gz in
  call (CallReadIMU r)
    (set_ring
       {| imuBuffer := store (imuBuffer rg) (bufIndex rg) r;
          bufIndex := u16 (Z.rem (bufIndex rg + 1) WINDOW_SAMPLES);
          sampleCount :=
            if sampleCount rg <? WINDOW_SAMPLES then u16 (sampleCount rg + 1)
            else sampleCount rg;
          sampleCounter := u16 (sampleCounter rg + 1) |} g).

(** The two nested loops that copy the ring into [sig]. *)
Definition fill_sig (rg : Ring) (sg : list F32.t) : list F32.t :=
  for_loop (Z.to_nat WINDOW_SAMPLES) 0
    (fun i sg =>
       let p := u16 (Z.rem (bufIndex rg + i) WINDOW_SAMPLES) in
       for_loop (Z.to_nat AXIS_COUNT) 0
         (fun j sg => store sg (i * AXIS_COUNT + j) (cell (cell (imuBuffer rg) p) j))
         sg)
    sg.

(** The arg-max loop over [res.classification]. *)
Definition best_label (cl : list F32.t) : Z :=
  for_loop (Z.to_nat (EI_CLASSIFIER_LABEL_COUNT - 1)) 1
    (fun i best => if F32.gt (cell cl i) (cell cl best) then i else best)
    0.

Definition runInference (g : Globals) : InferenceResult * Globals :=
  let g := call CallRunInference (set_sig (fill_sig (ring g) (sig g)) g) in
  match signal_from_buffer (sig g) WINDOW_SIZE with
  | None => ({| index := 0; confidence := F32.zero |}, g)
  | Some signal =>
      match run_classifier signal with
      | None => ({| index := 0; confidence := F32.zero |}, g)
      | Some cl =>
          let best := best_label cl in
          ({| index := u8 best; confidence := cell cl best |}, g)
      end
  end.

(** *** Drawing (lines 110-143): what is painted, not how *)

Definition drawMainScreen (g : Globals) : Globals :=
  call (CallDrawMainScreen (counts g)) g.

Definition drawFlash (idx : Z) (g : Globals) : Globals :=
  let e := cell (encIndex g) idx in
  let m := u8 (Z.rem e (cell encCount idx)) in
  let msg := cell (cell encMsgs idx) m in
  call (CallDrawFlash idx msg) (set_encIndex (store (encIndex g) idx (u8 (e + 1))) g).

Definition drawIdle (tk : Tick) (g : Globals) : Globals :=
  let up := Z.odd (Z.quot (u32 (millis_draw tk - lastIdleAnim (timers g))) ANIM_INTERVAL_MS) in
  call (CallDrawIdle up) g.

(** *** Start-up (lines 40-55, 145-152) *)

(** The globals as the C++ runtime initialises them. *)
Definition power_on : Globals :=
  {| currentState := STATE_OPENING;
     ring := {| imuBuffer :=
                  replicate (Z.to_nat WINDOW_SAMPLES)
                    (replicate (Z.to_nat AXIS_COUNT) F32.zero);
                bufIndex := 0; sampleCount := 0; sampleCounter := 0 |};
     counts := {| countBHdrive := 0; countBHsmash := 0; countFHdrive := 0;
                  countFHloop := 0; countFHsmash := 0; totalStrokes := 0 |};
     timers := {| lastIMUread := 0; lastDisplay := 0; lastIdleAnim := 0;
                  lastStrokeTime := 0; flashStart := 0 |};
     encIndex := [0; 0; 0; 0; 0];
     sig := replicate (Z.to_nat WINDOW_SIZE) F32.zero;
     calls := [] |}.

(** [setup]: [None] when [IMU.begin] or [display.begin] fails and the
    sketch spins in [while(1)]; [t1..t4] are the four readings of
    [millis()]. *)
Definition setup (imu_ok display_ok : bool) (t1 t2 t3 t4 : Z) : option Globals :=
  if negb imu_ok then None
  else if negb display_ok then None
  else
    let g := call CallPlayAnim power_on in
    let g := set_timers
               {| lastIMUread := t1; lastDisplay := t2; lastIdleAnim := t3;
                  lastStrokeTime := t4; flashStart := flashStart (timers g) |} g in
    Some (set_currentState STATE_MAIN g).

(** *** The control loop (lines 154-198) *)

(** [switch(inf.index){...}] followed by [totalStrokes++]. *)
Definition count_stroke (idx : Z) (c : Counters) : Counters :=
  let c :=
    match idx with
    | 0 => {| countBHdrive := u16 (countBHdrive c + 1); countBHsmash := countBHsmash c;
              countFHdrive := countFHdrive c; countFHloop := countFHloop c;
              countFHsmash := countFHsmash c; totalStrokes := totalStrokes c |}
    | 1 => {| countBHdrive := countBHdrive c; countBHsmash := u16 (countBHsmash c + 1);
              countFHdrive := countFHdrive c; countFHloop := countFHloop c;
              countFHsmash := countFHsmash c; totalStrokes := totalStrokes c |}
    | 2 => {| countBHdrive := countBHdrive c; countBHsmash := countBHsmash c;
              countFHdrive := u16 (countFHdrive c + 1); countFHloop := countFHloop c;
              countFHsmash := countFHsmash c; totalStrokes := totalStrokes c |}
    | 3 => {| countBHdrive := countBHdrive c; countBHsmash := countBHsmash c;
              countFHdrive := countFHdrive c; countFHloop := u16 (countFHloop c + 1);
              countFHsmash := countFHsmash c; totalStrokes := totalStrokes c |}
    | 4 => {| countBHdrive := countBHdrive c; countBHsmash := countBHsmash c;
              countFHdrive := countFHdrive c; countFHloop := countFHloop c;
              countFHsmash := u16 (countFHsmash c + 1); totalStrokes := totalStrokes c |}
    | _ => c
    end in
  {| countBHdrive := countBHdrive c; countBHsmash := countBHsmash c;
     countFHdrive := countFHdrive c; countFHloop := countFHloop c;
     countFHsmash := countFHsmash c; totalStrokes := u16 (totalStrokes c + 1) |}.

(** The condition of lines 161, 174 and 187. *)
Definition gate (inf : InferenceResult) (g : Globals) : bool :=
  F32.gt (confidence inf) CONF_THRESH
  && (index inf <? IDLE_LABEL_INDEX)
  && accelAboveThreshold g.

(** The condition of lines 158, 171 and 184. *)
Definition hop_due (g : Globals) : bool :=
  (WINDOW_SAMPLES <=? sampleCount (ring g)) && (HOP_SAMPLES <=? sampleCounter (ring g)).

(** [sampleCounter-=HOP_SAMPLES] (lines 159, 172 and 185): the state in
    which [runInference] is entered. *)
Definition hop_taken (g : Globals) : Globals :=
  set_ring (set_sampleCounter (u16 (sampleCounter (ring g) - HOP_SAMPLES)) (ring g)) g.

(** The classification block, written three times in [loop] (lines
    158-165, 171-178, 184-191); the copy in [STATE_FLASH] is the one
    without [currentState=STATE_FLASH], which is [to_flash = false]. *)
Definition classify (to_flash : bool) (now : Z) (g : Globals) : Globals :=
  if hop_due g then
    let g := hop_taken g in
    let '(inf, g) := runInference g in
    if gate inf g then
      let g := set_counts (count_stroke (index inf) (counts g)) g in
      let g := set_timers (set_flashStart now (timers g)) g in
      let g := drawFlash (index inf) g in
      if to_flash then set_currentState STATE_FLASH g else g
    else g
  else g.

(** Line 155. *)
Definition sample (tk : Tick) (g : Globals) : Globals :=
  if SAMPLE_INTERVAL_MS <=? u32 (now tk - lastIMUread (timers g)) then
    readIMU tk (set_timers (set_lastIMUread (now tk) (timers g)) g)
  else g.

(** Line 166. *)
Definition idle_timeout (now : Z) (g : Globals) : Globals :=
  if IDLE_TIMEOUT_MS <=? u32 (now - lastStrokeTime (timers g)) then
    set_timers (set_lastIdleAnim now (timers g)) (set_currentState STATE_IDLE g)
  else g.

(** Line 167. *)
Definition redraw_main (now : Z) (g : Globals) : Globals :=
  if ANIM_INTERVAL_MS <=? u32 (now - lastDisplay (timers g)) then
    drawMainScreen (set_timers (set_lastDisplay now (timers g)) g)
  else g.

(** Line 179. *)
Definition flash_timeout (now : Z) (g : Globals) : Globals :=
  if FLASH_DURATION_MS <=? u32 (now - flashStart (timers g)) then
    let g := set_timers (set_lastDisplay now (timers g)) g in
    let g := set_timers (set_lastStrokeTime now (timers g)) g in
    set_currentState STATE_MAIN (drawMainScreen g)
  else g.

(** Line 183. *)
Definition animate_idle (tk : Tick) (g : Globals) : Globals :=
  if ANIM_INTERVAL_MS <=? u32 (now tk - lastIdleAnim (timers g)) then
    drawIdle tk (set_timers (set_lastIdleAnim (now tk) (timers g)) g)
  else g.

Definition loop (tk : Tick) (g : Globals) : Globals :=
  let g := sample tk g in
  match currentState g with
  | STATE_MAIN => redraw_main (now tk) (idle_timeout (now tk) (classify true (now tk) g))
  | STATE_FLASH => flash_timeout (now tk) (classify false (now tk) g)
  | STATE_IDLE => classify true (now tk) (animate_idle tk g)
  | STATE_OPENING => set_currentState STATE_MAIN g
  end.

(** [loop] called again and again, once per element of [tks]. *)
Definition run (tks : list Tick) (g : Globals) : Globals :=
  fold_left (fun g tk => loop tk g) tks g.

(** *** Vocabulary of the properties *)

Definition uint16 (z : Z) : Prop := 0 <= z < 2 ^ 16.

(** The rows stored by [readIMU], newest first. *)
Fixpoint stored_rows (cs : list Call) : list BufferRow :=
  match cs with
  | [] => []
  | CallReadIMU r :: cs => r :: stored_rows cs
  | _ :: cs => stored_rows cs
  end.

(** How often [runInference] was entered. *)
Fixpoint inferences (cs : list Call) : Z :=
  match cs with
  | [] => 0
  | CallRunInference :: cs => 1 + inferences cs
  | _ :: cs => inferences cs
  end.

(** The indices that name a label: [0 .. EI_CLASSIFIER_LABEL_COUNT-1]. *)
Definition is_label_index (i : Z) : Prop := 0 <= i < EI_CLASSIFIER_LABEL_COUNT.

(** The counter of one category, as the [switch] of [loop] pairs them
    with the label indices. *)
Definition category_count (idx : Z) (c : Counters) : Z :=
  match idx with
  | 0 => countBHdrive c
  | 1 => countBHsmash c
  | 2 => countFHdrive c
  | 3 => countFHloop c
  | 4 => countFHsmash c
  | _ => 0
  end.

(** A call history in which every entry into [runInference] has at
    least [WINDOW_SAMPLES] stored rows before it. *)
Fixpoint full_before_inference (cs : list Call) : Prop :=
  match cs with
  | [] => True
  | CallRunInference :: cs =>
      WINDOW_SAMPLES <= Z.of_nat (length (stored_rows cs)) /\ full_before_inference cs
  | _ :: cs => full_before_inference cs
  end.

(** What every pass of [loop] keeps true of the filled counter. *)
Definition filled_inv (g : Globals) : Prop :=
  0 <= sampleCount (ring g) <= Z.of_nat (length (stored_rows (calls g))) /\
  full_before_inference (calls g).

(** Ring positions: [wrap p] is [p % WINDOW_SAMPLES] for a cursor plus
    an offset below a full turn, and [slot_behind b k] the slot [k+1]
    places behind the cursor [b]. *)
Definition wrap (p : Z) : Z :=
  if p <? WINDOW_SAMPLES then p else p - WINDOW_SAMPLES.
Definition slot_behind (b k : Z) : Z :=
  if k <? b then b - 1 - k else b - 1 - k + WINDOW_SAMPLES.

(** Geometry of ring and frame, and where the stored rows sit: the
    [k]-th most recent row is [k+1] slots behind the write cursor. *)
Definition ring_inv (g : Globals) : Prop :=
  Z.of_nat (length (imuBuffer (ring g))) = WINDOW_SAMPLES /\
  0 <= bufIndex (ring g) < WINDOW_SAMPLES /\
  Z.of_nat (length (sig g)) = WINDOW_SIZE /\
  forall k, 0 <= k < WINDOW_SAMPLES ->
            k < Z.of_nat (length (stored_rows (calls g))) ->
            cell (imuBuffer (ring g)) (slot_behind (bufIndex (ring g)) k)
            = cell (stored_rows (calls g)) k.

(** The row [readIMU] makes of what the IMU offers, written over the
    row [old] found at the write cursor. *)
Definition sample_row (tk : Tick) (old : BufferRow) : BufferRow :=
  let '(ax, ay, az) :=
    match accel tk with Some v => v | None => (F32.zero, F32.zero, F32.zero) end in
  let '(gx, gy, gz) :=
    match gyro tk with Some v => v | None => (F32.zero, F32.zero, F32.zero) end in
  let r := store old 0 (F32.mul ax CONVERT_G_TO_MS2) in
  let r := store r 1 (F32.mul ay CONVERT_G_TO_MS2) in
  let r := store r 2 (F32.mul az CONVERT_G_TO_MS2) in
  let r := store r 3 gx in
  let r := store r 4 gy in
  store r 5 gz.

(** A pass whose sample, if it is stored, stays at or below the
    threshold of [accelAboveThreshold]. *)
Definition below_threshold (tk : Tick) : Prop :=
  let '(ax, ay, az) :=
    match accel tk with Some v => v | None => (F32.zero, F32.zero, F32.zero) end in
  F32.gt (sq_magnitude [F32.mul ax CONVERT_G_TO_MS2; F32.mul ay CONVERT_G_TO_MS2;
                        F32.mul az CONVERT_G_TO_MS2]) accel_thr2 = false.

(** What holds between passes while every stored sample is below the
    threshold and the idle timeout, counted from [t0], is not reached:
    still in [STATE_MAIN] with the counters [c0], and the hop counter
    in step with the stored rows and the inferences made. *)
Definition quiet_inv (c0 : Counters) (t0 : Z) (g : Globals) : Prop :=
  let n := Z.of_nat (length (stored_rows (calls g))) in
  currentState g = STATE_MAIN /\ counts g = c0 /\ lastStrokeTime (timers g) = t0 /\
  Z.of_nat (length (imuBuffer (ring g))) = WINDOW_SAMPLES /\
  0 <= bufIndex (ring g) < WINDOW_SAMPLES /\
  Forall (fun r : BufferRow =>
            (3 <= length r)%nat /\ F32.gt (sq_magnitude r) accel_thr2 = false)
         (imuBuffer (ring g)) /\
  sampleCount (ring g) = Z.min n WINDOW_SAMPLES /\
  sampleCounter (ring g) = n - HOP_SAMPLES * inferences (calls g) /\
  0 <= inferences (calls g) /\
  (n < WINDOW_SAMPLES -> inferences (calls g) = 0) /\
  (WINDOW_SAMPLES <= n -> 0 <= sampleCounter (ring g) < HOP_SAMPLES).

(** ** Properties *)

(** *** Unsigned arithmetic *)

Lemma u16_id z : uint16 z -> u16 z = z.
Proof. unfold uint16, u16. intros H. apply Z.mod_small. lia. Qed.

Lemma u16_range z : uint16 (u16 z).
Proof. unfold uint16, u16. apply Z.mod_pos_bound. lia. Qed.

Lemma u16_succ_neq z : u16 (z + 1) <> z.
Proof.
  unfold u16. intros H.
  assert (0 <= z < 2 ^ 16) as R by (rewrite <- H; apply Z.mod_pos_bound; lia).
  destruct (Z.eq_dec z (2 ^ 16 - 1)) as [->|N].
  - vm_compute in H. discriminate.
  - rewrite Z.mod_small in H by lia. lia.
Qed.

Lemma u32_self z : u32 (z - z) = 0.
Proof. rewrite Z.sub_diag. reflexivity. Qed.

(** *** What each helper leaves alone *)

Lemma runInference_frame g :
  let g' := snd (runInference g) in
  ring g' = ring g /\ counts g' = counts g /\ timers g' = timers g /\
  currentState g' = currentState g /\ encIndex g' = encIndex g /\
  sig g' = fill_sig (ring g) (sig g) /\
  calls g' = CallRunInference :: calls g.
Proof.
  unfold runInference. cbn zeta.
  destruct (signal_from_buffer _ _) as [signal|]; [destruct (run_classifier signal)|];
    cbn; repeat split.
Qed.

Lemma accelAboveThreshold_buffer g g' :
  imuBuffer (ring g') = imuBuffer (ring g) ->
  accelAboveThreshold g' = accelAboveThreshold g.
Proof. unfold accelAboveThreshold. intros ->. reflexivity. Qed.

(** [classify] when the hop is not due, and when it is. *)
Lemma classify_idle to_flash t g : hop_due g = false -> classify to_flash t g = g.
Proof. unfold classify. intros ->. reflexivity. Qed.

Lemma classify_due to_flash t g :
  hop_due g = true ->
  classify to_flash t g =
    let inf := fst (runInference (hop_taken g)) in
    let g1 := snd (runInference (hop_taken g)) in
    if gate inf g1 then
      let g2 := drawFlash (index inf)
                  (set_timers (set_flashStart t (timers g1))
                     (set_counts (count_stroke (index inf) (counts g1)) g1)) in
      if to_flash then set_currentState STATE_FLASH g2 else g2
    else g1.
Proof.
  unfold classify, hop_taken. intros ->.
  destruct (runInference _) as [inf g1]. reflexivity.
Qed.

Lemma classify_ring to_flash t g :
  ring (classify to_flash t g) = if hop_due g then ring (hop_taken g) else ring g.
Proof.
  destruct (hop_due g) eqn:D.
  - rewrite classify_due by assumption. cbn zeta.
    destruct (runInference_frame (hop_taken g)) as (R & _).
    destruct (gate _ _); [destruct to_flash|]; cbn; exact R.
  - rewrite classify_idle by assumption. reflexivity.
Qed.

Lemma classify_inferences to_flash t g :
  inferences (calls (classify to_flash t g)) =
    if hop_due g then 1 + inferences (calls g) else inferences (calls g).
Proof.
  destruct (hop_due g) eqn:D.
  - rewrite classify_due by assumption. cbn zeta.
    destruct (runInference_frame (hop_taken g)) as (_ & _ & _ & _ & _ & _ & C).
    destruct (gate _ _); [destruct to_flash|]; cbn; rewrite C; reflexivity.
  - rewrite classify_idle by assumption. reflexivity.
Qed.

Lemma hop_due_ring g g' : ring g' = ring g -> hop_due g' = hop_due g.
Proof. unfold hop_due. intros ->. reflexivity. Qed.

(** The ring and the number of inferences after one pass of [loop], in
    terms of the state [sample tk g] that the [switch] starts from. *)
Lemma loop_ring tk g :
  currentState g <> STATE_OPENING ->
  ring (loop tk g) =
    if hop_due (sample tk g) then ring (hop_taken (sample tk g)) else ring (sample tk g).
Proof.
  intros NO. unfold loop.
  assert (currentState (sample tk g) = currentState g) as CS.
  { unfold sample, readIMU. destruct (_ <=? _); [|reflexivity].
    destruct (accel tk) as [[[? ?] ?]|], (gyro tk) as [[[? ?] ?]|]; reflexivity. }
  destruct (currentState (sample tk g)) eqn:E; [congruence| | |].
  - unfold redraw_main, idle_timeout.
    repeat (destruct (_ <=? _); cbn [ring drawMainScreen call set_timers set_currentState]);
      apply classify_ring.
  - unfold flash_timeout.
    repeat (destruct (_ <=? _); cbn [ring drawMainScreen call set_timers set_currentState]);
      apply classify_ring.
  - rewrite classify_ring.
    assert (ring (animate_idle tk (sample tk g)) = ring (sample tk g)) as R.
    { unfold animate_idle. destruct (_ <=? _); reflexivity. }
    rewrite (hop_due_ring _ _ R). unfold hop_taken. rewrite R. reflexivity.
Qed.

Lemma loop_inferences tk g :
  currentState g <> STATE_OPENING ->
  inferences (calls (loop tk g)) =
    if hop_due (sample tk g) then 1 + inferences (calls (sample tk g))
    else inferences (calls (sample tk g)).
Proof.
  intros NO. unfold loop.
  assert (currentState (sample tk g) = currentState g) as CS.
  { unfold sample, readIMU. destruct (_ <=? _); [|reflexivity].
    destruct (accel tk) as [[[? ?] ?]|], (gyro tk) as [[[? ?] ?]|]; reflexivity. }
  destruct (currentState (sample tk g)) eqn:E; [congruence| | |].
  - unfold redraw_main, idle_timeout.
    repeat (destruct (_ <=? _);
            cbn [calls inferences drawMainScreen call set_timers set_currentState]);
      apply classify_inferences.
  - unfold flash_timeout.
    repeat (destruct (_ <=? _);
            cbn [calls inferences drawMainScreen call set_timers set_currentState]);
      apply classify_inferences.
  - rewrite classify_inferences.
    assert (ring (animate_idle tk (sample tk g)) = ring (sample tk g)) as R.
    { unfold animate_idle. destruct (_ <=? _); reflexivity. }
    rewrite (hop_due_ring _ _ R).
    assert (inferences (calls (animate_idle tk (sample tk g)))
            = inferences (calls (sample tk g))) as ->; [|reflexivity].
    unfold animate_idle. destruct (_ <=? _); reflexivity.
Qed.

Lemma sample_sampleCounter_range tk g :
  uint16 (sampleCounter (ring g)) -> uint16 (sampleCounter (ring (sample tk g))).
Proof.
  intros U. unfold sample, readIMU. destruct (_ <=? _); [|exact U].
  destruct (accel tk) as [[[? ?] ?]|], (gyro tk) as [[[? ?] ?]|]; cbn; apply u16_range.
Qed.

Lemma HOP_SAMPLES_pos : 0 < WINDOW_SAMPLES -> 0 < HOP_SAMPLES <= WINDOW_SAMPLES.
Proof.
  unfold HOP_SAMPLES. intros P.
  rewrite Z.quot_div_nonneg by lia.
  split; [apply Z.div_str_pos; lia|].
  apply Z.div_le_upper_bound; lia.
Qed.

(** *** The plausibility gate *)

Lemma accel_scan_true n i buf thr2 :
  accel_scan n i buf thr2 = true <->
  exists k, i <= k < i + Z.of_nat n /\ F32.gt (sq_magnitude (cell buf k)) thr2 = true.
Proof.
  revert i. induction n as [|n IH]; intros i; cbn [accel_scan].
  - split; [discriminate|]. intros (k & R & _). lia.
  - destruct (F32.gt (sq_magnitude (cell buf i)) thr2) eqn:T.
    + split; [|reflexivity]. intros _. exists i. split; [lia|exact T].
    + rewrite IH. split; intros (k & R & K).
      * exists k. split; [lia|exact K].
      * exists k. split; [|exact K].
        destruct (Z.eq_dec k i) as [->|]; [congruence|lia].
Qed.

(** C5.  [accelAboveThreshold] answers [true] exactly when some row [i]
    of the window, [0 <= i < WINDOW_SAMPLES], has
    [ax*ax + ay*ay + az*az] strictly above the squared threshold, and
    [false] exactly when no row has; [ax], [ay], [az] are the channels
    0, 1 and 2 of the row.  The threshold is 2.0 g in m/s^2,
    [2.0f * 9.80665f], multiplied by itself, one value for the whole
    scan; the sum of the three squares is compared as it is, no root
    is taken.  [WINDOW_SAMPLES] fits the [uint16_t] counter of the
    loop. *)
Theorem accelAboveThreshold_iff_some_sample (g : Globals) :
  WINDOW_SAMPLES < 2 ^ 16 ->
  let thr := F32.mul (F32.decimal 20 10) (F32.decimal 980665 100000) in
  let thr2 := F32.mul thr thr in
  let above (i : Z) :=
    let ax := cell (cell (imuBuffer (ring g)) i) 0 in
    let ay := cell (cell (imuBuffer (ring g)) i) 1 in
    let az := cell (cell (imuBuffer (ring g)) i) 2 in
    F32.gt (F32.add (F32.add (F32.mul ax ax) (F32.mul ay ay)) (F32.mul az az)) thr2 in
  (accelAboveThreshold g = true <->
     exists i, 0 <= i < WINDOW_SAMPLES /\ above i = true) /\
  (accelAboveThreshold g = false <->
     forall i, 0 <= i < WINDOW_SAMPLES -> above i = false).
Proof.
  intros _. cbn zeta.
  change (F32.mul (F32.mul (F32.decimal 20 10) (F32.decimal 980665 100000))
            (F32.mul (F32.decimal 20 10) (F32.decimal 980665 100000))) with accel_thr2.
  assert (forall i,
             F32.gt (F32.add (F32.add (F32.mul (cell (cell (imuBuffer (ring g)) i) 0)
                                               (cell (cell (imuBuffer (ring g)) i) 0))
                                      (F32.mul (cell (cell (imuBuffer (ring g)) i) 1)
                                               (cell (cell (imuBuffer (ring g)) i) 1)))
                             (F32.mul (cell (cell (imuBuffer (ring g)) i) 2)
                                      (cell (cell (imuBuffer (ring g)) i) 2)))
                    accel_thr2
             = F32.gt (sq_magnitude (cell (imuBuffer (ring g)) i)) accel_thr2) as SQ
      by reflexivity.
  assert (accelAboveThreshold g = true <->
          exists i, 0 <= i < WINDOW_SAMPLES /\
            F32.gt (sq_magnitude (cell (imuBuffer (ring g)) i)) accel_thr2 = true) as E.
  { unfold accelAboveThreshold. cbn zeta. rewrite accel_scan_true.
    split; intros (k & R & K); exists k; (split; [lia|exact K]). }
  split.
  - rewrite E. split; intros (i & R & K); exists i; (split; [exact R|]).
    + rewrite SQ. exact K.
    + rewrite <- SQ. exact K.
  - split.
    + intros F i R. rewrite SQ.
      destruct (F32.gt _ _) eqn:T; [|reflexivity].
      assert (accelAboveThreshold g = true) by (apply E; eauto). congruence.
    + intros A. apply not_true_is_false. intros T.
      apply E in T. destruct T as (i & R & K). rewrite <- SQ, (A i R) in K. discriminate.
Qed.

(** *** The hop counter *)

(** C3.  In a pass of [loop] through [STATE_MAIN], [STATE_FLASH] or
    [STATE_IDLE] in which the classification is triggered (the hop is
    due once line 155 has run), [runInference] is entered once and
    [sampleCounter] leaves the pass as its value at the trigger minus
    [HOP_SAMPLES]: it is not set to zero, and what it held beyond
    [HOP_SAMPLES] is still there for the next trigger. *)
Theorem hop_counter_subtracts_hop (tk : Tick) (g : Globals) :
  0 < WINDOW_SAMPLES ->
  uint16 (sampleCounter (ring g)) ->
  currentState g <> STATE_OPENING ->
  hop_due (sample tk g) = true ->
  inferences (calls (loop tk g)) = 1 + inferences (calls (sample tk g)) /\
  sampleCounter (ring (loop tk g)) = sampleCounter (ring (sample tk g)) - HOP_SAMPLES /\
  (forall extra, sampleCounter (ring (sample tk g)) = HOP_SAMPLES + extra ->
                 0 <= extra /\ sampleCounter (ring (loop tk g)) = extra).
Proof.
  intros W U NO D.
  pose proof (sample_sampleCounter_range tk _ U) as U1.
  pose proof (HOP_SAMPLES_pos W) as HP.
  assert (HOP_SAMPLES <= sampleCounter (ring (sample tk g))) as GE.
  { unfold hop_due in D. apply andb_true_iff in D. destruct D as (_ & D).
    apply Z.leb_le in D. exact D. }
  assert (sampleCounter (ring (loop tk g))
          = sampleCounter (ring (sample tk g)) - HOP_SAMPLES) as E.
  { rewrite loop_ring, D by assumption. cbn.
    apply u16_id. unfold uint16 in *. lia. }
  split; [rewrite loop_inferences, D by assumption; reflexivity|].
  split; [exact E|].
  intros extra X. rewrite E. lia.
Qed.

(** *** The decision gate *)

Lemma for_loop_inv {St : Type} (P : Z -> St -> Prop) (body : Z -> St -> St) n i s :
  P i s ->
  (forall k s, i <= k < i + Z.of_nat n -> P k s -> P (k + 1) (body k s)) ->
  P (i + Z.of_nat n) (for_loop n i body s).
Proof.
  revert i s. induction n as [|n IH]; intros i s P0 PS; cbn [for_loop].
  - replace (i + Z.of_nat 0) with i by lia. exact P0.
  - replace (i + Z.of_nat (S n)) with ((i + 1) + Z.of_nat n) by lia.
    apply IH.
    + apply PS; [lia|exact P0].
    + intros k s' R. apply PS. lia.
Qed.

Lemma best_label_range cl :
  0 < EI_CLASSIFIER_LABEL_COUNT -> is_label_index (best_label cl).
Proof.
  intros L. unfold best_label, is_label_index.
  pose proof (for_loop_inv (fun k best => 0 <= best < k)
                (fun i best => if F32.gt (cell cl i) (cell cl best) then i else best)
                (Z.to_nat (EI_CLASSIFIER_LABEL_COUNT - 1)) 1 0) as I.
  cbn beta in I.
  assert (1 + Z.of_nat (Z.to_nat (EI_CLASSIFIER_LABEL_COUNT - 1))
          = EI_CLASSIFIER_LABEL_COUNT) as E by lia.
  rewrite E in I. apply I; [lia|].
  intros k s R B. destruct (F32.gt _ _); lia.
Qed.

(** Every index [runInference] answers names a label. *)
Lemma runInference_index g :
  0 < EI_CLASSIFIER_LABEL_COUNT <= 2 ^ 8 ->
  is_label_index (index (fst (runInference g))).
Proof.
  intros L. unfold runInference. cbn zeta.
  destruct (signal_from_buffer _ _) as [signal|]; [destruct (run_classifier signal) as [cl|]|];
    cbn [fst index]; try (unfold is_label_index; lia).
  pose proof (best_label_range cl ltac:(lia)) as B. unfold is_label_index in *.
  unfold u8. rewrite Z.mod_small by lia. exact B.
Qed.

Lemma count_stroke_total idx c :
  totalStrokes (count_stroke idx c) = u16 (totalStrokes c + 1).
Proof. destruct idx as [|[[|[]|]|[|[]|]|]|]; reflexivity. Qed.

(** [count_stroke], counter by counter: the category named by the
    index and the total go up by one, modulo 2^16. *)
Lemma count_stroke_fields idx c :
  countBHdrive (count_stroke idx c)
    = (if idx =? 0 then u16 (countBHdrive c + 1) else countBHdrive c) /\
  countBHsmash (count_stroke idx c)
    = (if idx =? 1 then u16 (countBHsmash c + 1) else countBHsmash c) /\
  countFHdrive (count_stroke idx c)
    = (if idx =? 2 then u16 (countFHdrive c + 1) else countFHdrive c) /\
  countFHloop (count_stroke idx c)
    = (if idx =? 3 then u16 (countFHloop c + 1) else countFHloop c) /\
  countFHsmash (count_stroke idx c)
    = (if idx =? 4 then u16 (countFHsmash c + 1) else countFHsmash c) /\
  totalStrokes (count_stroke idx c) = u16 (totalStrokes c + 1).
Proof. destruct idx as [|[[|[]|]|[|[]|]|]|]; repeat split. Qed.

Lemma count_stroke_neq idx c : count_stroke idx c <> c.
Proof.
  intros E. apply (f_equal totalStrokes) in E.
  rewrite count_stroke_total in E.
  exact (u16_succ_neq _ E).
Qed.

Lemma drawFlash_frame idx g :
  ring (drawFlash idx g) = ring g /\ counts (drawFlash idx g) = counts g /\
  timers (drawFlash idx g) = timers g /\ currentState (drawFlash idx g) = currentState g /\
  exists msg, calls (drawFlash idx g) = CallDrawFlash idx msg :: calls g.
Proof. unfold drawFlash. cbn. repeat split. eexists. reflexivity. Qed.

(** C1.  Where the classification block of [loop] runs (the hop is
    due), with [inf] the answer of [runInference] whatever the
    classifier does: the block counts a stroke, stamps [flashStart],
    draws the flash message and is in [STATE_FLASH] afterwards if and
    only if the confidence is strictly above 0.50, the index is not the
    idle index [EI_CLASSIFIER_LABEL_COUNT - 1], and
    [accelAboveThreshold] passes on the same window.  Counting a stroke
    is: [totalStrokes] one higher, the counter of the category named by
    the index one higher (both modulo 2^16), the other four as they
    were.  If one of the three conditions fails the block leaves
    counters, state and timers as they were and draws nothing; a
    confidence equal to 0.50 is such a failure. *)
Theorem decision_gate_conjunctive (to_flash : bool) (t : Z) (g : Globals) :
  0 < EI_CLASSIFIER_LABEL_COUNT <= 2 ^ 8 ->
  hop_due g = true ->
  to_flash = true \/ currentState g = STATE_FLASH ->
  let inf := fst (runInference (hop_taken g)) in
  let g' := classify to_flash t g in
  let pass := F32.gt (confidence inf) (F32.decimal 50 100) = true /\
              index inf <> EI_CLASSIFIER_LABEL_COUNT - 1 /\
              accelAboveThreshold g = true in
  let accepted := counts g' = count_stroke (index inf) (counts g) /\
                  totalStrokes (counts g') = u16 (totalStrokes (counts g) + 1) /\
                  countBHdrive (counts g')
                    = (if index inf =? 0 then u16 (countBHdrive (counts g) + 1)
                       else countBHdrive (counts g)) /\
                  countBHsmash (counts g')
                    = (if index inf =? 1 then u16 (countBHsmash (counts g) + 1)
                       else countBHsmash (counts g)) /\
                  countFHdrive (counts g')
                    = (if index inf =? 2 then u16 (countFHdrive (counts g) + 1)
                       else countFHdrive (counts g)) /\
                  countFHloop (counts g')
                    = (if index inf =? 3 then u16 (countFHloop (counts g) + 1)
                       else countFHloop (counts g)) /\
                  countFHsmash (counts g')
                    = (if index inf =? 4 then u16 (countFHsmash (counts g) + 1)
                       else countFHsmash (counts g)) /\
                  currentState g' = STATE_FLASH /\
                  flashStart (timers g') = t /\
                  exists msg, calls g' = CallDrawFlash (index inf) msg
                                           :: CallRunInference :: calls g in
  (accepted <-> pass) /\
  (~ pass -> counts g' = counts g /\ currentState g' = currentState g /\
             timers g' = timers g /\ calls g' = CallRunInference :: calls g) /\
  (confidence inf = F32.decimal 50 100 -> ~ pass).
Proof.
  intros L D F. cbn zeta.
  change (F32.decimal 50 100) with CONF_THRESH.
  pose proof (runInference_index (hop_taken g) L) as IX.
  destruct (runInference_frame (hop_taken g)) as (R & C & T & S & _ & _ & K).
  rewrite (classify_due _ _ _ D). cbn zeta.
  set (inf := fst (runInference (hop_taken g))) in *.
  set (g1 := snd (runInference (hop_taken g))) in *.
  assert (gate inf g1 = true <->
          F32.gt (confidence inf) CONF_THRESH = true /\
          index inf <> EI_CLASSIFIER_LABEL_COUNT - 1 /\ accelAboveThreshold g = true) as G.
  { unfold gate. rewrite (accelAboveThreshold_buffer g g1) by (rewrite R; reflexivity).
    rewrite !andb_true_iff, Z.ltb_lt.
    unfold is_label_index, IDLE_LABEL_INDEX, u8 in *.
    rewrite Z.mod_small by lia. intuition lia. }
  destruct (gate inf g1) eqn:E.
  - assert (F32.gt (confidence inf) CONF_THRESH = true /\
            index inf <> EI_CLASSIFIER_LABEL_COUNT - 1 /\ accelAboveThreshold g = true) as P
        by (apply G; reflexivity).
    split; [|split].
    + split; [intros _; exact P|intros _].
      destruct (drawFlash_frame (index inf)
                  (set_timers (set_flashStart t (timers g1))
                     (set_counts (count_stroke (index inf) (counts g1)) g1)))
        as (_ & DC & DT & DS & msg & DK).
      assert (currentState g1 = currentState g) as S' by exact S.
      destruct (count_stroke_fields (index inf) (counts g))
        as (F0 & F1 & F2 & F3 & F4 & FT).
      destruct to_flash; cbn [counts currentState timers calls set_currentState];
        rewrite ?DC, ?DT, ?DS, ?DK; cbn; rewrite ?C, ?K; cbn;
        (split; [reflexivity|]); (split; [exact FT|]); (split; [exact F0|]);
        (split; [exact F1|]); (split; [exact F2|]); (split; [exact F3|]);
        (split; [exact F4|]);
        (split; [|split; [reflexivity|eexists; reflexivity]]).
      * reflexivity.
      * destruct F as [F|F]; [discriminate|]. rewrite S'. exact F.
    + intros NP. contradiction.
    + intros Q (P1 & _). rewrite Q in P1. vm_compute in P1. discriminate.
  - assert (~ (F32.gt (confidence inf) CONF_THRESH = true /\
               index inf <> EI_CLASSIFIER_LABEL_COUNT - 1 /\
               accelAboveThreshold g = true)) as NP.
    { intros P. apply G in P. discriminate. }
    split; [|split].
    + split; [|intros P; contradiction].
      intros (A & _). rewrite C in A. cbn in A.
      exfalso. exact (count_stroke_neq _ _ (eq_sym A)).
    + intros _. rewrite C, S, T, K. cbn. repeat split.
    + intros _. exact NP.
Qed.

(** The counters at the end of a pass are those the classification
    block left: nothing after it in [loop] touches them. *)
Lemma loop_counts tk g :
  counts (loop tk g) =
    match currentState g with
    | STATE_OPENING => counts g
    | STATE_MAIN => counts (classify true (now tk) (sample tk g))
    | STATE_FLASH => counts (classify false (now tk) (sample tk g))
    | STATE_IDLE => counts (classify true (now tk) (animate_idle tk (sample tk g)))
    end.
Proof.
  assert (currentState (sample tk g) = currentState g /\ counts (sample tk g) = counts g)
    as (CS & CN).
  { unfold sample, readIMU. destruct (_ <=? _); [|split; reflexivity].
    destruct (accel tk) as [[[? ?] ?]|], (gyro tk) as [[[? ?] ?]|]; split; reflexivity. }
  unfold loop. rewrite CS. destruct (currentState g).
  - exact CN.
  - unfold redraw_main, idle_timeout.
    repeat (destruct (_ <=? _); cbn [counts drawMainScreen call set_timers set_currentState]);
      reflexivity.
  - unfold flash_timeout.
    destruct (_ <=? _); cbn [counts drawMainScreen call set_timers set_currentState];
      reflexivity.
  - reflexivity.
Qed.

(** *** No classification before the ring is full *)

Lemma full_before_inference_split cs :
  full_before_inference cs ->
  forall later earlier,
    cs = later ++ CallRunInference :: earlier ->
    WINDOW_SAMPLES <= Z.of_nat (length (stored_rows earlier)).
Proof.
  intros F later. revert cs F.
  induction later as [|c later IH]; intros cs F earlier ->; cbn in F.
  - tauto.
  - apply (IH (later ++ CallRunInference :: earlier)); [|reflexivity].
    destruct c; tauto.
Qed.

Lemma filled_inv_sample tk g : filled_inv g -> filled_inv (sample tk g).
Proof.
  intros ((P & B) & F). unfold sample. destruct (_ <=? _); [|exact (conj (conj P B) F)].
  unfold readIMU, filled_inv.
  destruct (accel tk) as [[[? ?] ?]|], (gyro tk) as [[[? ?] ?]|];
    cbn [ring calls call set_ring set_timers sampleCount stored_rows
         full_before_inference length];
    (split; [|exact F]);
    (destruct (_ <? _);
     [pose proof (Z.mod_le (sampleCount (ring g) + 1) (2 ^ 16) ltac:(lia) ltac:(lia));
      pose proof (Z.mod_pos_bound (sampleCount (ring g) + 1) (2 ^ 16) ltac:(lia));
      unfold u16; lia
     |lia]).
Qed.

Lemma filled_inv_classify to_flash t g : filled_inv g -> filled_inv (classify to_flash t g).
Proof.
  intros ((P & B) & F).
  destruct (hop_due g) eqn:D; [|rewrite classify_idle by assumption; exact (conj (conj P B) F)].
  rewrite classify_due by assumption. cbn zeta.
  destruct (runInference_frame (hop_taken g)) as (R & _ & _ & _ & _ & _ & K).
  assert (WINDOW_SAMPLES <= sampleCount (ring g)) as WF.
  { unfold hop_due in D. apply andb_true_iff in D. destruct D as (D & _).
    apply Z.leb_le. exact D. }
  unfold filled_inv.
  destruct (gate _ _); [destruct to_flash|];
    cbn [ring calls call drawFlash set_currentState set_timers set_counts set_encIndex];
    rewrite R, K;
    cbn [ring calls hop_taken set_ring set_sampleCounter sampleCount stored_rows
         full_before_inference];
    (split; [lia|]); (split; [lia|exact F]).
Qed.

Lemma filled_inv_same g g' :
  ring g' = ring g ->
  (calls g' = calls g \/ exists c, calls g' = c :: calls g /\
                                  stored_rows [c] = [] /\ c <> CallRunInference) ->
  filled_inv g -> filled_inv g'.
Proof.
  intros R [K|(c & K & N & NI)] ((P & B) & F); unfold filled_inv; rewrite R, K.
  - exact (conj (conj P B) F).
  - destruct c; cbn in N; try discriminate; try congruence;
      cbn; (split; [lia|exact F]).
Qed.

Lemma filled_inv_loop tk g : filled_inv g -> filled_inv (loop tk g).
Proof.
  intros I. apply (filled_inv_sample tk) in I. unfold loop.
  destruct (currentState (sample tk g)).
  - eapply filled_inv_same; [| |exact I]; [reflexivity|left; reflexivity].
  - apply (filled_inv_classify true (now tk)) in I.
    unfold redraw_main, idle_timeout.
    destruct (IDLE_TIMEOUT_MS <=? _); destruct (ANIM_INTERVAL_MS <=? _);
      (eapply filled_inv_same; [| |exact I]; [reflexivity|]);
      first [left; reflexivity
            |right; eexists; split; [reflexivity|split; [reflexivity|discriminate]]].
  - apply (filled_inv_classify false (now tk)) in I.
    unfold flash_timeout.
    destruct (FLASH_DURATION_MS <=? _);
      (eapply filled_inv_same; [| |exact I]; [reflexivity|]);
      first [left; reflexivity
            |right; eexists; split; [reflexivity|split; [reflexivity|discriminate]]].
  - apply filled_inv_classify.
    unfold animate_idle.
    destruct (ANIM_INTERVAL_MS <=? _);
      (eapply filled_inv_same; [| |exact I]; [reflexivity|]);
      first [left; reflexivity
            |right; eexists; split; [reflexivity|split; [reflexivity|discriminate]]].
Qed.

Lemma filled_inv_run tks g : filled_inv g -> filled_inv (run tks g).
Proof.
  revert g. induction tks as [|tk tks IH]; intros g I; [exact I|].
  cbn. apply IH. apply filled_inv_loop. exact I.
Qed.

Lemma filled_inv_setup imu_ok display_ok t1 t2 t3 t4 g0 :
  setup imu_ok display_ok t1 t2 t3 t4 = Some g0 -> filled_inv g0.
Proof.
  unfold setup. destruct imu_ok, display_ok; cbn; try discriminate.
  intros [= <-]. unfold filled_inv. cbn. lia.
Qed.

Lemma sample_inferences tk g : inferences (calls (sample tk g)) = inferences (calls g).
Proof.
  unfold sample, readIMU. destruct (_ <=? _); [|reflexivity].
  destruct (accel tk) as [[[? ?] ?]|], (gyro tk) as [[[? ?] ?]|]; reflexivity.
Qed.

(** C2.  In any state whatever, a pass of [loop] that reaches its
    [switch] with [sampleCount] below [WINDOW_SAMPLES] does not enter
    [runInference].  And in every execution, [setup] followed by any
    number of passes of [loop], each entry into [runInference] in the
    call history comes after at least [WINDOW_SAMPLES] rows were stored
    by [readIMU]: never before the first complete fill of the ring. *)
Theorem no_inference_before_full
    (imu_ok display_ok : bool) (t1 t2 t3 t4 : Z) (g0 : Globals) (tks : list Tick) :
  setup imu_ok display_ok t1 t2 t3 t4 = Some g0 ->
  (forall tk g, sampleCount (ring (sample tk g)) < WINDOW_SAMPLES ->
                inferences (calls (loop tk g)) = inferences (calls g)) /\
  (forall later earlier,
      calls (run tks g0) = later ++ CallRunInference :: earlier ->
      WINDOW_SAMPLES <= Z.of_nat (length (stored_rows earlier))).
Proof.
  intros S. split.
  - intros tk g LT.
    assert (hop_due (sample tk g) = false) as D.
    { unfold hop_due. apply andb_false_iff. left. apply Z.leb_gt. exact LT. }
    destruct (decide (currentState g = STATE_OPENING)) as [O|NO].
    + unfold loop.
      assert (currentState (sample tk g) = STATE_OPENING) as ->.
      { rewrite <- O. unfold sample, readIMU. destruct (_ <=? _); [|reflexivity].
        destruct (accel tk) as [[[? ?] ?]|], (gyro tk) as [[[? ?] ?]|]; reflexivity. }
      cbn. apply sample_inferences.
    + rewrite loop_inferences, D by assumption. apply sample_inferences.
  - apply full_before_inference_split.
    apply filled_inv_run. eapply filled_inv_setup. exact S.
Qed.

(** *** The frame handed to the classifier *)

Lemma cell_store_eq {A : Type} `{Inhabited A} (a : list A) i v :
  0 <= i < Z.of_nat (length a) -> cell (store a i v) i = v.
Proof.
  intros R. unfold cell, store. apply list_lookup_total_insert_eq. lia.
Qed.

Lemma cell_store_ne {A : Type} `{Inhabited A} (a : list A) i j v :
  0 <= i -> 0 <= j -> i <> j -> cell (store a i v) j = cell a j.
Proof.
  intros I J N. unfold cell, store. apply list_lookup_total_insert_ne. lia.
Qed.

Lemma length_store {A : Type} (a : list A) i v : length (store a i v) = length a.
Proof. apply length_insert. Qed.

Lemma cell_cons_succ {A : Type} `{Inhabited A} (x : A) (a : list A) k :
  0 < k -> cell (x :: a) k = cell a (k - 1).
Proof.
  intros K. unfold cell.
  replace (Z.to_nat k) with (S (Z.to_nat (k - 1))) by lia. reflexivity.
Qed.

Lemma rem_wrap b i :
  0 < WINDOW_SAMPLES < 2 ^ 16 -> 0 <= b < WINDOW_SAMPLES -> 0 <= i <= WINDOW_SAMPLES ->
  u16 (Z.rem (b + i) WINDOW_SAMPLES) = wrap (b + i).
Proof.
  intros W B I. unfold wrap, u16.
  rewrite Z.rem_mod_nonneg by lia.
  destruct (Z.ltb_spec (b + i) WINDOW_SAMPLES).
  - rewrite (Z.mod_small (b + i)) by lia. apply Z.mod_small. lia.
  - replace (b + i) with ((b + i - WINDOW_SAMPLES) + 1 * WINDOW_SAMPLES) at 1 by lia.
    rewrite Z.mod_add by lia.
    rewrite (Z.mod_small (b + i - WINDOW_SAMPLES)) by lia. apply Z.mod_small. lia.
Qed.

Lemma frame_fits :
  0 < AXIS_COUNT -> 0 <= WINDOW_SIZE -> WINDOW_SAMPLES * AXIS_COUNT <= WINDOW_SIZE.
Proof.
  intros A S. unfold WINDOW_SAMPLES. rewrite Z.quot_div_nonneg by lia.
  rewrite Z.mul_comm. apply Z.mul_div_le. lia.
Qed.

(** The inner loop of [fill_sig]: one row copied to [base .. base+AXIS_COUNT-1],
    everything else left in place. *)
Lemma copy_row_spec (row : BufferRow) base sg :
  0 <= base -> base + AXIS_COUNT <= Z.of_nat (length sg) ->
  let sg' := for_loop (Z.to_nat AXIS_COUNT) 0
               (fun j sg => store sg (base + j) (cell row j)) sg in
  length sg' = length sg /\
  (forall j, 0 <= j < AXIS_COUNT -> cell sg' (base + j) = cell row j) /\
  (forall q, 0 <= q -> ~ (base <= q < base + AXIS_COUNT) -> cell sg' q = cell sg q).
Proof.
  intros B F. cbn zeta.
  pose proof (for_loop_inv
    (fun k s => length s = length sg /\
                (forall j, 0 <= j < k -> cell s (base + j) = cell row j) /\
                (forall q, 0 <= q -> ~ (base <= q < base + k) -> cell s q = cell sg q))
    (fun j sg => store sg (base + j) (cell row j))
    (Z.to_nat AXIS_COUNT) 0 sg) as I.
  cbn beta in I.
  destruct (Z.le_gt_cases AXIS_COUNT 0) as [NP|P].
  - replace (Z.to_nat AXIS_COUNT) with O by lia. cbn.
    split; [reflexivity|]. split; [intros; lia|reflexivity].
  - replace (0 + Z.of_nat (Z.to_nat AXIS_COUNT)) with AXIS_COUNT in I by lia.
    apply I.
    + split; [reflexivity|]. split; [intros; lia|reflexivity].
    + intros k s R (L & In & Out). rewrite length_store.
      split; [exact L|]. split.
      * intros j J. destruct (Z.eq_dec j k) as [->|N].
        -- apply cell_store_eq. lia.
        -- rewrite cell_store_ne by lia. apply In. lia.
      * intros q Q NQ. rewrite cell_store_ne by lia. apply Out; [exact Q|lia].
Qed.

(** The frame after both loops: sample [i], axis [j] of the frame is
    axis [j] of the row [i] slots on from the write cursor. *)
Lemma fill_sig_spec rg sg :
  0 < AXIS_COUNT -> 0 < WINDOW_SAMPLES < 2 ^ 16 ->
  0 <= bufIndex rg < WINDOW_SAMPLES ->
  Z.of_nat (length sg) = WINDOW_SIZE ->
  length (fill_sig rg sg) = length sg /\
  forall i j, 0 <= i < WINDOW_SAMPLES -> 0 <= j < AXIS_COUNT ->
    cell (fill_sig rg sg) (i * AXIS_COUNT + j)
    = cell (cell (imuBuffer rg) (wrap (bufIndex rg + i))) j.
Proof.
  intros A W B L.
  assert (WINDOW_SAMPLES * AXIS_COUNT <= WINDOW_SIZE) as FF by (apply frame_fits; lia).
  unfold fill_sig.
  pose proof (for_loop_inv
    (fun k s => length s = length sg /\
                forall i j, 0 <= i < k -> 0 <= j < AXIS_COUNT ->
                  cell s (i * AXIS_COUNT + j)
                  = cell (cell (imuBuffer rg) (wrap (bufIndex rg + i))) j)
    (fun i sg =>
       let p := u16 (Z.rem (bufIndex rg + i) WINDOW_SAMPLES) in
       for_loop (Z.to_nat AXIS_COUNT) 0
         (fun j sg => store sg (i * AXIS_COUNT + j) (cell (cell (imuBuffer rg) p) j))
         sg)
    (Z.to_nat WINDOW_SAMPLES) 0 sg) as I.
  cbn beta zeta in I.
  replace (0 + Z.of_nat (Z.to_nat WINDOW_SAMPLES)) with WINDOW_SAMPLES in I by lia.
  apply I.
  - split; [reflexivity|]. intros; lia.
  - intros k s R (Ls & Done).
    rewrite rem_wrap by lia.
    destruct (copy_row_spec (cell (imuBuffer rg) (wrap (bufIndex rg + k)))
                (k * AXIS_COUNT) s ltac:(nia) ltac:(nia)) as (L' & In & Out).
    cbn zeta in L', In, Out.
    split; [congruence|].
    intros i j Ri Rj. destruct (Z.eq_dec i k) as [->|N].
    + apply In. exact Rj.
    + rewrite Out by nia. apply Done; lia.
Qed.

Lemma WINDOW_SIZE_pos : 0 < AXIS_COUNT -> 0 < WINDOW_SAMPLES -> 0 < WINDOW_SIZE.
Proof.
  unfold WINDOW_SAMPLES. intros A W.
  destruct (Z.lt_ge_cases 0 WINDOW_SIZE) as [P|NP]; [exact P|].
  pose proof (Z.quot_opp_l (- WINDOW_SIZE) AXIS_COUNT ltac:(lia)) as Q.
  rewrite Z.opp_involutive in Q.
  pose proof (Z.quot_pos (- WINDOW_SIZE) AXIS_COUNT ltac:(lia) ltac:(lia)). lia.
Qed.

Lemma ring_inv_same g g' :
  imuBuffer (ring g') = imuBuffer (ring g) ->
  bufIndex (ring g') = bufIndex (ring g) ->
  length (sig g') = length (sig g) ->
  stored_rows (calls g') = stored_rows (calls g) ->
  ring_inv g -> ring_inv g'.
Proof.
  intros B I S R (L & C & G & H). unfold ring_inv. rewrite B, I, S, R. tauto.
Qed.

(** [readIMU] as one push of some row. *)
Lemma readIMU_push tk g :
  exists row,
    readIMU tk g =
      call (CallReadIMU row)
        (set_ring
           {| imuBuffer := store (imuBuffer (ring g)) (bufIndex (ring g)) row;
              bufIndex := u16 (Z.rem (bufIndex (ring g) + 1) WINDOW_SAMPLES);
              sampleCount :=
                if sampleCount (ring g) <? WINDOW_SAMPLES
                then u16 (sampleCount (ring g) + 1) else sampleCount (ring g);
              sampleCounter := u16 (sampleCounter (ring g) + 1) |} g).
Proof.
  unfold readIMU.
  destruct (accel tk) as [[[ax ay] az]|], (gyro tk) as [[[gx gy] gz]|];
    eexists; reflexivity.
Qed.

Lemma slot_behind_newest b :
  0 <= b < WINDOW_SAMPLES -> slot_behind (wrap (b + 1)) 0 = b.
Proof.
  intros B. unfold slot_behind, wrap.
  repeat match goal with |- context [Z.ltb ?x ?y] => destruct (Z.ltb_spec x y) end; lia.
Qed.

Lemma slot_behind_older b k :
  0 <= b < WINDOW_SAMPLES -> 0 < k < WINDOW_SAMPLES ->
  slot_behind (wrap (b + 1)) k = slot_behind b (k - 1) /\
  slot_behind b (k - 1) <> b /\ 0 <= slot_behind b (k - 1).
Proof.
  intros B K. unfold slot_behind, wrap.
  repeat match goal with |- context [Z.ltb ?x ?y] => destruct (Z.ltb_spec x y) end; lia.
Qed.

Lemma ring_inv_readIMU tk g :
  0 < WINDOW_SAMPLES < 2 ^ 16 -> ring_inv g -> ring_inv (readIMU tk g).
Proof.
  intros W (L & C & G & H).
  destruct (readIMU_push tk g) as (row & ->).
  unfold ring_inv.
  cbn [ring calls call set_ring sig imuBuffer bufIndex stored_rows length].
  rewrite length_store, rem_wrap by lia.
  split; [exact L|].
  split; [unfold wrap; destruct (Z.ltb_spec (bufIndex (ring g) + 1) WINDOW_SAMPLES); lia|].
  split; [exact G|].
  intros k K KL. destruct (Z.eq_dec k 0) as [->|NZ].
  - rewrite slot_behind_newest by lia. rewrite cell_store_eq by lia. reflexivity.
  - destruct (slot_behind_older (bufIndex (ring g)) k ltac:(lia) ltac:(lia)) as (E & N & P).
    rewrite E, cell_cons_succ by lia.
    rewrite cell_store_ne by lia.
    apply H; [lia|]. cbn [length] in KL. lia.
Qed.

Lemma ring_inv_sample tk g :
  0 < WINDOW_SAMPLES < 2 ^ 16 -> ring_inv g -> ring_inv (sample tk g).
Proof.
  intros W I. unfold sample. destruct (_ <=? _); [|exact I].
  apply ring_inv_readIMU; [exact W|].
  eapply ring_inv_same; [| | | |exact I]; reflexivity.
Qed.

Lemma ring_inv_classify to_flash t g :
  0 < AXIS_COUNT -> 0 < WINDOW_SAMPLES < 2 ^ 16 ->
  ring_inv g -> ring_inv (classify to_flash t g).
Proof.
  intros A W I.
  destruct (hop_due g) eqn:D; [|rewrite classify_idle by assumption; exact I].
  pose proof I as (L & C & G & H).
  rewrite classify_due by assumption. cbn zeta.
  destruct (runInference_frame (hop_taken g)) as (R & _ & _ & _ & _ & S & K).
  destruct (fill_sig_spec (ring (hop_taken g)) (sig (hop_taken g)) A W C G) as (FL & _).
  destruct (gate _ _); [destruct to_flash|];
    (eapply ring_inv_same; [| | | |exact I]);
    cbn [ring calls sig call drawFlash set_currentState set_timers set_counts set_encIndex
         stored_rows];
    rewrite ?R, ?S, ?K; try reflexivity; exact FL.
Qed.

Lemma ring_inv_loop tk g :
  0 < AXIS_COUNT -> 0 < WINDOW_SAMPLES < 2 ^ 16 ->
  ring_inv g -> ring_inv (loop tk g).
Proof.
  intros A W I. apply (ring_inv_sample tk _ W) in I. unfold loop.
  destruct (currentState (sample tk g)).
  - eapply ring_inv_same; [| | | |exact I]; reflexivity.
  - apply (ring_inv_classify true (now tk) _ A W) in I.
    unfold redraw_main, idle_timeout.
    destruct (IDLE_TIMEOUT_MS <=? _); destruct (ANIM_INTERVAL_MS <=? _);
      (eapply ring_inv_same; [| | | |exact I]); reflexivity.
  - apply (ring_inv_classify false (now tk) _ A W) in I.
    unfold flash_timeout.
    destruct (FLASH_DURATION_MS <=? _);
      (eapply ring_inv_same; [| | | |exact I]); reflexivity.
  - apply (ring_inv_classify true (now tk) _ A W).
    unfold animate_idle.
    destruct (ANIM_INTERVAL_MS <=? _);
      (eapply ring_inv_same; [| | | |exact I]); reflexivity.
Qed.

Lemma ring_inv_run tks g :
  0 < AXIS_COUNT -> 0 < WINDOW_SAMPLES < 2 ^ 16 ->
  ring_inv g -> ring_inv (run tks g).
Proof.
  intros A W. revert g. induction tks as [|tk tks IH]; intros g I; [exact I|].
  cbn. apply IH. apply ring_inv_loop; assumption.
Qed.

Lemma ring_inv_setup imu_ok display_ok t1 t2 t3 t4 g0 :
  0 < AXIS_COUNT -> 0 < WINDOW_SAMPLES ->
  setup imu_ok display_ok t1 t2 t3 t4 = Some g0 -> ring_inv g0.
Proof.
  intros A W. pose proof (WINDOW_SIZE_pos A W) as S.
  unfold setup. destruct imu_ok, display_ok; cbn; try discriminate.
  intros [= <-]. unfold ring_inv. cbn.
  rewrite !length_replicate. repeat split; try lia.
Qed.

(** C4.  For every state with the write cursor inside the ring, the
    frame [sig] that [runInference] assembles holds
    [WINDOW_SAMPLES * AXIS_COUNT] scalars, sample [i] of it being the
    ring row [i] slots on from the write cursor (wrapping), and
    assembling it changes neither the ring buffer nor the write cursor
    nor any counter.  In every execution, at the [switch] of any pass of
    [loop] with [sampleCount = WINDOW_SAMPLES], that row is the one
    stored [WINDOW_SAMPLES - i] calls of [readIMU] ago: the slot at the
    write cursor holds the oldest sample, and the frame runs from the
    oldest sample to the newest. *)
Theorem frame_is_window_oldest_first
    (imu_ok display_ok : bool) (t1 t2 t3 t4 : Z) (g0 : Globals)
    (tks : list Tick) (tk : Tick) :
  0 < AXIS_COUNT < 2 ^ 8 -> 0 < WINDOW_SAMPLES < 2 ^ 16 ->
  Z.rem WINDOW_SIZE AXIS_COUNT = 0 ->
  setup imu_ok display_ok t1 t2 t3 t4 = Some g0 ->
  (forall h,
      0 <= bufIndex (ring h) < WINDOW_SAMPLES ->
      Z.of_nat (length (sig h)) = WINDOW_SIZE ->
      let h' := snd (runInference h) in
      Z.of_nat (length (sig h')) = WINDOW_SAMPLES * AXIS_COUNT /\
      (forall i j, 0 <= i < WINDOW_SAMPLES -> 0 <= j < AXIS_COUNT ->
         cell (sig h') (i * AXIS_COUNT + j)
         = cell (cell (imuBuffer (ring h)) (wrap (bufIndex (ring h) + i))) j) /\
      ring h' = ring h /\ counts h' = counts h) /\
  (let g := sample tk (run tks g0) in
   sampleCount (ring g) = WINDOW_SAMPLES ->
   let g' := snd (runInference (hop_taken g)) in
   Z.of_nat (length (sig g')) = WINDOW_SAMPLES * AXIS_COUNT /\
   (forall i j, 0 <= i < WINDOW_SAMPLES -> 0 <= j < AXIS_COUNT ->
      cell (sig g') (i * AXIS_COUNT + j)
      = cell (cell (stored_rows (calls g)) (WINDOW_SAMPLES - 1 - i)) j) /\
   (forall i, 0 <= i < WINDOW_SAMPLES ->
      cell (imuBuffer (ring g)) (wrap (bufIndex (ring g) + i))
      = cell (stored_rows (calls g)) (WINDOW_SAMPLES - 1 - i)) /\
   imuBuffer (ring g') = imuBuffer (ring g) /\
   bufIndex (ring g') = bufIndex (ring g) /\
   sampleCount (ring g') = sampleCount (ring g) /\
   sampleCounter (ring g') = sampleCounter (ring (hop_taken g)) /\
   counts g' = counts g).
Proof.
  intros A W DV S.
  assert (WINDOW_SIZE = WINDOW_SAMPLES * AXIS_COUNT) as SZ.
  { unfold WINDOW_SAMPLES.
    pose proof (Z.quot_rem' WINDOW_SIZE AXIS_COUNT) as Q. rewrite DV in Q. lia. }
  assert (forall h,
             0 <= bufIndex (ring h) < WINDOW_SAMPLES ->
             Z.of_nat (length (sig h)) = WINDOW_SIZE ->
             Z.of_nat (length (sig (snd (runInference h)))) = WINDOW_SAMPLES * AXIS_COUNT /\
             (forall i j, 0 <= i < WINDOW_SAMPLES -> 0 <= j < AXIS_COUNT ->
                cell (sig (snd (runInference h))) (i * AXIS_COUNT + j)
                = cell (cell (imuBuffer (ring h)) (wrap (bufIndex (ring h) + i))) j) /\
             ring (snd (runInference h)) = ring h /\
             counts (snd (runInference h)) = counts h) as ANY.
  { intros h C G.
    destruct (runInference_frame h) as (R & CN & _ & _ & _ & SG & _).
    destruct (fill_sig_spec (ring h) (sig h) ltac:(lia) W C G) as (FL & FC).
    rewrite SG. split; [rewrite FL; lia|]. split; [exact FC|]. split; assumption. }
  split; [exact ANY|].
  intros g FULL g'.
  assert (ring_inv g) as RI.
  { apply ring_inv_sample; [exact W|]. apply ring_inv_run; try assumption; try lia.
    eapply ring_inv_setup; [|lia|exact S]. lia. }
  assert (filled_inv g) as FI.
  { apply filled_inv_sample. apply filled_inv_run. eapply filled_inv_setup. exact S. }
  destruct RI as (L & C & G & H). destruct FI as ((_ & ROWS) & _).
  destruct (ANY (hop_taken g) C G) as (LEN & LAY & R & CN). fold g' in LEN, LAY, R, CN.
  assert (forall i, 0 <= i < WINDOW_SAMPLES ->
             cell (imuBuffer (ring g)) (wrap (bufIndex (ring g) + i))
             = cell (stored_rows (calls g)) (WINDOW_SAMPLES - 1 - i)) as OLD.
  { intros i Ri.
    replace (wrap (bufIndex (ring g) + i))
      with (slot_behind (bufIndex (ring g)) (WINDOW_SAMPLES - 1 - i)).
    - apply H; lia.
    - unfold slot_behind, wrap.
      repeat match goal with |- context [Z.ltb ?x ?y] => destruct (Z.ltb_spec x y) end; lia. }
  split; [exact LEN|].
  split; [intros i j Ri Rj; rewrite (LAY i j Ri Rj); cbn [ring hop_taken set_ring imuBuffer
                                                          bufIndex set_sampleCounter];
          rewrite (OLD i Ri); reflexivity|].
  split; [exact OLD|].
  rewrite R, CN. cbn. repeat split.
Qed.

(** *** Classifier failure *)

(** C6, as the sketch has it.  When [signal_from_buffer] or
    [run_classifier] reports an error, [runInference] answers
    confidence [0.0] together with index [0], which is the index of the
    first label and not a reserved one.  The classification block then
    rejects, as for any confidence not above the threshold: it enters
    [runInference] and nothing more, with no flash drawn, no counter
    changed, state and timers as before; the answer is an ordinary
    value and nothing is raised. *)
Theorem classifier_failure_is_rejected (to_flash : bool) (t : Z) (g : Globals) :
  hop_due g = true ->
  (let frame := fill_sig (ring (hop_taken g)) (sig (hop_taken g)) in
   signal_from_buffer frame WINDOW_SIZE = None \/
   exists signal, signal_from_buffer frame WINDOW_SIZE = Some signal /\
                  run_classifier signal = None) ->
  let inf := fst (runInference (hop_taken g)) in
  let g' := classify to_flash t g in
  inf = {| index := 0; confidence := F32.zero |} /\
  (0 < EI_CLASSIFIER_LABEL_COUNT -> is_label_index (index inf)) /\
  F32.gt (confidence inf) CONF_THRESH = false /\
  counts g' = counts g /\ currentState g' = currentState g /\
  timers g' = timers g /\ encIndex g' = encIndex g /\
  calls g' = CallRunInference :: calls g.
Proof.
  intros D FAIL inf g'.
  assert (inf = {| index := 0; confidence := F32.zero |}) as E.
  { subst inf. unfold runInference. cbn zeta in *.
    cbn [sig call set_sig].
    destruct FAIL as [-> | (signal & -> & ->)]; reflexivity. }
  destruct (runInference_frame (hop_taken g)) as (R & C & T & S & EI & _ & K).
  fold inf in E.
  assert (g' = snd (runInference (hop_taken g))) as ->.
  { subst g'. rewrite classify_due by assumption. cbn zeta. fold inf.
    unfold gate. rewrite E. cbn [confidence]. reflexivity. }
  rewrite E. cbn [index confidence].
  split; [reflexivity|]. split; [unfold is_label_index; lia|].
  split; [reflexivity|].
  rewrite C, S, T, EI, K. repeat split.
Qed.

(** *** Sampling *)

Lemma sample_frame tk g :
  currentState (sample tk g) = currentState g /\ counts (sample tk g) = counts g /\
  encIndex (sample tk g) = encIndex g /\
  lastStrokeTime (timers (sample tk g)) = lastStrokeTime (timers g) /\
  flashStart (timers (sample tk g)) = flashStart (timers g) /\
  lastDisplay (timers (sample tk g)) = lastDisplay (timers g) /\
  lastIdleAnim (timers (sample tk g)) = lastIdleAnim (timers g).
Proof.
  unfold sample. destruct (_ <=? _); [|repeat split].
  destruct (readIMU_push tk (set_timers (set_lastIMUread (now tk) (timers g)) g))
    as (row & ->).
  repeat split.
Qed.

Lemma loop_buffer tk g :
  imuBuffer (ring (loop tk g)) = imuBuffer (ring (sample tk g)) /\
  bufIndex (ring (loop tk g)) = bufIndex (ring (sample tk g)) /\
  sampleCount (ring (loop tk g)) = sampleCount (ring (sample tk g)).
Proof.
  destruct (decide (currentState g = STATE_OPENING)) as [O|NO].
  - unfold loop. destruct (sample_frame tk g) as (-> & _). rewrite O. repeat split.
  - rewrite loop_ring by assumption. destruct (hop_due _); repeat split.
Qed.

(** C7, as the sketch has it.  On a pass whose sampling interval has
    elapsed while neither the accelerometer nor the gyroscope has a
    reading, [readIMU] still runs to its end: it stores at the write
    cursor a row whose six channels are [0.0], moves the cursor on by
    one slot (wrapping), adds one to [sampleCount] unless the ring is
    full, and adds one to [sampleCounter]; buffer, cursor and
    [sampleCount] are still so at the end of the pass. *)
Theorem unavailable_sensor_stores_zero_row (tk : Tick) (g : Globals) :
  0 < WINDOW_SAMPLES < 2 ^ 16 ->
  0 <= bufIndex (ring g) < WINDOW_SAMPLES ->
  0 <= sampleCount (ring g) <= WINDOW_SAMPLES ->
  accel tk = None -> gyro tk = None ->
  SAMPLE_INTERVAL_MS <= u32 (now tk - lastIMUread (timers g)) ->
  let g' := sample tk g in
  (exists row,
      calls g' = CallReadIMU row :: calls g /\
      (forall j, 0 <= j < 6 -> cell row j = F32.zero) /\
      imuBuffer (ring g') = store (imuBuffer (ring g)) (bufIndex (ring g)) row) /\
  bufIndex (ring g') = wrap (bufIndex (ring g) + 1) /\
  sampleCount (ring g') = Z.min (sampleCount (ring g) + 1) WINDOW_SAMPLES /\
  sampleCounter (ring g') = u16 (sampleCounter (ring g) + 1) /\
  imuBuffer (ring (loop tk g)) = imuBuffer (ring g') /\
  bufIndex (ring (loop tk g)) = bufIndex (ring g') /\
  sampleCount (ring (loop tk g)) = sampleCount (ring g').
Proof.
  intros W B SC NA NG DUE g'.
  assert (g' = readIMU tk (set_timers (set_lastIMUread (now tk) (timers g)) g)) as E.
  { subst g'. unfold sample. apply Z.leb_le in DUE. rewrite DUE. reflexivity. }
  split; [|split; [|split; [|split]]].
  - rewrite E. unfold readIMU. rewrite NA, NG. cbn zeta.
    eexists. split; [reflexivity|]. split; [|reflexivity].
    intros j J. unfold cell, store.
    assert (j = 0 \/ j = 1 \/ j = 2 \/ j = 3 \/ j = 4 \/ j = 5) as C by lia.
    set (r := imuBuffer (ring (set_timers (set_lastIMUread (now tk) (timers g)) g))
                !!! Z.to_nat (bufIndex (ring (set_timers (set_lastIMUread (now tk) (timers g)) g)))).
    clearbody r.
    destruct C as [-> | [-> | [-> | [-> | [-> | ->]]]]]; cbn [Z.to_nat Pos.to_nat Pos.iter_op Init.Nat.add];
      rewrite list_lookup_total_alt;
      repeat (rewrite list_lookup_insert; case_decide);
      try (exfalso; lia); try reflexivity;
      (destruct (_ !! _) eqn:LK; [|reflexivity]);
      apply lookup_lt_Some in LK; rewrite ?length_insert in *; exfalso; lia.
  - rewrite E. destruct (readIMU_push tk (set_timers (set_lastIMUread (now tk) (timers g)) g))
      as (row & ->). cbn. apply rem_wrap; lia.
  - rewrite E. destruct (readIMU_push tk (set_timers (set_lastIMUread (now tk) (timers g)) g))
      as (row & ->). cbn.
    destruct (Z.ltb_spec (sampleCount (ring g)) WINDOW_SAMPLES).
    + rewrite u16_id by (unfold uint16; lia). lia.
    + lia.
  - rewrite E. destruct (readIMU_push tk (set_timers (set_lastIMUread (now tk) (timers g)) g))
      as (row & ->). reflexivity.
  - apply loop_buffer.
Qed.

(** *** Accepted strokes and the presentation state *)

Lemma gate_hop_taken inf g :
  gate inf (snd (runInference (hop_taken g))) = gate inf g.
Proof.
  unfold gate. f_equal. apply accelAboveThreshold_buffer.
  destruct (runInference_frame (hop_taken g)) as (-> & _). reflexivity.
Qed.

(** The accepting branch of the classification block, field by field. *)
Lemma classify_accepted to_flash t g :
  hop_due g = true ->
  gate (fst (runInference (hop_taken g))) g = true ->
  let inf := fst (runInference (hop_taken g)) in
  let g' := classify to_flash t g in
  counts g' = count_stroke (index inf) (counts g) /\
  timers g' = set_flashStart t (timers g) /\
  currentState g' = (if to_flash then STATE_FLASH else currentState g) /\
  ring g' = ring (hop_taken g) /\
  calls g' = CallDrawFlash (index inf)
               (cell (cell encMsgs (index inf))
                     (u8 (Z.rem (cell (encIndex g) (index inf)) (cell encCount (index inf)))))
               :: CallRunInference :: calls g.
Proof.
  intros D G. cbn zeta.
  rewrite classify_due by assumption. cbn zeta.
  rewrite gate_hop_taken, G.
  destruct (runInference_frame (hop_taken g)) as (R & C & T & S & EI & _ & K).
  destruct to_flash;
    cbn [counts timers currentState ring calls drawFlash call set_encIndex set_timers
         set_counts set_currentState];
    rewrite ?R, ?C, ?T, ?S, ?K; repeat split;
    cbn [encIndex set_timers set_counts]; rewrite EI; reflexivity.
Qed.

Lemma gate_index inf g :
  0 < EI_CLASSIFIER_LABEL_COUNT <= 6 -> 0 <= index inf ->
  gate inf g = true -> 0 <= index inf <= 4.
Proof.
  intros L P G. unfold gate in G. rewrite !andb_true_iff, Z.ltb_lt in G.
  destruct G as ((_ & G) & _). unfold IDLE_LABEL_INDEX, u8 in G.
  rewrite Z.mod_small in G by lia. lia.
Qed.

Lemma count_stroke_category idx c :
  0 <= idx <= 4 ->
  category_count idx (count_stroke idx c) = u16 (category_count idx c + 1) /\
  totalStrokes (count_stroke idx c) = u16 (totalStrokes c + 1) /\
  forall other, 0 <= other <= 4 -> other <> idx ->
                category_count other (count_stroke idx c) = category_count other c.
Proof.
  intros R.
  assert (idx = 0 \/ idx = 1 \/ idx = 2 \/ idx = 3 \/ idx = 4) as C by lia.
  destruct C as [-> | [-> | [-> | [-> | ->]]]];
    (split; [reflexivity|split; [reflexivity|]]);
    intros other RO NE;
    assert (other = 0 \/ other = 1 \/ other = 2 \/ other = 3 \/ other = 4) as CO by lia;
    destruct CO as [-> | [-> | [-> | [-> | ->]]]]; try reflexivity; congruence.
Qed.

Lemma runInference_index_nonneg g : 0 <= index (fst (runInference g)).
Proof.
  unfold runInference. cbn zeta.
  destruct (signal_from_buffer _ _) as [signal|]; [destruct (run_classifier signal) as [cl|]|];
    cbn [fst index]; try lia.
  unfold u8. apply Z.mod_pos_bound. lia.
Qed.

(** C9.  A pass of [loop] that starts in [STATE_FLASH] and accepts a
    classification ends in [STATE_FLASH]: [flashStart] is the [now] of
    this pass, so the elapsed flash time is back at 0; [drawFlash] is
    called for the new index with that category's next message; the
    counter of the category and [totalStrokes] are one higher, the
    other categories untouched; and between sampling and the end of
    the pass nothing but [runInference] and [drawFlash] was called, in
    particular not [drawMainScreen], and [lastStrokeTime] is as it
    was, which the way back to [STATE_MAIN] would have stamped. *)
Theorem flash_reentry_restarts_flash (tk : Tick) (g : Globals) :
  0 < EI_CLASSIFIER_LABEL_COUNT <= 6 ->
  currentState g = STATE_FLASH ->
  let g1 := sample tk g in
  hop_due g1 = true ->
  let inf := fst (runInference (hop_taken g1)) in
  gate inf g1 = true ->
  let g' := loop tk g in
  currentState g' = STATE_FLASH /\
  flashStart (timers g') = now tk /\
  u32 (now tk - flashStart (timers g')) = 0 /\
  calls g' = CallDrawFlash (index inf)
               (cell (cell encMsgs (index inf))
                     (u8 (Z.rem (cell (encIndex g) (index inf)) (cell encCount (index inf)))))
               :: CallRunInference :: calls g1 /\
  category_count (index inf) (counts g')
    = u16 (category_count (index inf) (counts g) + 1) /\
  totalStrokes (counts g') = u16 (totalStrokes (counts g) + 1) /\
  (forall other, 0 <= other <= 4 -> other <> index inf ->
                 category_count other (counts g') = category_count other (counts g)) /\
  lastStrokeTime (timers g') = lastStrokeTime (timers g).
Proof.
  intros L F g1 D inf G g'.
  destruct (sample_frame tk g) as (CS & CN & EI & LS & _).
  fold g1 in CS, CN, EI, LS.
  destruct (classify_accepted false (now tk) g1 D G) as (C & T & S & _ & K).
  fold inf in C, K.
  assert (g' = classify false (now tk) g1) as ->.
  { subst g'. unfold loop. fold g1. rewrite CS, F.
    unfold flash_timeout. rewrite T. cbn [flashStart set_flashStart].
    rewrite u32_self. reflexivity. }
  pose proof (gate_index inf g1 L (runInference_index_nonneg _) G) as IX.
  destruct (count_stroke_category (index inf) (counts g) IX) as (CC & CT & CO).
  rewrite C, T, S, K, CN, EI, CS. cbn [flashStart lastStrokeTime set_flashStart].
  rewrite u32_self.
  repeat split; try assumption.
Qed.

Lemma classify_lastStrokeTime to_flash t g :
  lastStrokeTime (timers (classify to_flash t g)) = lastStrokeTime (timers g).
Proof.
  destruct (hop_due g) eqn:D; [|rewrite classify_idle by assumption; reflexivity].
  rewrite classify_due by assumption. cbn zeta.
  destruct (runInference_frame (hop_taken g)) as (_ & _ & T & _).
  destruct (gate _ _); [destruct to_flash|]; cbn; rewrite T; reflexivity.
Qed.

(** Only the way from [STATE_FLASH] back to [STATE_MAIN] writes
    [lastStrokeTime]. *)
Lemma loop_lastStrokeTime tk g :
  lastStrokeTime (timers (loop tk g)) <> lastStrokeTime (timers g) ->
  currentState g = STATE_FLASH /\ currentState (loop tk g) = STATE_MAIN.
Proof.
  destruct (sample_frame tk g) as (CS & _ & _ & LS & _).
  unfold loop. rewrite CS. destruct (currentState g) eqn:E.
  - cbn. rewrite LS. congruence.
  - unfold redraw_main, idle_timeout.
    repeat (destruct (_ <=? _); cbn [timers lastStrokeTime drawMainScreen call set_timers
                                       set_lastDisplay set_lastIdleAnim set_currentState]);
      rewrite classify_lastStrokeTime, LS; congruence.
  - unfold flash_timeout. destruct (_ <=? _).
    + intros _. split; reflexivity.
    + rewrite classify_lastStrokeTime, LS. congruence.
  - rewrite classify_lastStrokeTime. unfold animate_idle.
    destruct (_ <=? _); cbn; rewrite LS; congruence.
Qed.

(** C10.  A pass of [loop] that starts in [STATE_MAIN], accepts a
    classification, and in which [now - lastStrokeTime] has reached
    [IDLE_TIMEOUT_MS] ends in [STATE_IDLE], not in [STATE_FLASH].  The
    accepting branch did its work: the counters are incremented,
    [flashStart] is [now], [drawFlash] was called, and the block left
    the state at [STATE_FLASH]; the idle check that follows in the
    same case then sets [STATE_IDLE], since [lastStrokeTime] is not
    written on acceptance.  No pass writes it except the one that
    leaves [STATE_FLASH] for [STATE_MAIN]. *)
Theorem accepted_at_idle_timeout_ends_idle (tk : Tick) (g : Globals) :
  currentState g = STATE_MAIN ->
  let g1 := sample tk g in
  hop_due g1 = true ->
  let inf := fst (runInference (hop_taken g1)) in
  gate inf g1 = true ->
  IDLE_TIMEOUT_MS <= u32 (now tk - lastStrokeTime (timers g)) ->
  let g' := loop tk g in
  currentState g' = STATE_IDLE /\
  currentState (classify true (now tk) g1) = STATE_FLASH /\
  counts g' = count_stroke (index inf) (counts g) /\
  totalStrokes (counts g') = u16 (totalStrokes (counts g) + 1) /\
  flashStart (timers g') = now tk /\
  lastIdleAnim (timers g') = now tk /\
  lastStrokeTime (timers g') = lastStrokeTime (timers g) /\
  In (CallDrawFlash (index inf)
        (cell (cell encMsgs (index inf))
              (u8 (Z.rem (cell (encIndex g) (index inf)) (cell encCount (index inf))))))
     (calls g') /\
  (forall tk' h, lastStrokeTime (timers (loop tk' h)) <> lastStrokeTime (timers h) ->
                 currentState h = STATE_FLASH /\ currentState (loop tk' h) = STATE_MAIN).
Proof.
  intros M g1 D inf G TO g'.
  destruct (sample_frame tk g) as (CS & CN & EI & LS & _).
  fold g1 in CS, CN, EI, LS.
  destruct (classify_accepted true (now tk) g1 D G) as (C & T & S & _ & K).
  fold inf in C, K.
  assert (g' = redraw_main (now tk)
                 (set_timers (set_lastIdleAnim (now tk) (timers (classify true (now tk) g1)))
                    (set_currentState STATE_IDLE (classify true (now tk) g1)))) as ->.
  { subst g'. unfold loop. fold g1. rewrite CS, M. f_equal.
    unfold idle_timeout. rewrite T. cbn [lastStrokeTime set_flashStart].
    rewrite LS. apply Z.leb_le in TO. rewrite TO. reflexivity. }
  split; [unfold redraw_main; destruct (_ <=? _); reflexivity|].
  split; [exact S|].
  assert (forall x : Globals,
             counts (redraw_main (now tk) x) = counts x /\
             flashStart (timers (redraw_main (now tk) x)) = flashStart (timers x) /\
             lastIdleAnim (timers (redraw_main (now tk) x)) = lastIdleAnim (timers x) /\
             lastStrokeTime (timers (redraw_main (now tk) x)) = lastStrokeTime (timers x) /\
             forall c, In c (calls x) -> In c (calls (redraw_main (now tk) x))) as RM.
  { intros x. unfold redraw_main. destruct (_ <=? _); cbn; repeat split; auto. }
  match goal with |- context [redraw_main (now tk) ?x] =>
    destruct (RM x) as (R1 & R2 & R3 & R4 & R5) end.
  split; [rewrite R1; cbn [counts set_timers set_currentState]; rewrite C, CN; reflexivity|].
  split; [rewrite R1; cbn [counts set_timers set_currentState]; rewrite C, CN;
          apply count_stroke_total|].
  split; [rewrite R2; cbn [timers set_timers flashStart set_lastIdleAnim]; rewrite T;
          reflexivity|].
  split; [rewrite R3; reflexivity|].
  split; [rewrite R4; cbn [timers set_timers lastStrokeTime set_lastIdleAnim]; rewrite T;
          exact LS|].
  split; [|exact loop_lastStrokeTime].
  apply R5. cbn [calls set_timers set_currentState]. rewrite K, EI. left. reflexivity.
Qed.

(** *** A quiet warm-up *)

Lemma readIMU_sample_row tk g :
  readIMU tk g =
    call (CallReadIMU (sample_row tk (cell (imuBuffer (ring g)) (bufIndex (ring g)))))
      (set_ring
         {| imuBuffer := store (imuBuffer (ring g)) (bufIndex (ring g))
                           (sample_row tk (cell (imuBuffer (ring g)) (bufIndex (ring g))));
            bufIndex := u16 (Z.rem (bufIndex (ring g) + 1) WINDOW_SAMPLES);
            sampleCount :=
              if sampleCount (ring g) <? WINDOW_SAMPLES
              then u16 (sampleCount (ring g) + 1) else sampleCount (ring g);
            sampleCounter := u16 (sampleCounter (ring g) + 1) |} g).
Proof.
  unfold readIMU, sample_row.
  destruct (accel tk) as [[[ax ay] az]|], (gyro tk) as [[[gx gy] gz]|]; reflexivity.
Qed.

Lemma sample_row_quiet tk old :
  (3 <= length old)%nat -> below_threshold tk ->
  (3 <= length (sample_row tk old))%nat /\
  F32.gt (sq_magnitude (sample_row tk old)) accel_thr2 = false.
Proof.
  unfold below_threshold, sample_row. intros L.
  destruct (accel tk) as [[[ax ay] az]|], (gyro tk) as [[[gx gy] gz]|];
    (destruct old as [|o0 [|o1 [|o2 old]]]; cbn [length] in L; try lia);
    intros Q; (split; [rewrite !length_store; exact L|]);
    (destruct old as [|o3 [|o4 [|o5 old]]]; exact Q).
Qed.

Lemma quiet_buffer_rejects g :
  Z.of_nat (length (imuBuffer (ring g))) = WINDOW_SAMPLES ->
  Forall (fun r : BufferRow =>
            (3 <= length r)%nat /\ F32.gt (sq_magnitude r) accel_thr2 = false)
         (imuBuffer (ring g)) ->
  accelAboveThreshold g = false.
Proof.
  intros L Q. apply not_true_is_false. intros T.
  unfold accelAboveThreshold in T. cbn zeta in T. apply accel_scan_true in T.
  destruct T as (k & R & K).
  rewrite Forall_lookup in Q.
  destruct (lookup_lt_is_Some_2 (imuBuffer (ring g)) (Z.to_nat k) ltac:(lia)) as (r & Lk).
  unfold cell in K. rewrite (list_lookup_total_correct _ _ _ Lk) in K.
  destruct (Q _ _ Lk) as (_ & QK). congruence.
Qed.

Lemma classify_rejected to_flash t g :
  hop_due g = true -> accelAboveThreshold g = false ->
  classify to_flash t g = snd (runInference (hop_taken g)).
Proof.
  intros D A. rewrite classify_due by assumption. cbn zeta.
  rewrite gate_hop_taken. unfold gate. rewrite A, andb_false_r. reflexivity.
Qed.

Lemma quiet_inv_same c0 t0 g g' :
  currentState g' = currentState g -> counts g' = counts g ->
  lastStrokeTime (timers g') = lastStrokeTime (timers g) ->
  ring g' = ring g -> stored_rows (calls g') = stored_rows (calls g) ->
  inferences (calls g') = inferences (calls g) ->
  quiet_inv c0 t0 g -> quiet_inv c0 t0 g'.
Proof.
  intros S C T R SR I. unfold quiet_inv. rewrite S, C, T, R, SR, I. tauto.
Qed.

Lemma quiet_inv_loop c0 t0 tk g :
  0 < WINDOW_SAMPLES < 2 ^ 16 -> WINDOW_SAMPLES < 2 * HOP_SAMPLES ->
  below_threshold tk -> u32 (now tk - t0) < IDLE_TIMEOUT_MS ->
  quiet_inv c0 t0 g -> quiet_inv c0 t0 (loop tk g).
Proof.
  intros W ODD BT TM (ST & C & T & L & B & Q & SC & SK & IP & I0 & IF).
  pose proof (HOP_SAMPLES_pos ltac:(lia)) as HP.
  set (n := Z.of_nat (length (stored_rows (calls g)))) in *.
  (* the state at the switch *)
  assert (exists g1, sample tk g = g1 /\
            currentState g1 = STATE_MAIN /\ counts g1 = c0 /\
            lastStrokeTime (timers g1) = t0 /\
            Z.of_nat (length (imuBuffer (ring g1))) = WINDOW_SAMPLES /\
            0 <= bufIndex (ring g1) < WINDOW_SAMPLES /\
            Forall (fun r : BufferRow =>
                      (3 <= length r)%nat /\ F32.gt (sq_magnitude r) accel_thr2 = false)
                   (imuBuffer (ring g1)) /\
            let n1 := Z.of_nat (length (stored_rows (calls g1))) in
            sampleCount (ring g1) = Z.min n1 WINDOW_SAMPLES /\
            sampleCounter (ring g1) = n1 - HOP_SAMPLES * inferences (calls g1) /\
            0 <= inferences (calls g1) /\
            (n1 < WINDOW_SAMPLES -> inferences (calls g1) = 0) /\
            (WINDOW_SAMPLES <= n1 -> 0 <= sampleCounter (ring g1) < 2 * HOP_SAMPLES))
    as (g1 & E1 & S1 & C1 & T1 & L1 & B1 & Q1 & SC1 & SK1 & IP1 & I01 & IF1).
  { eexists. split; [reflexivity|]. unfold sample. destruct (_ <=? _).
    - rewrite readIMU_sample_row.
      cbn [currentState counts timers ring calls call set_ring set_timers imuBuffer bufIndex
           sampleCount sampleCounter stored_rows inferences length lastStrokeTime
           set_lastIMUread].
      rewrite length_store, rem_wrap by lia. fold n.
      split; [exact ST|]. split; [exact C|]. split; [exact T|]. split; [exact L|].
      split; [unfold wrap; destruct (Z.ltb_spec (bufIndex (ring g) + 1) WINDOW_SAMPLES); lia|].
      split.
      { unfold store. apply Forall_insert; [exact Q|].
        apply sample_row_quiet; [|exact BT].
        rewrite Forall_lookup in Q.
        destruct (lookup_lt_is_Some_2 (imuBuffer (ring g)) (Z.to_nat (bufIndex (ring g)))
                    ltac:(lia)) as (r & Lk).
        unfold cell. rewrite (list_lookup_total_correct _ _ _ Lk).
        apply (Q _ _ Lk). }
      cbn zeta.
      replace (Z.of_nat (S (length (stored_rows (calls g))))) with (n + 1) by lia.
      destruct (Z.ltb_spec (sampleCount (ring g)) WINDOW_SAMPLES) as [LT|GE].
      + rewrite !u16_id by (unfold uint16; lia). repeat split; try lia.
      + rewrite !u16_id by (unfold uint16; lia). repeat split; try lia.
    - cbn zeta. fold n. repeat split; try assumption; try lia. }
  assert (accelAboveThreshold g1 = false) as A1 by (apply quiet_buffer_rejects; assumption).
  cbn zeta in SC1, SK1, I01, IF1.
  set (n1 := Z.of_nat (length (stored_rows (calls g1)))) in *.
  (* the classification block *)
  assert (quiet_inv c0 t0 (classify true (now tk) g1)) as QC.
  { destruct (hop_due g1) eqn:D.
    - rewrite classify_rejected by assumption.
      destruct (runInference_frame (hop_taken g1)) as (R & CN & TI & SR & _ & _ & K).
      unfold hop_due in D. rewrite andb_true_iff, !Z.leb_le in D. destruct D as (D1 & D2).
      unfold quiet_inv. rewrite R, CN, TI, SR, K.
      cbn [ring counts timers currentState calls hop_taken set_ring set_sampleCounter
           imuBuffer bufIndex sampleCount sampleCounter stored_rows inferences].
      fold n1. rewrite u16_id by (unfold uint16; lia).
      repeat split; try assumption; try lia.
    - rewrite classify_idle by assumption.
      unfold hop_due in D. rewrite andb_false_iff, !Z.leb_gt in D.
      unfold quiet_inv. fold n1. repeat split; try assumption; try lia. }
  (* the two timers of STATE_MAIN *)
  unfold loop. rewrite E1, S1.
  destruct QC as (S2 & C2 & T2 & REST).
  assert (idle_timeout (now tk) (classify true (now tk) g1) = classify true (now tk) g1) as ->.
  { unfold idle_timeout. rewrite T2.
    destruct (Z.leb_spec IDLE_TIMEOUT_MS (u32 (now tk - t0))); [lia|reflexivity]. }
  unfold redraw_main. destruct (_ <=? _).
  - eapply quiet_inv_same; [| | | | | |exact (conj S2 (conj C2 (conj T2 REST)))]; reflexivity.
  - exact (conj S2 (conj C2 (conj T2 REST))).
Qed.

Lemma quiet_inv_run c0 t0 tks g :
  0 < WINDOW_SAMPLES < 2 ^ 16 -> WINDOW_SAMPLES < 2 * HOP_SAMPLES ->
  Forall below_threshold tks ->
  Forall (fun tk => u32 (now tk - t0) < IDLE_TIMEOUT_MS) tks ->
  quiet_inv c0 t0 g -> quiet_inv c0 t0 (run tks g).
Proof.
  intros W ODD. revert g. induction tks as [|tk tks IH]; intros g BT TM Q; [exact Q|].
  inversion BT; subst. inversion TM; subst.
  cbn. apply IH; try assumption. apply quiet_inv_loop; assumption.
Qed.

Lemma quiet_inv_setup t1 t2 t3 t4 g0 :
  3 <= AXIS_COUNT -> 0 < WINDOW_SAMPLES ->
  setup true true t1 t2 t3 t4 = Some g0 ->
  quiet_inv (counts power_on) t4 g0.
Proof.
  intros A W [= <-]. unfold quiet_inv. cbn.
  rewrite length_replicate.
  pose proof (HOP_SAMPLES_pos W).
  repeat split; try lia.
  apply Forall_replicate. rewrite length_replicate. split; [lia|].
  unfold sq_magnitude, cell.
  rewrite !lookup_total_replicate_2 by lia. reflexivity.
Qed.

(** ** Further properties of the sketch *)

(** Whether the classification block, run on [g], counts a stroke. *)
Definition accepts (g : Globals) : bool :=
  hop_due g && gate (fst (runInference (hop_taken g))) g.

(** *** The presentation state machine *)

(** The answer of [runInference] depends on the ring and the frame and
    on nothing else of the state. *)
Lemma runInference_answer_ext g h :
  ring g = ring h -> sig g = sig h -> fst (runInference g) = fst (runInference h).
Proof.
  intros R S. unfold runInference. cbn zeta. cbn [sig call set_sig]. rewrite R, S.
  destruct (signal_from_buffer _ _) as [signal|]; [destruct (run_classifier signal)|];
    reflexivity.
Qed.

Lemma accepts_ext g h : ring g = ring h -> sig g = sig h -> accepts g = accepts h.
Proof.
  intros R S. unfold accepts.
  rewrite (hop_due_ring h g) by exact R.
  assert (fst (runInference (hop_taken g)) = fst (runInference (hop_taken h))) as ->.
  { apply runInference_answer_ext; unfold hop_taken; cbn; rewrite ?R, ?S; reflexivity. }
  unfold gate. rewrite (accelAboveThreshold_buffer h g) by (rewrite R; reflexivity).
  reflexivity.
Qed.

Lemma classify_state to_flash t g :
  currentState (classify to_flash t g) =
    if accepts g && to_flash then STATE_FLASH else currentState g.
Proof.
  unfold accepts. destruct (hop_due g) eqn:D.
  - rewrite classify_due by assumption. cbn zeta. rewrite gate_hop_taken.
    destruct (runInference_frame (hop_taken g)) as (_ & _ & _ & S & _).
    destruct (gate _ g); [destruct to_flash|]; cbn; first [reflexivity | exact S].
  - rewrite classify_idle by assumption. reflexivity.
Qed.

Lemma classify_timers to_flash t g :
  timers (classify to_flash t g) =
    if accepts g then set_flashStart t (timers g) else timers g.
Proof.
  unfold accepts. destruct (hop_due g) eqn:D.
  - rewrite classify_due by assumption. cbn zeta. rewrite gate_hop_taken.
    destruct (runInference_frame (hop_taken g)) as (_ & _ & T & _).
    destruct (gate _ g); [destruct to_flash|]; cbn; rewrite T; reflexivity.
  - rewrite classify_idle by assumption. reflexivity.
Qed.

Lemma classify_counts to_flash t g :
  counts (classify to_flash t g) =
    if accepts g then count_stroke (index (fst (runInference (hop_taken g)))) (counts g)
    else counts g.
Proof.
  unfold accepts. destruct (hop_due g) eqn:D.
  - rewrite classify_due by assumption. cbn zeta. rewrite gate_hop_taken.
    destruct (runInference_frame (hop_taken g)) as (_ & C & _).
    destruct (gate _ g); [destruct to_flash|]; cbn; rewrite C; reflexivity.
  - rewrite classify_idle by assumption. reflexivity.
Qed.

Lemma animate_idle_frame tk g :
  ring (animate_idle tk g) = ring g /\ sig (animate_idle tk g) = sig g /\
  counts (animate_idle tk g) = counts g /\
  currentState (animate_idle tk g) = currentState g /\
  encIndex (animate_idle tk g) = encIndex g.
Proof. unfold animate_idle. destruct (_ <=? _); repeat split. Qed.

(** Where one pass of [loop] leaves [currentState]. *)
Lemma loop_state_table (tk : Tick) (g : Globals) :
  currentState (loop tk g) =
    match currentState g with
    | STATE_OPENING => STATE_MAIN
    | STATE_MAIN =>
        if IDLE_TIMEOUT_MS <=? u32 (now tk - lastStrokeTime (timers g)) then STATE_IDLE
        else if accepts (sample tk g) then STATE_FLASH else STATE_MAIN
    | STATE_FLASH =>
        if accepts (sample tk g) then STATE_FLASH
        else if FLASH_DURATION_MS <=? u32 (now tk - flashStart (timers g)) then STATE_MAIN
        else STATE_FLASH
    | STATE_IDLE => if accepts (sample tk g) then STATE_FLASH else STATE_IDLE
    end.
Proof.
  destruct (sample_frame tk g) as (CS & _ & _ & LS & FS & _).
  unfold loop. rewrite CS. destruct (currentState g) eqn:E.
  - reflexivity.
  - assert (currentState (redraw_main (now tk)
               (idle_timeout (now tk) (classify true (now tk) (sample tk g))))
            = currentState (idle_timeout (now tk) (classify true (now tk) (sample tk g))))
      as -> by (unfold redraw_main; destruct (_ <=? _); reflexivity).
    unfold idle_timeout.
    rewrite classify_timers.
    assert (lastStrokeTime (if accepts (sample tk g)
                            then set_flashStart (now tk) (timers (sample tk g))
                            else timers (sample tk g))
            = lastStrokeTime (timers g)) as ->
      by (destruct (accepts _); cbn; exact LS).
    destruct (_ <=? _); [reflexivity|].
    rewrite classify_state, CS. destruct (accepts _); reflexivity.
  - unfold flash_timeout. rewrite classify_timers.
    destruct (accepts (sample tk g)) eqn:A.
    + cbn [flashStart set_flashStart]. rewrite u32_self.
      change (FLASH_DURATION_MS <=? 0) with false. cbn iota.
      rewrite classify_state, A, CS. reflexivity.
    + rewrite FS. destruct (_ <=? _); [reflexivity|].
      rewrite classify_state, A, CS. reflexivity.
  - destruct (animate_idle_frame tk (sample tk g)) as (R & S & _ & ST & _).
    rewrite classify_state, (accepts_ext _ _ R S), ST, CS.
    destruct (accepts _); reflexivity.
Qed.

(** X1.  The transition table of one pass of [loop].  From
    [STATE_OPENING] the pass goes to [STATE_MAIN].  From [STATE_MAIN] it
    ends in [STATE_IDLE] when [now - lastStrokeTime] has reached
    [IDLE_TIMEOUT_MS], else in [STATE_FLASH] when a stroke was accepted,
    else in [STATE_MAIN].  From [STATE_FLASH] it stays in [STATE_FLASH]
    when a stroke was accepted, else goes to [STATE_MAIN] when
    [now - flashStart] has reached [FLASH_DURATION_MS], else stays.
    From [STATE_IDLE] it goes to [STATE_FLASH] when a stroke was
    accepted and stays otherwise: [STATE_IDLE] is never left for
    [STATE_MAIN], nor [STATE_FLASH] for [STATE_IDLE]. *)
Theorem loop_next_state (tk : Tick) (g : Globals) :
  currentState (loop tk g) =
    match currentState g with
    | STATE_OPENING => STATE_MAIN
    | STATE_MAIN =>
        if IDLE_TIMEOUT_MS <=? u32 (now tk - lastStrokeTime (timers g)) then STATE_IDLE
        else if accepts (sample tk g) then STATE_FLASH else STATE_MAIN
    | STATE_FLASH =>
        if accepts (sample tk g) then STATE_FLASH
        else if FLASH_DURATION_MS <=? u32 (now tk - flashStart (timers g)) then STATE_MAIN
        else STATE_FLASH
    | STATE_IDLE => if accepts (sample tk g) then STATE_FLASH else STATE_IDLE
    end.
Proof.
  destruct (sample_frame tk g) as (CS & _ & _ & LS & FS & _).
  unfold loop. rewrite CS. destruct (currentState g) eqn:E.
  - reflexivity.
  - assert (currentState (redraw_main (now tk)
               (idle_timeout (now tk) (classify true (now tk) (sample tk g))))
            = currentState (idle_timeout (now tk) (classify true (now tk) (sample tk g))))
      as -> by (unfold redraw_main; destruct (_ <=? _); reflexivity).
    unfold idle_timeout.
    rewrite classify_timers.
    assert (lastStrokeTime (if accepts (sample tk g)
                            then set_flashStart (now tk) (timers (sample tk g))
                            else timers (sample tk g))
            = lastStrokeTime (timers g)) as ->
      by (destruct (accepts _); cbn; exact LS).
    destruct (_ <=? _); [reflexivity|].
    rewrite classify_state, CS. destruct (accepts _); reflexivity.
  - unfold flash_timeout. rewrite classify_timers.
    destruct (accepts (sample tk g)) eqn:A.
    + cbn [flashStart set_flashStart]. rewrite u32_self.
      change (FLASH_DURATION_MS <=? 0) with false. cbn iota.
      rewrite classify_state, A, CS. reflexivity.
    + rewrite FS. destruct (_ <=? _); [reflexivity|].
      rewrite classify_state, A, CS. reflexivity.
  - destruct (animate_idle_frame tk (sample tk g)) as (R & S & _ & ST & _).
    rewrite classify_state, (accepts_ext _ _ R S), ST, CS.
    destruct (accepts _); reflexivity.
Qed.

(** Passes that follow within [IDLE_TIMEOUT_MS] of the time [base], the
    clock not running backwards: each pass reads a time that is, on
    the [uint32_t] clock, at least [d] and less than [IDLE_TIMEOUT_MS]
    after [base], and no earlier than the pass before it. *)
Fixpoint before_idle_timeout (base d : Z) (tks : list Tick) : Prop :=
  match tks with
  | [] => True
  | tk :: tks =>
      d <= u32 (now tk - base) < IDLE_TIMEOUT_MS /\
      before_idle_timeout base (u32 (now tk - base)) tks
  end.

Lemma u32_between base l a :
  u32 (l - base) <= u32 (a - base) -> u32 (a - l) = u32 (a - base) - u32 (l - base).
Proof.
  unfold u32. intros LE.
  replace (a - l) with ((a - base) - (l - base)) by lia.
  rewrite Zminus_mod.
  pose proof (Z.mod_pos_bound (a - base) (2 ^ 32) ltac:(lia)).
  pose proof (Z.mod_pos_bound (l - base) (2 ^ 32) ltac:(lia)).
  apply Z.mod_small. lia.
Qed.

(** [lastStrokeTime] is left alone by a pass, or stamped with its [now]. *)
Lemma loop_lastStrokeTime_now tk g :
  lastStrokeTime (timers (loop tk g)) = lastStrokeTime (timers g) \/
  lastStrokeTime (timers (loop tk g)) = now tk.
Proof.
  destruct (sample_frame tk g) as (CS & _ & _ & LS & _).
  unfold loop. rewrite CS. destruct (currentState g) eqn:E.
  - left. cbn. exact LS.
  - left. unfold redraw_main, idle_timeout.
    repeat (destruct (_ <=? _); cbn [timers lastStrokeTime drawMainScreen call set_timers
                                       set_lastDisplay set_lastIdleAnim set_currentState]);
      rewrite classify_lastStrokeTime, LS; reflexivity.
  - unfold flash_timeout. destruct (_ <=? _).
    + right. reflexivity.
    + left. rewrite classify_lastStrokeTime, LS. reflexivity.
  - left. rewrite classify_lastStrokeTime. unfold animate_idle.
    destruct (_ <=? _); cbn; rewrite LS; reflexivity.
Qed.

(** While the clock stays within [IDLE_TIMEOUT_MS] of a stamp of
    [lastStrokeTime] and does not run backwards, no pass ends in
    [STATE_IDLE]. *)
Lemma no_idle_before_timeout base tks :
  forall d g,
    currentState g <> STATE_IDLE ->
    u32 (lastStrokeTime (timers g) - base) <= d ->
    before_idle_timeout base d tks ->
    currentState (run tks g) <> STATE_IDLE.
Proof.
  induction tks as [|tk tks IH]; intros d g NI LS B; [exact NI|].
  destruct B as ((LO & HI) & B). cbn [run fold_left].
  apply (IH (u32 (now tk - base))); [| |exact B].
  - rewrite loop_state_table. destruct (currentState g) eqn:E.
    + discriminate.
    + rewrite (u32_between base) by lia.
      pose proof (Z.mod_pos_bound (lastStrokeTime (timers g) - base) (2 ^ 32) ltac:(lia)) as P.
      fold (u32 (lastStrokeTime (timers g) - base)) in P.
      destruct (Z.leb_spec IDLE_TIMEOUT_MS
                  (u32 (now tk - base) - u32 (lastStrokeTime (timers g) - base))); [lia|].
      destruct (accepts _); discriminate.
    + destruct (accepts _); [discriminate|]. destruct (_ <=? _); discriminate.
    + congruence.
  - destruct (loop_lastStrokeTime_now tk g) as [-> | ->]; lia.
Qed.

(** X2.  A pass that starts in [STATE_FLASH], accepts nothing and finds
    [now - flashStart] at [FLASH_DURATION_MS] or more goes back to
    [STATE_MAIN]: it leaves the counters alone, draws the main screen
    with them as its last call, and stamps both [lastDisplay] and
    [lastStrokeTime] with [now].  So the idle timeout is counted from the
    end of the flash: however many passes follow, as long as the clock
    does not run backwards and stays within [IDLE_TIMEOUT_MS] of that
    [now], none of them ends in [STATE_IDLE]. *)
Theorem flash_expiry_restarts_idle_timer (tk : Tick) (g : Globals) :
  currentState g = STATE_FLASH ->
  accepts (sample tk g) = false ->
  FLASH_DURATION_MS <= u32 (now tk - flashStart (timers g)) ->
  let g' := loop tk g in
  currentState g' = STATE_MAIN /\
  counts g' = counts g /\
  lastStrokeTime (timers g') = now tk /\
  lastDisplay (timers g') = now tk /\
  calls g' = CallDrawMainScreen (counts g) :: calls (classify false (now tk) (sample tk g)) /\
  (forall tks, before_idle_timeout (now tk) 0 tks ->
               currentState (run tks g') <> STATE_IDLE).
Proof.
  intros F A E g'.
  destruct (sample_frame tk g) as (CS & CN & _ & _ & FS & _).
  assert (g' = flash_timeout (now tk) (classify false (now tk) (sample tk g))) as EQ.
  { subst g'. unfold loop. rewrite CS, F. reflexivity. }
  assert (flashStart (timers (classify false (now tk) (sample tk g)))
          = flashStart (timers g)) as FC by (rewrite classify_timers, A; exact FS).
  assert (counts (classify false (now tk) (sample tk g)) = counts g) as CC
      by (rewrite classify_counts, A; exact CN).
  assert (g' = set_currentState STATE_MAIN
                 (drawMainScreen
                    (set_timers
                       (set_lastStrokeTime (now tk)
                          (set_lastDisplay (now tk)
                             (timers (classify false (now tk) (sample tk g)))))
                       (classify false (now tk) (sample tk g))))) as EQ2.
  { rewrite EQ. unfold flash_timeout. rewrite FC.
    apply Z.leb_le in E. rewrite E. reflexivity. }
  assert (currentState g' = STATE_MAIN /\ lastStrokeTime (timers g') = now tk) as (S' & L').
  { rewrite EQ2. split; reflexivity. }
  split; [exact S'|]. split; [rewrite EQ2; cbn; exact CC|].
  split; [exact L'|]. split; [rewrite EQ2; reflexivity|].
  split; [rewrite EQ2; cbn; rewrite CC; reflexivity|].
  intros tks B. apply (no_idle_before_timeout (now tk) tks 0); [| |exact B].
  - rewrite S'. discriminate.
  - rewrite L', u32_self. lia.
Qed.

(** *** Ring bookkeeping and hop cadence over whole executions *)

(** What every pass keeps true of the three ring counters, with [n] the
    number of rows stored so far. *)
Definition cadence_inv (g : Globals) : Prop :=
  let n := Z.of_nat (length (stored_rows (calls g))) in
  currentState g <> STATE_OPENING /\
  bufIndex (ring g) = n mod WINDOW_SAMPLES /\
  sampleCount (ring g) = Z.min n WINDOW_SAMPLES /\
  sampleCounter (ring g) = n - HOP_SAMPLES * inferences (calls g) /\
  0 <= inferences (calls g) /\
  (n < WINDOW_SAMPLES -> inferences (calls g) = 0) /\
  (WINDOW_SAMPLES <= n -> 0 <= sampleCounter (ring g) <= WINDOW_SAMPLES - HOP_SAMPLES).

Lemma HOP_SAMPLES_half : 0 < WINDOW_SAMPLES -> WINDOW_SAMPLES <= 2 * HOP_SAMPLES <= WINDOW_SAMPLES + 1.
Proof.
  intros P. unfold HOP_SAMPLES. rewrite Z.quot_div_nonneg by lia.
  pose proof (Z.div_mod (WINDOW_SAMPLES + 1) 2 ltac:(lia)).
  pose proof (Z.mod_pos_bound (WINDOW_SAMPLES + 1) 2 ltac:(lia)). lia.
Qed.

Lemma classify_stored_rows to_flash t g :
  stored_rows (calls (classify to_flash t g)) = stored_rows (calls g).
Proof.
  destruct (hop_due g) eqn:D; [|rewrite classify_idle by assumption; reflexivity].
  rewrite classify_due by assumption. cbn zeta.
  destruct (runInference_frame (hop_taken g)) as (_ & _ & _ & _ & _ & _ & K).
  destruct (gate _ _); [destruct to_flash|]; cbn; rewrite K; reflexivity.
Qed.

Lemma loop_stored_rows tk g :
  stored_rows (calls (loop tk g)) = stored_rows (calls (sample tk g)).
Proof.
  unfold loop. destruct (currentState (sample tk g)).
  - reflexivity.
  - unfold redraw_main, idle_timeout.
    repeat (destruct (_ <=? _);
            cbn [calls stored_rows drawMainScreen call set_timers set_currentState]);
      apply classify_stored_rows.
  - unfold flash_timeout.
    destruct (_ <=? _);
      cbn [calls stored_rows drawMainScreen call set_timers set_currentState];
      apply classify_stored_rows.
  - rewrite classify_stored_rows. unfold animate_idle.
    destruct (_ <=? _); reflexivity.
Qed.

Lemma loop_not_opening tk g : currentState (loop tk g) <> STATE_OPENING.
Proof.
  rewrite loop_state_table.
  destruct (currentState g); repeat (destruct (_ <=? _)); repeat (destruct (accepts _));
    intros X; inversion X.
Qed.

Lemma cadence_inv_loop tk g :
  0 < WINDOW_SAMPLES < 2 ^ 16 -> cadence_inv g -> cadence_inv (loop tk g).
Proof.
  intros W (NO & B & SC & SK & IP & I0 & IF).
  pose proof (HOP_SAMPLES_pos ltac:(lia)) as HP.
  pose proof (HOP_SAMPLES_half ltac:(lia)) as HH.
  set (n := Z.of_nat (length (stored_rows (calls g)))) in *.
  pose proof (Z.mod_pos_bound n WINDOW_SAMPLES ltac:(lia)) as BR.
  assert (let g1 := sample tk g in
          let n1 := Z.of_nat (length (stored_rows (calls g1))) in
          bufIndex (ring g1) = n1 mod WINDOW_SAMPLES /\
          sampleCount (ring g1) = Z.min n1 WINDOW_SAMPLES /\
          sampleCounter (ring g1) = n1 - HOP_SAMPLES * inferences (calls g1) /\
          0 <= inferences (calls g1) /\
          (n1 < WINDOW_SAMPLES -> inferences (calls g1) = 0) /\
          (WINDOW_SAMPLES <= n1 -> 0 <= sampleCounter (ring g1) <= WINDOW_SAMPLES) /\
          (WINDOW_SAMPLES <= n1 -> sampleCounter (ring g1) < HOP_SAMPLES ->
           sampleCounter (ring g1) <= WINDOW_SAMPLES - HOP_SAMPLES))
    as (B1 & SC1 & SK1 & IP1 & I01 & IF1 & IG1).
  { cbn zeta. unfold sample. destruct (_ <=? _).
    - rewrite readIMU_sample_row.
      cbn [ring calls call set_ring set_timers bufIndex sampleCount sampleCounter
           stored_rows inferences length].
      replace (Z.of_nat (S (length (stored_rows (calls g))))) with (n + 1) by lia.
      split.
      { rewrite Z.rem_mod_nonneg by lia. rewrite B, Z.add_mod_idemp_l by lia.
        apply u16_id. pose proof (Z.mod_pos_bound (n + 1) WINDOW_SAMPLES ltac:(lia)).
        unfold uint16. lia. }
      destruct (Z.ltb_spec (sampleCount (ring g)) WINDOW_SAMPLES);
        rewrite !u16_id by (unfold uint16; lia); repeat split; lia.
    - fold n. repeat split; lia. }
  cbn zeta in B1, SC1, SK1, IP1, I01, IF1, IG1.
  unfold cadence_inv. cbn zeta.
  rewrite loop_stored_rows, loop_ring, loop_inferences by assumption.
  set (n1 := Z.of_nat (length (stored_rows (calls (sample tk g))))) in *.
  split; [apply loop_not_opening|].
  destruct (hop_due (sample tk g)) eqn:D.
  - unfold hop_due in D. rewrite andb_true_iff, !Z.leb_le in D. destruct D as (D1 & D2).
    cbn [ring hop_taken set_ring set_sampleCounter bufIndex sampleCount sampleCounter].
    rewrite u16_id by (unfold uint16; lia).
    repeat split; try assumption; lia.
  - unfold hop_due in D. rewrite andb_false_iff, !Z.leb_gt in D.
    repeat split; try assumption; lia.
Qed.

Lemma cadence_inv_run tks g :
  0 < WINDOW_SAMPLES < 2 ^ 16 -> cadence_inv g -> cadence_inv (run tks g).
Proof.
  intros W. revert g. induction tks as [|tk tks IH]; intros g I; [exact I|].
  cbn. apply IH. apply cadence_inv_loop; assumption.
Qed.

Lemma cadence_inv_setup imu_ok display_ok t1 t2 t3 t4 g0 :
  0 < WINDOW_SAMPLES ->
  setup imu_ok display_ok t1 t2 t3 t4 = Some g0 -> cadence_inv g0.
Proof.
  intros W. unfold setup. destruct imu_ok, display_ok; cbn; try discriminate.
  intros [= <-]. pose proof (HOP_SAMPLES_pos W). unfold cadence_inv. cbn.
  rewrite Z.mod_0_l by lia. repeat split; try lia. intros X; inversion X.
Qed.

(** X3.  In every execution the write cursor is the number of rows
    stored so far modulo [WINDOW_SAMPLES], and [sampleCount] is that
    number capped at [WINDOW_SAMPLES]: it counts up to the first
    complete fill and then stays. *)
Theorem cursor_and_fill_follow_stored_rows
    (imu_ok display_ok : bool) (t1 t2 t3 t4 : Z) (g0 : Globals) (tks : list Tick) :
  0 < WINDOW_SAMPLES < 2 ^ 16 ->
  setup imu_ok display_ok t1 t2 t3 t4 = Some g0 ->
  let g := run tks g0 in
  let n := Z.of_nat (length (stored_rows (calls g))) in
  bufIndex (ring g) = n mod WINDOW_SAMPLES /\
  sampleCount (ring g) = Z.min n WINDOW_SAMPLES.
Proof.
  intros W S.
  destruct (cadence_inv_run tks g0 W (cadence_inv_setup _ _ _ _ _ _ _ ltac:(lia) S))
    as (_ & B & SC & _).
  split; assumption.
Qed.

(** X4.  The cadence of classifications over an execution, with [n] the
    number of rows stored so far: none while [n < WINDOW_SAMPLES]; from
    then on [sampleCounter] is what is left of [n] after [HOP_SAMPLES]
    per classification, and between passes it is at most
    [WINDOW_SAMPLES - HOP_SAMPLES].  For a window of odd length that
    makes the number of classifications exactly [n / HOP_SAMPLES]. *)
Theorem classifications_follow_hop
    (imu_ok display_ok : bool) (t1 t2 t3 t4 : Z) (g0 : Globals) (tks : list Tick) :
  0 < WINDOW_SAMPLES < 2 ^ 16 ->
  setup imu_ok display_ok t1 t2 t3 t4 = Some g0 ->
  let g := run tks g0 in
  let n := Z.of_nat (length (stored_rows (calls g))) in
  (n < WINDOW_SAMPLES -> inferences (calls g) = 0 /\ sampleCounter (ring g) = n) /\
  (WINDOW_SAMPLES <= n ->
     sampleCounter (ring g) = n - HOP_SAMPLES * inferences (calls g) /\
     0 <= sampleCounter (ring g) <= WINDOW_SAMPLES - HOP_SAMPLES /\
     (WINDOW_SAMPLES < 2 * HOP_SAMPLES -> inferences (calls g) = n / HOP_SAMPLES)).
Proof.
  intros W S.
  destruct (cadence_inv_run tks g0 W (cadence_inv_setup _ _ _ _ _ _ _ ltac:(lia) S))
    as (_ & _ & _ & SK & IP & I0 & IF).
  cbn zeta in *.
  pose proof (HOP_SAMPLES_pos ltac:(lia)) as HP.
  split.
  - intros LT. specialize (I0 LT). rewrite I0 in SK. split; [exact I0|lia].
  - intros GE. specialize (IF GE). split; [exact SK|]. split; [exact IF|].
    intros ODD.
    apply (Z.div_unique_pos _ _ _ (sampleCounter (ring (run tks g0)))); lia.
Qed.

(** *** What the plausibility gate looks at *)

(** The slots no row was stored in yet still hold the row of zeros they
    start with. *)
Definition fresh_inv (g : Globals) : Prop :=
  forall k, Z.of_nat (length (stored_rows (calls g))) <= k < WINDOW_SAMPLES ->
            cell (imuBuffer (ring g)) (slot_behind (bufIndex (ring g)) k)
            = replicate (Z.to_nat AXIS_COUNT) F32.zero.

Lemma fresh_inv_same g g' :
  imuBuffer (ring g') = imuBuffer (ring g) ->
  bufIndex (ring g') = bufIndex (ring g) ->
  stored_rows (calls g') = stored_rows (calls g) ->
  fresh_inv g -> fresh_inv g'.
Proof. intros B I R F. unfold fresh_inv. rewrite B, I, R. exact F. Qed.

Lemma fresh_inv_loop tk g :
  0 < AXIS_COUNT -> 0 < WINDOW_SAMPLES < 2 ^ 16 ->
  ring_inv g -> fresh_inv g -> fresh_inv (loop tk g).
Proof.
  intros A W RI F.
  assert (fresh_inv (sample tk g)) as F1.
  { unfold sample. destruct (_ <=? _); [|exact F].
    destruct RI as (L & C & _).
    destruct (readIMU_push tk (set_timers (set_lastIMUread (now tk) (timers g)) g))
      as (row & ->).
    unfold fresh_inv.
    cbn [ring calls call set_ring set_timers imuBuffer bufIndex stored_rows length].
    rewrite rem_wrap by lia. intros k K.
    destruct (slot_behind_older (bufIndex (ring g)) k ltac:(lia) ltac:(lia)) as (E & N & P).
    rewrite E, cell_store_ne by lia. apply F. lia. }
  destruct (loop_buffer tk g) as (B & I & _).
  eapply fresh_inv_same; [exact B|exact I|apply loop_stored_rows|exact F1].
Qed.

Lemma window_inv_run tks g :
  0 < AXIS_COUNT -> 0 < WINDOW_SAMPLES < 2 ^ 16 ->
  ring_inv g -> fresh_inv g -> ring_inv (run tks g) /\ fresh_inv (run tks g).
Proof.
  intros A W. revert g. induction tks as [|tk tks IH]; intros g RI F; [split; assumption|].
  cbn. apply IH; [apply ring_inv_loop|apply fresh_inv_loop]; assumption.
Qed.

Lemma fresh_inv_setup imu_ok display_ok t1 t2 t3 t4 g0 :
  setup imu_ok display_ok t1 t2 t3 t4 = Some g0 -> fresh_inv g0.
Proof.
  unfold setup. destruct imu_ok, display_ok; cbn; try discriminate.
  intros [= <-]. unfold fresh_inv. cbn. intros k K. unfold cell, slot_behind.
  apply lookup_total_replicate_2.
  destruct (Z.ltb_spec k 0); lia.
Qed.

Lemma zero_row_below_threshold n :
  F32.gt (sq_magnitude (replicate n F32.zero)) accel_thr2 = false.
Proof.
  unfold sq_magnitude, cell.
  assert (forall i, replicate n F32.zero !!! i = F32.zero) as Z0.
  { intros i. destruct (decide (i < n)%nat).
    - apply lookup_total_replicate_2. assumption.
    - rewrite list_lookup_total_alt.
      assert (replicate n F32.zero !! i = None) as -> by (apply lookup_replicate_None; lia).
      reflexivity. }
  rewrite !Z0. reflexivity.
Qed.

(** X5.  In every execution [accelAboveThreshold] passes exactly when
    one of the rows stored by the most recent [WINDOW_SAMPLES] calls of
    [readIMU] (all of them while fewer were made) has its squared
    magnitude above the threshold: a swing leaves the gate once
    [WINDOW_SAMPLES] newer samples have been stored, and the rows of
    zeros the ring starts with never pass it. *)
Theorem plausibility_gate_sees_recent_rows
    (imu_ok display_ok : bool) (t1 t2 t3 t4 : Z) (g0 : Globals) (tks : list Tick) :
  0 < AXIS_COUNT -> 0 < WINDOW_SAMPLES < 2 ^ 16 ->
  setup imu_ok display_ok t1 t2 t3 t4 = Some g0 ->
  let g := run tks g0 in
  let n := Z.of_nat (length (stored_rows (calls g))) in
  accelAboveThreshold g = true <->
  exists k, 0 <= k < Z.min n WINDOW_SAMPLES /\
            F32.gt (sq_magnitude (cell (stored_rows (calls g)) k)) accel_thr2 = true.
Proof.
  intros A W S g n.
  destruct (window_inv_run tks g0 A W
              (ring_inv_setup _ _ _ _ _ _ _ A ltac:(lia) S)
              (fresh_inv_setup _ _ _ _ _ _ _ S)) as (RI & F).
  fold g in RI, F. destruct RI as (L & C & _ & H).
  unfold accelAboveThreshold. cbn zeta. rewrite accel_scan_true. fold n in H.
  split.
  - intros (i & R & K).
    set (k := if i <? bufIndex (ring g) then bufIndex (ring g) - 1 - i
              else bufIndex (ring g) - 1 - i + WINDOW_SAMPLES).
    assert (0 <= k < WINDOW_SAMPLES /\ slot_behind (bufIndex (ring g)) k = i) as (KR & KS).
    { subst k. unfold slot_behind.
      repeat match goal with |- context [Z.ltb ?x ?y] => destruct (Z.ltb_spec x y) end; lia. }
    destruct (Z.lt_ge_cases k n) as [LT|GE].
    + exists k. split; [lia|]. rewrite <- (H k KR LT), KS. exact K.
    + exfalso. specialize (F k ltac:(fold n; lia)). rewrite KS in F. rewrite F in K.
      rewrite zero_row_below_threshold in K. discriminate.
  - intros (k & R & K).
    exists (slot_behind (bufIndex (ring g)) k). split.
    + unfold slot_behind. destruct (Z.ltb_spec k (bufIndex (ring g))); lia.
    + rewrite (H k ltac:(lia) ltac:(lia)). exact K.
Qed.

(** *** Flash messages and counters over whole executions *)

(** How often a flash was drawn for the category [idx], and how often
    for any category. *)
Fixpoint flash_count (idx : Z) (cs : list Call) : Z :=
  match cs with
  | [] => 0
  | CallDrawFlash i _ :: cs => (if i =? idx then 1 else 0) + flash_count idx cs
  | _ :: cs => flash_count idx cs
  end.

Fixpoint flashes (cs : list Call) : Z :=
  match cs with
  | [] => 0
  | CallDrawFlash _ _ :: cs => 1 + flashes cs
  | _ :: cs => flashes cs
  end.

(** A call history in which every flash shows, of the two messages of
    its category, the one whose turn it is. *)
Fixpoint flash_log_ok (cs : list Call) : Prop :=
  match cs with
  | [] => True
  | CallDrawFlash i msg :: cs =>
      (0 <= i <= 4 /\ msg = cell (cell encMsgs i) (flash_count i cs mod 2)) /\
      flash_log_ok cs
  | _ :: cs => flash_log_ok cs
  end.

Definition flash_inv (g : Globals) : Prop :=
  length (encIndex g) = 5%nat /\
  (forall idx, 0 <= idx <= 4 ->
     cell (encIndex g) idx = u8 (flash_count idx (calls g)) /\
     category_count idx (counts g) = u16 (flash_count idx (calls g))) /\
  totalStrokes (counts g) = u16 (flashes (calls g)) /\
  flash_log_ok (calls g).

Lemma flash_count_nonneg idx cs : 0 <= flash_count idx cs.
Proof.
  induction cs as [|c cs IH]; cbn; [lia|].
  destruct c; try exact IH. destruct (_ =? _); lia.
Qed.

Lemma flashes_sum cs :
  flash_log_ok cs ->
  flashes cs = flash_count 0 cs + flash_count 1 cs + flash_count 2 cs
               + flash_count 3 cs + flash_count 4 cs.
Proof.
  induction cs as [|c cs IH]; cbn; [reflexivity|].
  destruct c; try exact IH.
  intros ((R & _) & OK). rewrite (IH OK).
  assert (idx = 0 \/ idx = 1 \/ idx = 2 \/ idx = 3 \/ idx = 4) as C by lia.
  destruct C as [-> | [-> | [-> | [-> | ->]]]]; cbn; lia.
Qed.

Lemma flash_log_ok_split cs :
  flash_log_ok cs ->
  forall later idx msg earlier,
    cs = later ++ CallDrawFlash idx msg :: earlier ->
    0 <= idx <= 4 /\ msg = cell (cell encMsgs idx) (flash_count idx earlier mod 2).
Proof.
  intros F later. revert cs F.
  induction later as [|c later IH]; intros cs F idx msg earlier ->; cbn in F.
  - tauto.
  - apply (IH (later ++ CallDrawFlash idx msg :: earlier)); [|reflexivity].
    destruct c; tauto.
Qed.

Lemma flash_inv_same g g' :
  encIndex g' = encIndex g -> counts g' = counts g ->
  (calls g' = calls g \/
   exists c, calls g' = c :: calls g /\ forall i m, c <> CallDrawFlash i m) ->
  flash_inv g -> flash_inv g'.
Proof.
  intros E C [K|(c & K & N)] (L & P & T & OK); unfold flash_inv; rewrite E, C, K.
  - tauto.
  - destruct c; cbn; try tauto. exfalso. exact (N _ _ eq_refl).
Qed.

Lemma classify_encIndex to_flash t g :
  encIndex (classify to_flash t g) =
    if accepts g
    then let idx := index (fst (runInference (hop_taken g))) in
         store (encIndex g) idx (u8 (cell (encIndex g) idx + 1))
    else encIndex g.
Proof.
  unfold accepts. destruct (hop_due g) eqn:D.
  - rewrite classify_due by assumption. cbn zeta. rewrite gate_hop_taken.
    destruct (runInference_frame (hop_taken g)) as (_ & _ & _ & _ & E & _).
    destruct (gate _ g); [destruct to_flash|]; cbn; rewrite E; reflexivity.
  - rewrite classify_idle by assumption. reflexivity.
Qed.

Lemma classify_calls_unaccepted to_flash t g :
  accepts g = false ->
  calls (classify to_flash t g) = calls g \/
  calls (classify to_flash t g) = CallRunInference :: calls g.
Proof.
  unfold accepts. destruct (hop_due g) eqn:D.
  - cbn. intros G. right. rewrite classify_due by assumption. cbn zeta.
    rewrite gate_hop_taken, G.
    destruct (runInference_frame (hop_taken g)) as (_ & _ & _ & _ & _ & _ & K). exact K.
  - intros _. left. rewrite classify_idle by assumption. reflexivity.
Qed.

Lemma flash_inv_classify to_flash t g :
  0 < EI_CLASSIFIER_LABEL_COUNT <= 6 ->
  flash_inv g -> flash_inv (classify to_flash t g).
Proof.
  intros LB (L & P & T & OK).
  destruct (accepts g) eqn:A.
  - pose proof A as A'. unfold accepts in A'. apply andb_true_iff in A'. destruct A' as (D & G).
    pose proof (gate_index _ g LB (runInference_index_nonneg _) G) as IX.
    destruct (classify_accepted to_flash t g D G) as (C & _ & _ & _ & K).
    cbn zeta in C, K.
    set (idx := index (fst (runInference (hop_taken g)))) in *.
    destruct (count_stroke_category idx (counts g) IX) as (CC & CT & CO).
    destruct (P idx IX) as (PE & PC).
    unfold flash_inv.
    rewrite classify_encIndex, A, C, K. cbn zeta. fold idx.
    cbn [flash_count flashes flash_log_ok].
    pose proof (flash_count_nonneg idx (calls g)) as NN.
    split; [unfold store; rewrite length_insert; exact L|].
    split; [|split; [|split; [split|exact OK]]].
    + intros j J. destruct (Z.eq_dec j idx) as [->|NE].
      * rewrite Z.eqb_refl.
        rewrite cell_store_eq by lia. rewrite CC, PE, PC.
        unfold u8, u16. split.
        -- rewrite Z.add_mod_idemp_l by lia. f_equal. lia.
        -- rewrite Z.add_mod_idemp_l by lia. f_equal. lia.
      * rewrite cell_store_ne by lia.
        destruct (Z.eqb_spec idx j) as [->|_]; [congruence|].
        rewrite (CO j J NE). rewrite Z.add_0_l. exact (P j J).
    + rewrite CT, T. unfold u16. rewrite Z.add_mod_idemp_l by lia. f_equal. lia.
    + exact IX.
    + rewrite PE. f_equal.
      assert (cell encCount idx = 2) as ->.
      { assert (idx = 0 \/ idx = 1 \/ idx = 2 \/ idx = 3 \/ idx = 4) as X by lia.
        destruct X as [-> | [-> | [-> | [-> | ->]]]]; reflexivity. }
      unfold u8.
      pose proof (Z.mod_pos_bound (flash_count idx (calls g)) (2 ^ 8) ltac:(lia)) as B8.
      rewrite Z.rem_mod_nonneg by lia.
      pose proof (Z.mod_pos_bound (flash_count idx (calls g) mod 2 ^ 8) 2 ltac:(lia)) as B2.
      rewrite (Z.mod_small _ (2 ^ 8)) by lia.
      change (2 ^ 8) with 256. clear. Z.div_mod_to_equations. lia.
  - eapply flash_inv_same; [| | |exact (conj L (conj P (conj T OK)))].
    + rewrite classify_encIndex, A. reflexivity.
    + rewrite classify_counts, A. reflexivity.
    + destruct (classify_calls_unaccepted to_flash t g A) as [K|K]; [left; exact K|].
      right. eexists. split; [exact K|]. intros i m X. inversion X.
Qed.

Lemma flash_inv_loop tk g :
  0 < EI_CLASSIFIER_LABEL_COUNT <= 6 -> flash_inv g -> flash_inv (loop tk g).
Proof.
  intros LB I.
  assert (flash_inv (sample tk g)) as I1.
  { destruct (sample_frame tk g) as (_ & CN & EI & _).
    eapply flash_inv_same; [exact EI|exact CN| |exact I].
    unfold sample. destruct (_ <=? _); [|left; reflexivity].
    destruct (readIMU_push tk (set_timers (set_lastIMUread (now tk) (timers g)) g))
      as (row & ->).
    right. eexists. split; [reflexivity|]. intros i m X. inversion X. }
  unfold loop. destruct (currentState (sample tk g)).
  - eapply flash_inv_same; [| | |exact I1]; [reflexivity|reflexivity|left; reflexivity].
  - apply (flash_inv_classify true (now tk) _ LB) in I1.
    unfold redraw_main, idle_timeout.
    destruct (IDLE_TIMEOUT_MS <=? _); destruct (ANIM_INTERVAL_MS <=? _);
      (eapply flash_inv_same; [| | |exact I1]; [reflexivity|reflexivity|]);
      first [left; reflexivity
            |right; eexists; split; [reflexivity|intros i m X; inversion X]].
  - apply (flash_inv_classify false (now tk) _ LB) in I1.
    unfold flash_timeout.
    destruct (FLASH_DURATION_MS <=? _);
      (eapply flash_inv_same; [| | |exact I1]; [reflexivity|reflexivity|]);
      first [left; reflexivity
            |right; eexists; split; [reflexivity|intros i m X; inversion X]].
  - apply flash_inv_classify; [exact LB|].
    unfold animate_idle.
    destruct (ANIM_INTERVAL_MS <=? _);
      (eapply flash_inv_same; [| | |exact I1]; [reflexivity|reflexivity|]);
      first [left; reflexivity
            |right; eexists; split; [reflexivity|intros i m X; inversion X]].
Qed.

Lemma flash_inv_run tks g :
  0 < EI_CLASSIFIER_LABEL_COUNT <= 6 -> flash_inv g -> flash_inv (run tks g).
Proof.
  intros LB. revert g. induction tks as [|tk tks IH]; intros g I; [exact I|].
  cbn. apply IH. apply flash_inv_loop; assumption.
Qed.

Lemma flash_inv_setup imu_ok display_ok t1 t2 t3 t4 g0 :
  setup imu_ok display_ok t1 t2 t3 t4 = Some g0 -> flash_inv g0.
Proof.
  unfold setup. destruct imu_ok, display_ok; cbn; try discriminate.
  intros [= <-]. unfold flash_inv. cbn.
  split; [reflexivity|]. split; [|split; [reflexivity|exact I]].
  intros idx R.
  assert (idx = 0 \/ idx = 1 \/ idx = 2 \/ idx = 3 \/ idx = 4) as C by lia.
  destruct C as [-> | [-> | [-> | [-> | ->]]]]; split; reflexivity.
Qed.

(** X6.  The messages rotate per category.  In every execution each
    flash in the call history is for one of the five stroke categories
    and shows message number [k mod 2] of that category, [k] being the
    number of earlier flashes of the same category; flashes of other
    categories in between do not count.  The cursor [encIndex] of each
    category is that number of flashes, wrapped to eight bits. *)
Theorem flash_messages_rotate_per_category
    (imu_ok display_ok : bool) (t1 t2 t3 t4 : Z) (g0 : Globals) (tks : list Tick) :
  0 < EI_CLASSIFIER_LABEL_COUNT <= 6 ->
  setup imu_ok display_ok t1 t2 t3 t4 = Some g0 ->
  let g := run tks g0 in
  (forall later idx msg earlier,
      calls g = later ++ CallDrawFlash idx msg :: earlier ->
      0 <= idx <= 4 /\
      msg = cell (cell encMsgs idx) (flash_count idx earlier mod 2)) /\
  (forall idx, 0 <= idx <= 4 -> cell (encIndex g) idx = u8 (flash_count idx (calls g))).
Proof.
  intros LB S g.
  destruct (flash_inv_run tks g0 LB (flash_inv_setup _ _ _ _ _ _ _ S)) as (_ & P & _ & OK).
  fold g in P, OK. split.
  - apply flash_log_ok_split. exact OK.
  - intros idx R. apply (P idx R).
Qed.

(** X7.  The counters count flashes.  In every execution the counter of
    each stroke category is the number of flashes drawn for it and
    [totalStrokes] the number of all flashes, both wrapped to sixteen
    bits; so [totalStrokes] is the sum of the five category counters,
    wrapped likewise. *)
Theorem counters_count_flashes
    (imu_ok display_ok : bool) (t1 t2 t3 t4 : Z) (g0 : Globals) (tks : list Tick) :
  0 < EI_CLASSIFIER_LABEL_COUNT <= 6 ->
  setup imu_ok display_ok t1 t2 t3 t4 = Some g0 ->
  let g := run tks g0 in
  let c := counts g in
  (forall idx, 0 <= idx <= 4 -> category_count idx c = u16 (flash_count idx (calls g))) /\
  totalStrokes c = u16 (flashes (calls g)) /\
  totalStrokes c = u16 (countBHdrive c + countBHsmash c + countFHdrive c
                        + countFHloop c + countFHsmash c).
Proof.
  intros LB S g c.
  destruct (flash_inv_run tks g0 LB (flash_inv_setup _ _ _ _ _ _ _ S)) as (_ & P & T & OK).
  fold g in P, T, OK. fold c in P, T.
  split; [intros idx R; apply (P idx R)|]. split; [exact T|].
  rewrite T, (flashes_sum _ OK).
  destruct (P 0 ltac:(lia)) as (_ & P0). destruct (P 1 ltac:(lia)) as (_ & P1).
  destruct (P 2 ltac:(lia)) as (_ & P2). destruct (P 3 ltac:(lia)) as (_ & P3).
  destruct (P 4 ltac:(lia)) as (_ & P4).
  cbn [category_count] in P0, P1, P2, P3, P4.
  rewrite P0, P1, P2, P3, P4. unfold u16. change (2 ^ 16) with 65536.
  generalize (flash_count 0 (calls g)) (flash_count 1 (calls g)) (flash_count 2 (calls g))
             (flash_count 3 (calls g)) (flash_count 4 (calls g)).
  intros a0 a1 a2 a3 a4. Z.div_mod_to_equations. lia.
Qed.

(** *** What is on the display *)

(** The most recent drawing call of a history: what the OLED shows. *)
Fixpoint on_screen (cs : list Call) : option Call :=
  match cs with
  | [] => None
  | CallReadIMU _ :: cs => on_screen cs
  | CallRunInference :: cs => on_screen cs
  | c :: _ => Some c
  end.

Definition screen_inv (g : Globals) : Prop :=
  forall c, on_screen (calls g) = Some (CallDrawMainScreen c) -> c = counts g.

Lemma screen_inv_same g g' :
  counts g' = counts g -> on_screen (calls g') = on_screen (calls g) ->
  screen_inv g -> screen_inv g'.
Proof. intros C O I. unfold screen_inv. rewrite C, O. exact I. Qed.

Lemma sample_on_screen tk g : on_screen (calls (sample tk g)) = on_screen (calls g).
Proof.
  unfold sample. destruct (_ <=? _); [|reflexivity].
  destruct (readIMU_push tk (set_timers (set_lastIMUread (now tk) (timers g)) g))
    as (row & ->). reflexivity.
Qed.

Lemma screen_inv_classify to_flash t g :
  screen_inv g -> screen_inv (classify to_flash t g).
Proof.
  intros I. destruct (accepts g) eqn:A.
  - pose proof A as A'. unfold accepts in A'. apply andb_true_iff in A'. destruct A' as (D & G).
    destruct (classify_accepted to_flash t g D G) as (_ & _ & _ & _ & K).
    unfold screen_inv. rewrite K. cbn. intros c X. inversion X.
  - eapply screen_inv_same; [| |exact I].
    + rewrite classify_counts, A. reflexivity.
    + destruct (classify_calls_unaccepted to_flash t g A) as [-> | ->]; reflexivity.
Qed.

Lemma screen_inv_draw g : screen_inv (drawMainScreen g).
Proof. unfold screen_inv. cbn. intros c [= <-]. reflexivity. Qed.

Lemma screen_inv_loop tk g : screen_inv g -> screen_inv (loop tk g).
Proof.
  intros I.
  assert (screen_inv (sample tk g)) as I1.
  { destruct (sample_frame tk g) as (_ & CN & _).
    eapply screen_inv_same; [exact CN|apply sample_on_screen|exact I]. }
  unfold loop. destruct (currentState (sample tk g)).
  - exact I1.
  - apply (screen_inv_classify true (now tk)) in I1.
    unfold redraw_main, idle_timeout.
    destruct (IDLE_TIMEOUT_MS <=? _); destruct (ANIM_INTERVAL_MS <=? _);
      first [exact I1 | apply screen_inv_draw
            | unfold screen_inv; cbn; intros c X; apply I1; exact X
            | unfold screen_inv; cbn; intros c [= <-]; reflexivity].
  - apply (screen_inv_classify false (now tk)) in I1.
    unfold flash_timeout.
    destruct (FLASH_DURATION_MS <=? _);
      first [exact I1 | unfold screen_inv; cbn; intros c [= <-]; reflexivity].
  - apply screen_inv_classify. unfold animate_idle.
    destruct (ANIM_INTERVAL_MS <=? _);
      first [exact I1 | unfold screen_inv; cbn; intros c X; inversion X].
Qed.

Lemma screen_inv_run tks g : screen_inv g -> screen_inv (run tks g).
Proof.
  revert g. induction tks as [|tk tks IH]; intros g I; [exact I|].
  cbn. apply IH. apply screen_inv_loop. exact I.
Qed.

(** X8.  The main screen is never stale.  In every execution, whenever
    the most recent drawing call is [drawMainScreen], the counters it
    painted are the counters the sketch holds: every stroke counted
    after the last main screen has drawn its flash over it. *)
Theorem main_screen_shows_current_counters
    (imu_ok display_ok : bool) (t1 t2 t3 t4 : Z) (g0 : Globals) (tks : list Tick) :
  setup imu_ok display_ok t1 t2 t3 t4 = Some g0 ->
  let g := run tks g0 in
  forall c, on_screen (calls g) = Some (CallDrawMainScreen c) -> c = counts g.
Proof.
  intros S g. apply screen_inv_run.
  revert S. unfold setup. destruct imu_ok, display_ok; cbn; try discriminate.
  intros [= <-]. unfold screen_inv. cbn. intros c X. inversion X.
Qed.

(** Passes that follow in [STATE_FLASH] without accepting a stroke,
    each less than [FLASH_DURATION_MS] after the time [start] on the
    [uint32_t] clock; [g] is the state the first of them starts from. *)
Fixpoint quiet_in_flash (start : Z) (tks : list Tick) (g : Globals) : Prop :=
  match tks with
  | [] => True
  | tk :: tks =>
      accepts (sample tk g) = false /\
      u32 (now tk - start) < FLASH_DURATION_MS /\
      quiet_in_flash start tks (loop tk g)
  end.

(** Such passes stay in [STATE_FLASH], count nothing and draw nothing. *)
Lemma quiet_in_flash_keeps_screen start tks :
  forall g,
    currentState g = STATE_FLASH -> flashStart (timers g) = start ->
    quiet_in_flash start tks g ->
    currentState (run tks g) = STATE_FLASH /\
    counts (run tks g) = counts g /\
    flashStart (timers (run tks g)) = start /\
    on_screen (calls (run tks g)) = on_screen (calls g).
Proof.
  induction tks as [|tk tks IH]; intros g S F Q; [repeat split; assumption|].
  destruct Q as (NA & NE & Q). cbn [run fold_left].
  destruct (sample_frame tk g) as (CS & CN & _ & _ & FS & _).
  assert (loop tk g = classify false (now tk) (sample tk g)) as EQ.
  { unfold loop. rewrite CS, S. unfold flash_timeout.
    rewrite classify_timers, NA, FS, F.
    destruct (Z.leb_spec FLASH_DURATION_MS (u32 (now tk - start))); [lia|reflexivity]. }
  assert (currentState (loop tk g) = STATE_FLASH) as S1
      by (rewrite EQ, classify_state, NA, CS; exact S).
  assert (counts (loop tk g) = counts g) as C1
      by (rewrite EQ, classify_counts, NA; exact CN).
  assert (flashStart (timers (loop tk g)) = start) as F1
      by (rewrite EQ, classify_timers, NA, FS; exact F).
  assert (on_screen (calls (loop tk g)) = on_screen (calls g)) as O1.
  { rewrite EQ.
    assert (on_screen (calls (classify false (now tk) (sample tk g)))
            = on_screen (calls (sample tk g))) as ->
        by (destruct (classify_calls_unaccepted false (now tk) _ NA) as [-> | ->];
            reflexivity).
    apply sample_on_screen. }
  destruct (IH (loop tk g) S1 F1 Q) as (S2 & C2 & F2 & O2).
  fold (run tks (loop tk g)).
  split; [exact S2|]. split; [congruence|]. split; [exact F2|]. congruence.
Qed.

(** X9.  A flash can be painted over in the pass that draws it.  When a
    pass in [STATE_MAIN] accepts a stroke while the redraw of the main
    screen is due ([now - lastDisplay] at [ANIM_INTERVAL_MS] or more) and
    the idle timeout is not reached, [drawFlash] is followed by
    [drawMainScreen] in the same pass: the pass ends in [STATE_FLASH]
    with the stroke counted ([totalStrokes] and the counter of its
    category one higher modulo 2^16, the other four as they were) and
    with the main screen, showing these counters, on the display.
    However many passes follow in [STATE_FLASH] that neither accept a
    stroke nor find the flash expired, they draw nothing: the state
    stays [STATE_FLASH], the counters stay, and the main screen stays
    on the display, so the message is not brought back. *)
Theorem redraw_due_paints_over_flash (tk : Tick) (g : Globals) :
  currentState g = STATE_MAIN ->
  accepts (sample tk g) = true ->
  u32 (now tk - lastStrokeTime (timers g)) < IDLE_TIMEOUT_MS ->
  ANIM_INTERVAL_MS <= u32 (now tk - lastDisplay (timers g)) ->
  let idx := index (fst (runInference (hop_taken (sample tk g)))) in
  let g' := loop tk g in
  currentState g' = STATE_FLASH /\
  counts g' = count_stroke idx (counts g) /\
  totalStrokes (counts g') = u16 (totalStrokes (counts g) + 1) /\
  countBHdrive (counts g')
    = (if idx =? 0 then u16 (countBHdrive (counts g) + 1) else countBHdrive (counts g)) /\
  countBHsmash (counts g')
    = (if idx =? 1 then u16 (countBHsmash (counts g) + 1) else countBHsmash (counts g)) /\
  countFHdrive (counts g')
    = (if idx =? 2 then u16 (countFHdrive (counts g) + 1) else countFHdrive (counts g)) /\
  countFHloop (counts g')
    = (if idx =? 3 then u16 (countFHloop (counts g) + 1) else countFHloop (counts g)) /\
  countFHsmash (counts g')
    = (if idx =? 4 then u16 (countFHsmash (counts g) + 1) else countFHsmash (counts g)) /\
  flashStart (timers g') = now tk /\
  (exists msg,
      calls g' = CallDrawMainScreen (counts g') :: CallDrawFlash idx msg
                   :: CallRunInference :: calls (sample tk g)) /\
  on_screen (calls g') = Some (CallDrawMainScreen (counts g')) /\
  (forall tks,
      quiet_in_flash (now tk) tks g' ->
      currentState (run tks g') = STATE_FLASH /\
      counts (run tks g') = counts g' /\
      on_screen (calls (run tks g')) = Some (CallDrawMainScreen (counts g'))).
Proof.
  intros M A NT RD idx g'.
  destruct (sample_frame tk g) as (CS & CN & _ & LS & _ & LD & _).
  pose proof A as A'. unfold accepts in A'. apply andb_true_iff in A'. destruct A' as (D & G).
  destruct (classify_accepted true (now tk) (sample tk g) D G) as (C & T & S & _ & K).
  cbn zeta in C, K. fold idx in C, K.
  set (gc := classify true (now tk) (sample tk g)) in *.
  assert (g' = drawMainScreen (set_timers (set_lastDisplay (now tk) (timers gc)) gc)) as EQ.
  { subst g'. unfold loop. rewrite CS, M. fold gc.
    assert (idle_timeout (now tk) gc = gc) as ->.
    { unfold idle_timeout. rewrite T. cbn [lastStrokeTime set_flashStart]. rewrite LS.
      destruct (Z.leb_spec IDLE_TIMEOUT_MS (u32 (now tk - lastStrokeTime (timers g))));
        [lia|reflexivity]. }
    unfold redraw_main. rewrite T. cbn [lastDisplay set_flashStart]. rewrite LD.
    apply Z.leb_le in RD. rewrite RD. reflexivity. }
  assert (currentState g' = STATE_FLASH) as S' by (rewrite EQ; exact S).
  assert (counts g' = counts gc) as C' by (rewrite EQ; reflexivity).
  assert (flashStart (timers g') = now tk) as F'
      by (rewrite EQ; cbn; rewrite T; reflexivity).
  assert (calls g' = CallDrawMainScreen (counts g') :: calls gc) as K'
      by (rewrite C', EQ; reflexivity).
  assert (counts g' = count_stroke idx (counts g)) as CG by (rewrite C', C, CN; reflexivity).
  destruct (count_stroke_fields idx (counts g)) as (F0 & F1 & F2 & F3 & F4 & FT).
  split; [exact S'|]. split; [exact CG|].
  split; [rewrite CG; exact FT|]. split; [rewrite CG; exact F0|].
  split; [rewrite CG; exact F1|]. split; [rewrite CG; exact F2|].
  split; [rewrite CG; exact F3|]. split; [rewrite CG; exact F4|].
  split; [exact F'|].
  split; [eexists; rewrite K', K; reflexivity|].
  split; [rewrite K'; reflexivity|].
  intros tks Q.
  destruct (quiet_in_flash_keeps_screen (now tk) tks g' S' F' Q) as (S2 & C2 & _ & O2).
  split; [exact S2|]. split; [exact C2|]. rewrite O2, K'. reflexivity.
Qed.

(** *** The label [runInference] picks *)

(** The order of binary32 values as [>] decides it, read off
    [SFcompare]: sign class first, then exponent, then mantissa. *)
Definition f32_key (x : F32.t) : Z * Z * Z :=
  match x with
  | S754_zero _ => (0, 0, 0)
  | S754_nan => (0, 0, 0)
  | S754_infinity false => (2, 0, 0)
  | S754_infinity true => (-2, 0, 0)
  | S754_finite false m e => (1, e, Z.pos m)
  | S754_finite true m e => (-1, - e, - Z.pos m)
  end.

Definition key_lt (a b : Z * Z * Z) : Prop :=
  let '(a1, a2, a3) := a in
  let '(b1, b2, b3) := b in
  a1 < b1 \/ (a1 = b1 /\ (a2 < b2 \/ (a2 = b2 /\ a3 < b3))).

Definition is_number (x : F32.t) : Prop := x <> S754_nan.

Lemma gt_key x y :
  is_number x -> is_number y -> (F32.gt x y = true <-> key_lt (f32_key y) (f32_key x)).
Proof.
  unfold is_number, F32.gt, SFltb, SFcompare, key_lt, f32_key. intros NX NY.
  destruct x as [sx|sx| |sx mx ex], y as [sy|sy| |sy my ey]; try congruence;
    try destruct sx; try destruct sy; cbn;
    try (split; [discriminate|lia]); try (split; [lia|discriminate]);
    try (split; [intros _; lia|reflexivity]).
  - rewrite Pos.compare_cont_spec. cbn [Pos.switch_Eq].
    destruct (Z.compare_spec ey ex), (Pos.compare_spec my mx); cbn;
      split; try discriminate; try reflexivity; try lia; intros _; lia.
  - rewrite Pos.compare_cont_spec. cbn [Pos.switch_Eq].
    destruct (Z.compare_spec ey ex), (Pos.compare_spec my mx); cbn;
      split; try discriminate; try reflexivity; try lia; intros _; lia.
Qed.

Lemma key_lt_irrefl a : ~ key_lt a a.
Proof. destruct a as [[a1 a2] a3]. unfold key_lt. lia. Qed.

Lemma key_lt_keeps_max b i k : ~ key_lt b i -> key_lt b k -> ~ key_lt k i.
Proof.
  destruct b as [[b1 b2] b3], i as [[i1 i2] i3], k as [[k1 k2] k3]. unfold key_lt. lia.
Qed.

Lemma key_lt_new_max b i k : ~ key_lt b i -> key_lt b k -> key_lt i k.
Proof.
  destruct b as [[b1 b2] b3], i as [[i1 i2] i3], k as [[k1 k2] k3]. unfold key_lt. lia.
Qed.

Lemma gt_false_key x y :
  is_number x -> is_number y -> (F32.gt x y = false <-> ~ key_lt (f32_key y) (f32_key x)).
Proof.
  intros NX NY. rewrite <- (gt_key x y NX NY). destruct (F32.gt x y); split; congruence.
Qed.

(** The arg-max loop on scores without NaN: it ends on a label that no
    score beats and that beats every score before it. *)
Lemma best_label_first_maximum cl :
  0 < EI_CLASSIFIER_LABEL_COUNT ->
  (forall i, 0 <= i < EI_CLASSIFIER_LABEL_COUNT -> is_number (cell cl i)) ->
  let b := best_label cl in
  0 <= b < EI_CLASSIFIER_LABEL_COUNT /\
  (forall i, 0 <= i < EI_CLASSIFIER_LABEL_COUNT -> F32.gt (cell cl i) (cell cl b) = false) /\
  (forall i, 0 <= i < b -> F32.gt (cell cl b) (cell cl i) = true).
Proof.
  intros L N. cbn zeta. unfold best_label.
  pose proof (for_loop_inv
    (fun k best => 0 <= best < k /\
                   (forall i, 0 <= i < k -> F32.gt (cell cl i) (cell cl best) = false) /\
                   (forall i, 0 <= i < best -> F32.gt (cell cl best) (cell cl i) = true))
    (fun i best => if F32.gt (cell cl i) (cell cl best) then i else best)
    (Z.to_nat (EI_CLASSIFIER_LABEL_COUNT - 1)) 1 0) as I.
  cbn beta in I.
  replace (1 + Z.of_nat (Z.to_nat (EI_CLASSIFIER_LABEL_COUNT - 1)))
    with EI_CLASSIFIER_LABEL_COUNT in I by lia.
  apply I; clear I.
  - split; [lia|]. split; [|intros; lia].
    intros i R. replace i with 0 by lia.
    apply gt_false_key; try (apply N; lia). apply key_lt_irrefl.
  - intros k best R (B & MAX & FIRST).
    destruct (F32.gt (cell cl k) (cell cl best)) eqn:G.
    + apply gt_key in G; try (apply N; lia).
      split; [lia|]. split.
      * intros i Ri. apply gt_false_key; try (apply N; lia).
        destruct (Z.eq_dec i k) as [->|NE]; [apply key_lt_irrefl|].
        apply (key_lt_keeps_max (f32_key (cell cl best))); [|exact G].
        apply gt_false_key; try (apply N; lia). apply MAX. lia.
      * intros i Ri. apply gt_key; try (apply N; lia).
        apply (key_lt_new_max (f32_key (cell cl best))); [|exact G].
        apply gt_false_key; try (apply N; lia). apply MAX. lia.
    + split; [lia|]. split; [|exact FIRST].
      intros i Ri. destruct (Z.eq_dec i k) as [->|NE]; [exact G|]. apply MAX. lia.
Qed.

(** X10.  When the classifier answers scores without NaN, [runInference]
    returns the label with the highest score and that score as its
    confidence: no label scores higher, and every label before the
    returned one scores strictly lower, so of equal best scores the
    first wins. *)
Theorem runInference_picks_first_maximum
    (g : Globals) (signal cl : list F32.t) :
  0 < EI_CLASSIFIER_LABEL_COUNT <= 2 ^ 8 ->
  signal_from_buffer (fill_sig (ring g) (sig g)) WINDOW_SIZE = Some signal ->
  run_classifier signal = Some cl ->
  (forall i, is_label_index i -> is_number (cell cl i)) ->
  let inf := fst (runInference g) in
  is_label_index (index inf) /\
  confidence inf = cell cl (index inf) /\
  (forall i, is_label_index i -> F32.gt (cell cl i) (confidence inf) = false) /\
  (forall i, 0 <= i < index inf -> F32.gt (confidence inf) (cell cl i) = true).
Proof.
  intros L SB RC N. cbn zeta.
  destruct (best_label_first_maximum cl ltac:(lia) N) as (B & MAX & FIRST).
  unfold runInference. cbn zeta. cbn [sig call set_sig]. rewrite SB, RC.
  cbn [fst index confidence].
  unfold u8. rewrite Z.mod_small by lia.
  split; [exact B|]. split; [reflexivity|]. split; [exact MAX|exact FIRST].
Qed.

(** *** Timing *)

Lemma u32_elapsed last d :
  0 <= last < 2 ^ 32 -> 0 <= d < 2 ^ 32 -> u32 (u32 (last + d) - last) = d.
Proof.
  unfold u32. change (2 ^ 32) with 4294967296. intros L D.
  Z.div_mod_to_equations. lia.
Qed.

(** X11.  Sampling is paced by the clock and survives its roll-over.
    Let [d] milliseconds have passed since [lastIMUread], the 32-bit
    clock possibly having wrapped in between.  A pass stores no row when
    [d < SAMPLE_INTERVAL_MS]; otherwise it stores exactly one and stamps
    [lastIMUread] with [now]. *)
Theorem sampling_is_paced_across_rollover (tk : Tick) (g : Globals) (d : Z) :
  0 <= lastIMUread (timers g) < 2 ^ 32 ->
  0 <= d < 2 ^ 32 ->
  now tk = u32 (lastIMUread (timers g) + d) ->
  (d < SAMPLE_INTERVAL_MS ->
     stored_rows (calls (loop tk g)) = stored_rows (calls g) /\ sample tk g = g) /\
  (SAMPLE_INTERVAL_MS <= d ->
     (exists row, stored_rows (calls (loop tk g)) = row :: stored_rows (calls g)) /\
     lastIMUread (timers (sample tk g)) = now tk).
Proof.
  intros L D N.
  assert (u32 (now tk - lastIMUread (timers g)) = d) as E
      by (rewrite N; apply u32_elapsed; assumption).
  rewrite loop_stored_rows. unfold sample. rewrite E. split; intros H.
  - destruct (Z.leb_spec SAMPLE_INTERVAL_MS d); [lia|]. split; reflexivity.
  - destruct (Z.leb_spec SAMPLE_INTERVAL_MS d); [|lia].
    destruct (readIMU_push tk (set_timers (set_lastIMUread (now tk) (timers g)) g))
      as (row & ->).
    split; [exists row|]; reflexivity.
Qed.

(** *** The idle animation *)

(** A call history in which every idle screen shows the balls at their
    base line. *)
Fixpoint idle_frames_at_base (cs : list Call) : Prop :=
  match cs with
  | [] => True
  | CallDrawIdle up :: cs => up = false /\ idle_frames_at_base cs
  | _ :: cs => idle_frames_at_base cs
  end.

Lemma idle_frames_at_base_In cs :
  idle_frames_at_base cs -> forall up, In (CallDrawIdle up) cs -> up = false.
Proof.
  induction cs as [|c cs IH]; cbn; [tauto|].
  intros F up [E|I].
  - subst c. tauto.
  - apply IH; [|exact I]. destruct c; tauto.
Qed.

Lemma idle_frames_classify to_flash t g :
  idle_frames_at_base (calls g) -> idle_frames_at_base (calls (classify to_flash t g)).
Proof.
  intros F. destruct (accepts g) eqn:A.
  - pose proof A as A'. unfold accepts in A'. apply andb_true_iff in A'. destruct A' as (D & G).
    destruct (classify_accepted to_flash t g D G) as (_ & _ & _ & _ & K).
    rewrite K. exact F.
  - destruct (classify_calls_unaccepted to_flash t g A) as [-> | ->]; exact F.
Qed.

Lemma idle_frames_loop tk g :
  u32 (millis_draw tk - now tk) < ANIM_INTERVAL_MS ->
  idle_frames_at_base (calls g) -> idle_frames_at_base (calls (loop tk g)).
Proof.
  intros SOON F.
  assert (idle_frames_at_base (calls (sample tk g))) as F1.
  { unfold sample. destruct (_ <=? _); [|exact F].
    destruct (readIMU_push tk (set_timers (set_lastIMUread (now tk) (timers g)) g))
      as (row & ->). exact F. }
  unfold loop. destruct (currentState (sample tk g)).
  - exact F1.
  - apply (idle_frames_classify true (now tk)) in F1.
    unfold redraw_main, idle_timeout.
    destruct (IDLE_TIMEOUT_MS <=? _); destruct (ANIM_INTERVAL_MS <=? _); exact F1.
  - apply (idle_frames_classify false (now tk)) in F1.
    unfold flash_timeout. destruct (FLASH_DURATION_MS <=? _); exact F1.
  - apply idle_frames_classify. unfold animate_idle.
    destruct (ANIM_INTERVAL_MS <=? _); [|exact F1].
    unfold drawIdle. cbn [calls call set_timers timers lastIdleAnim set_lastIdleAnim
                          idle_frames_at_base].
    split; [|exact F1].
    pose proof (Z.mod_pos_bound (millis_draw tk - now tk) (2 ^ 32) ltac:(lia)) as P.
    fold (u32 (millis_draw tk - now tk)) in P.
    rewrite Z.quot_small by (unfold ANIM_INTERVAL_MS in *; lia). reflexivity.
Qed.

(** X12.  The idle animation does not move.  [loop] stamps
    [lastIdleAnim] with [now] just before it calls [drawIdle], which
    takes the frame from the time passed since that stamp.  As long as
    [drawIdle] reads the clock less than [ANIM_INTERVAL_MS] after the
    pass read it, every idle screen of an execution is drawn with the
    balls at their base line, never raised. *)
Theorem idle_animation_stays_at_base
    (imu_ok display_ok : bool) (t1 t2 t3 t4 : Z) (g0 : Globals) (tks : list Tick) :
  setup imu_ok display_ok t1 t2 t3 t4 = Some g0 ->
  Forall (fun tk => u32 (millis_draw tk - now tk) < ANIM_INTERVAL_MS) tks ->
  forall up, In (CallDrawIdle up) (calls (run tks g0)) -> up = false.
Proof.
  intros S SOON. apply idle_frames_at_base_In.
  assert (idle_frames_at_base (calls g0)) as F0.
  { revert S. unfold setup. destruct imu_ok, display_ok; cbn; try discriminate.
    intros [= <-]. exact I. }
  clear S. revert g0 F0. induction SOON as [|tk tks H _ IH]; intros g0 F0; [exact F0|].
  cbn. apply IH. apply idle_frames_loop; assumption.
Qed.

(** How often the idle screen was drawn. *)
Fixpoint idle_draws (cs : list Call) : Z :=
  match cs with
  | [] => 0
  | CallDrawIdle _ :: cs => 1 + idle_draws cs
  | _ :: cs => idle_draws cs
  end.

Lemma sample_idle_draws tk g : idle_draws (calls (sample tk g)) = idle_draws (calls g).
Proof.
  unfold sample. destruct (_ <=? _); [|reflexivity].
  destruct (readIMU_push tk (set_timers (set_lastIMUread (now tk) (timers g)) g))
    as (row & ->). reflexivity.
Qed.

Lemma classify_idle_draws to_flash t g :
  idle_draws (calls (classify to_flash t g)) = idle_draws (calls g).
Proof.
  destruct (accepts g) eqn:A.
  - pose proof A as A'. unfold accepts in A'. apply andb_true_iff in A'. destruct A' as (D & G).
    destruct (classify_accepted to_flash t g D G) as (_ & _ & _ & _ & K).
    rewrite K. reflexivity.
  - destruct (classify_calls_unaccepted to_flash t g A) as [-> | ->]; reflexivity.
Qed.

Lemma classify_lastIdleAnim to_flash t g :
  lastIdleAnim (timers (classify to_flash t g)) = lastIdleAnim (timers g).
Proof. rewrite classify_timers. destruct (accepts g); reflexivity. Qed.

(** X13.  The idle prompt comes one animation interval late.  The pass
    that leaves [STATE_MAIN] for [STATE_IDLE] stamps [lastIdleAnim] with
    [now] and does not call [drawIdle].  A pass that follows in
    [STATE_IDLE] draws the idle screen, once, only when
    [ANIM_INTERVAL_MS] or more have passed since that stamp, and then
    stamps [lastIdleAnim] anew; before that it leaves on the display
    what the pass into [STATE_IDLE] left there. *)
Theorem idle_prompt_waits_one_interval (tk tk2 : Tick) (g : Globals) :
  currentState g = STATE_MAIN ->
  IDLE_TIMEOUT_MS <= u32 (now tk - lastStrokeTime (timers g)) ->
  let g' := loop tk g in
  let d := u32 (now tk2 - now tk) in
  currentState g' = STATE_IDLE /\
  lastIdleAnim (timers g') = now tk /\
  idle_draws (calls g') = idle_draws (calls g) /\
  (d < ANIM_INTERVAL_MS ->
     idle_draws (calls (loop tk2 g')) = idle_draws (calls g) /\
     lastIdleAnim (timers (loop tk2 g')) = now tk) /\
  (ANIM_INTERVAL_MS <= d ->
     idle_draws (calls (loop tk2 g')) = 1 + idle_draws (calls g) /\
     lastIdleAnim (timers (loop tk2 g')) = now tk2).
Proof.
  intros M TO g' d.
  destruct (sample_frame tk g) as (CS & _ & _ & LS & _).
  set (gc := classify true (now tk) (sample tk g)).
  assert (g' = redraw_main (now tk)
                 (set_timers (set_lastIdleAnim (now tk) (timers gc))
                    (set_currentState STATE_IDLE gc))) as EQ.
  { subst g'. unfold loop. rewrite CS, M. fold gc. f_equal.
    unfold idle_timeout. subst gc. rewrite classify_lastStrokeTime, LS.
    apply Z.leb_le in TO. rewrite TO. reflexivity. }
  assert (currentState g' = STATE_IDLE /\ lastIdleAnim (timers g') = now tk /\
          idle_draws (calls g') = idle_draws (calls g)) as (S' & L' & I').
  { rewrite EQ. unfold redraw_main.
    destruct (_ <=? _); cbn; (split; [reflexivity|split; [reflexivity|]]);
      subst gc; rewrite classify_idle_draws; apply sample_idle_draws. }
  split; [exact S'|]. split; [exact L'|]. split; [exact I'|].
  destruct (sample_frame tk2 g') as (CS2 & _ & _ & _ & _ & _ & LI2).
  assert (loop tk2 g' = classify true (now tk2) (animate_idle tk2 (sample tk2 g'))) as ->
      by (unfold loop; rewrite CS2, S'; reflexivity).
  rewrite classify_idle_draws, classify_lastIdleAnim.
  unfold animate_idle. rewrite LI2, L'. fold d.
  split; intros H.
  - destruct (Z.leb_spec ANIM_INTERVAL_MS d); [lia|].
    rewrite sample_idle_draws, LI2. split; assumption.
  - destruct (Z.leb_spec ANIM_INTERVAL_MS d); [|lia].
    cbn. rewrite sample_idle_draws, I'. split; reflexivity.
Qed.

(** *** The opening *)

(** A call history whose oldest entry is [playAnim], called nowhere else. *)
Fixpoint opening_first (cs : list Call) : Prop :=
  match cs with
  | [] => False
  | c :: cs' =>
      match cs' with
      | [] => c = CallPlayAnim
      | _ :: _ => c <> CallPlayAnim /\ opening_first cs'
      end
  end.

Lemma opening_first_cons c cs :
  c <> CallPlayAnim -> opening_first cs -> opening_first (c :: cs).
Proof.
  intros N F. destruct cs as [|c' cs]; [destruct F|]. split; assumption.
Qed.

Lemma opening_first_classify to_flash t g :
  opening_first (calls g) -> opening_first (calls (classify to_flash t g)).
Proof.
  intros F. destruct (accepts g) eqn:A.
  - pose proof A as A'. unfold accepts in A'. apply andb_true_iff in A'. destruct A' as (D & G).
    destruct (classify_accepted to_flash t g D G) as (_ & _ & _ & _ & K).
    rewrite K. repeat (apply opening_first_cons; [discriminate|]). exact F.
  - destruct (classify_calls_unaccepted to_flash t g A) as [-> | ->]; [exact F|].
    apply opening_first_cons; [discriminate|exact F].
Qed.

Lemma opening_first_loop tk g :
  opening_first (calls g) -> opening_first (calls (loop tk g)).
Proof.
  intros F.
  assert (opening_first (calls (sample tk g))) as F1.
  { unfold sample. destruct (_ <=? _); [|exact F].
    destruct (readIMU_push tk (set_timers (set_lastIMUread (now tk) (timers g)) g))
      as (row & ->). apply opening_first_cons; [discriminate|exact F]. }
  unfold loop. destruct (currentState (sample tk g)).
  - exact F1.
  - apply (opening_first_classify true (now tk)) in F1.
    unfold redraw_main, idle_timeout.
    destruct (IDLE_TIMEOUT_MS <=? _); destruct (ANIM_INTERVAL_MS <=? _);
      first [exact F1 | apply opening_first_cons; [discriminate|exact F1]].
  - apply (opening_first_classify false (now tk)) in F1.
    unfold flash_timeout. destruct (FLASH_DURATION_MS <=? _); [|exact F1].
    apply opening_first_cons; [discriminate|exact F1].
  - apply opening_first_classify. unfold animate_idle.
    destruct (ANIM_INTERVAL_MS <=? _); [|exact F1].
    apply opening_first_cons; [discriminate|exact F1].
Qed.

(** X24.  The opening plays once.  In every execution from [setup] the
    call of [playAnim] made by [setup] is the oldest entry of the call
    history and [loop] never calls it again, and the state is never
    [STATE_OPENING]: the [default] branch of the [switch] in [loop] is
    not taken. *)
Theorem opening_animation_plays_once
    (imu_ok display_ok : bool) (t1 t2 t3 t4 : Z) (g0 : Globals) (tks : list Tick) :
  setup imu_ok display_ok t1 t2 t3 t4 = Some g0 ->
  let g := run tks g0 in
  currentState g <> STATE_OPENING /\ opening_first (calls g).
Proof.
  intros S g.
  assert (currentState g0 <> STATE_OPENING /\ opening_first (calls g0)) as INV.
  { revert S. unfold setup. destruct imu_ok, display_ok; cbn; try discriminate.
    intros [= <-]. split; [discriminate|reflexivity]. }
  clear S. subst g. revert g0 INV.
  induction tks as [|tk tks IH]; intros g0 INV; [exact INV|].
  cbn. apply IH. split; [apply loop_not_opening|].
  apply opening_first_loop. exact (proj2 INV).
Qed.

End Sketch.

(** ** The build of the repository *)

Module Build.

(** Modelled from the spec: the values that the absent header
    [table_tennis_2_inferencing.h] gives to its three constants.  The
    window is 25 samples of 6 channels (a frame of 150 scalars), and the
    label space has the five stroke categories and the idle label. *)
Definition EI_CLASSIFIER_RAW_SAMPLES_PER_FRAME : Z := 6.
Definition EI_CLASSIFIER_DSP_INPUT_FRAME_SIZE : Z := 25 * EI_CLASSIFIER_RAW_SAMPLES_PER_FRAME.
Definition EI_CLASSIFIER_LABEL_COUNT : Z := 6.

(** Stand-ins for the SDK, used to run the sketch on examples: a
    [signal_from_buffer] that wraps the frame, a classifier that always
    answers label 0 with confidence 0.9, and one that always fails. *)
Definition signal_ok (frame : list F32.t) (n : Z) : option (list F32.t) := Some frame.
Definition classifier_sure (signal : list F32.t) : option (list F32.t) :=
  Some [F32.decimal 9 10; F32.zero; F32.zero; F32.zero; F32.zero; F32.decimal 1 10].
Definition classifier_broken (signal : list F32.t) : option (list F32.t) := None.

(** Readings, in g: the bat at rest, and a swing of 3 g. *)
Definition at_rest : F32.t * F32.t * F32.t := (F32.zero, F32.zero, F32.of_Z 1).
Definition swing : F32.t * F32.t * F32.t := (F32.of_Z 3, F32.zero, F32.zero).

(** The pass number [k], 20 ms after the one before. *)
Definition tick (k : Z) (a : option (F32.t * F32.t * F32.t)) : Tick :=
  {| now := SAMPLE_INTERVAL_MS * k; accel := a;
     gyro := match a with Some _ => Some (F32.zero, F32.zero, F32.zero) | None => None end;
     millis_draw := SAMPLE_INTERVAL_MS * k |}.

(** Passes [from+1 .. from+n], all with the same reading. *)
Definition ticks (from : Z) (n : nat) (a : option (F32.t * F32.t * F32.t)) : list Tick :=
  map (fun i => tick (from + 1 + Z.of_nat i) a) (seq 0 n).

Definition W : Z :=
  WINDOW_SAMPLES EI_CLASSIFIER_DSP_INPUT_FRAME_SIZE EI_CLASSIFIER_RAW_SAMPLES_PER_FRAME.

(** The sketch with the constants of the build. *)
Definition sketch_loop sfb clf : Tick -> Globals -> Globals :=
  loop EI_CLASSIFIER_DSP_INPUT_FRAME_SIZE EI_CLASSIFIER_RAW_SAMPLES_PER_FRAME
    EI_CLASSIFIER_LABEL_COUNT sfb clf.
Definition sketch_run sfb clf : list Tick -> Globals -> Globals :=
  run EI_CLASSIFIER_DSP_INPUT_FRAME_SIZE EI_CLASSIFIER_RAW_SAMPLES_PER_FRAME
    EI_CLASSIFIER_LABEL_COUNT sfb clf.
Definition sketch_sample : Tick -> Globals -> Globals :=
  sample EI_CLASSIFIER_DSP_INPUT_FRAME_SIZE EI_CLASSIFIER_RAW_SAMPLES_PER_FRAME.
Definition sketch_classify sfb clf : bool -> Z -> Globals -> Globals :=
  classify EI_CLASSIFIER_DSP_INPUT_FRAME_SIZE EI_CLASSIFIER_RAW_SAMPLES_PER_FRAME
    EI_CLASSIFIER_LABEL_COUNT sfb clf.
Definition sketch_infer sfb clf (g : Globals) : InferenceResult * Globals :=
  runInference EI_CLASSIFIER_DSP_INPUT_FRAME_SIZE EI_CLASSIFIER_RAW_SAMPLES_PER_FRAME
    EI_CLASSIFIER_LABEL_COUNT sfb clf
    (hop_taken EI_CLASSIFIER_DSP_INPUT_FRAME_SIZE EI_CLASSIFIER_RAW_SAMPLES_PER_FRAME g).

(** After [setup] with the clock at 0. *)
Definition started : Globals :=
  set_currentState STATE_MAIN
    (call CallPlayAnim
       (power_on EI_CLASSIFIER_DSP_INPUT_FRAME_SIZE EI_CLASSIFIER_RAW_SAMPLES_PER_FRAME)).

(** 24 samples at rest taken, one short of a full ring. *)
Definition nearly_full : Globals :=
  sketch_run signal_ok classifier_sure (ticks 0 24 (Some at_rest)) started.

(** In [STATE_FLASH], after a swing accepted with the 25th sample. *)
Definition flashing : Globals :=
  sketch_loop signal_ok classifier_sure (tick 25 (Some swing)) nearly_full.

(** At the [switch] of the pass that stores the 25th sample, a swing. *)
Definition at_switch : Globals := sketch_sample (tick 25 (Some swing)) nearly_full.

(** 25 samples at rest taken: the ring is full, the cursor back at 0. *)
Definition full_at_rest : Globals :=
  sketch_run signal_ok classifier_sure (ticks 0 25 (Some at_rest)) started.

(** A classifier that answers label 0 with a confidence of exactly 0.50. *)
Definition classifier_at_threshold (signal : list F32.t) : option (list F32.t) :=
  Some [F32.decimal 50 100; F32.zero; F32.zero; F32.zero; F32.zero; F32.zero].

(** A swing of 2 g along y and 2 g along z, nothing along x, stored as
    the 25th sample. *)
Definition swing_yz : F32.t * F32.t * F32.t := (F32.zero, F32.of_Z 2, F32.of_Z 2).
Definition at_switch_yz : Globals := sketch_sample (tick 25 (Some swing_yz)) nearly_full.

(** A pass at the time [ms] in which the IMU has nothing to offer. *)
Definition pass_at (ms : Z) : Tick :=
  {| now := ms; accel := None; gyro := None; millis_draw := ms |}.

(** A classifier that gives labels 1 and 3 the same, highest score. *)
Definition classifier_tied (signal : list F32.t) : option (list F32.t) :=
  Some [F32.decimal 1 10; F32.decimal 9 10; F32.zero; F32.decimal 9 10; F32.zero; F32.zero].

(** 24 passes at rest and then swings: the 25th sample, and with
    [two_swings] the 26th as well. *)
Definition one_swing : list Tick := ticks 0 24 (Some at_rest) ++ [tick 25 (Some swing)].
Definition two_swings : list Tick := one_swing ++ [tick 26 (Some swing)].

(** Three passes at rest, 10 s after [setup] and 200 ms apart. *)
Definition long_rest : list Tick :=
  [tick 500 (Some at_rest); tick 510 (Some at_rest); tick 520 (Some at_rest)].

(** After a [setup] that ends 20 ms before the clock of [millis] rolls over. *)
Definition started_late : Globals :=
  set_timers (set_lastIMUread (2 ^ 32 - 20) (timers started)) started.

Ltac by_computation :=
  vm_compute; repeat split; first [reflexivity | discriminate | congruence].

Lemma setup_started :
  setup EI_CLASSIFIER_DSP_INPUT_FRAME_SIZE EI_CLASSIFIER_RAW_SAMPLES_PER_FRAME
    true true 0 0 0 0 = Some started.
Proof. reflexivity. Qed.

(** *** The scenario of the specification: W = 25, hop = 13 *)

(** C8, as the sketch has it.  In the build with a window of 25 samples
    and a hop of 13, start from [setup] in [STATE_MAIN] with an empty
    ring and let every sample stay below the 2 g threshold, the idle
    timeout not being reached.  Whatever the classifier answers (a
    confidence of 0.9 for a stroke label included), the plausibility
    gate fails on the window, no counter moves and the state stays
    [STATE_MAIN]; while fewer than 25 samples are stored, so after 13 of
    them, [runInference] has not been entered at all, and when 25 are
    stored it has been entered exactly once. *)
Theorem quiet_scenario_25_13
    (sfb : list F32.t -> Z -> option (list F32.t))
    (clf : list F32.t -> option (list F32.t))
    (t1 t2 t3 t4 : Z) (g0 : Globals) (tks : list Tick) :
  setup EI_CLASSIFIER_DSP_INPUT_FRAME_SIZE EI_CLASSIFIER_RAW_SAMPLES_PER_FRAME
    true true t1 t2 t3 t4 = Some g0 ->
  Forall below_threshold tks ->
  Forall (fun tk => u32 (now tk - t4) < IDLE_TIMEOUT_MS) tks ->
  let g := sketch_run sfb clf tks g0 in
  let stored := Z.of_nat (length (stored_rows (calls g))) in
  W = 25 /\
  HOP_SAMPLES EI_CLASSIFIER_DSP_INPUT_FRAME_SIZE EI_CLASSIFIER_RAW_SAMPLES_PER_FRAME = 13 /\
  currentState g0 = STATE_MAIN /\ sampleCount (ring g0) = 0 /\
  currentState g = STATE_MAIN /\
  counts g = counts g0 /\
  accelAboveThreshold EI_CLASSIFIER_DSP_INPUT_FRAME_SIZE EI_CLASSIFIER_RAW_SAMPLES_PER_FRAME g
    = false /\
  (stored < 25 -> inferences (calls g) = 0) /\
  (stored = 13 -> inferences (calls g) = 0) /\
  (stored = 25 -> inferences (calls g) = 1).
Proof.
  intros S BT TM g stored.
  assert (W = 25) as EW by reflexivity.
  assert (HOP_SAMPLES EI_CLASSIFIER_DSP_INPUT_FRAME_SIZE
            EI_CLASSIFIER_RAW_SAMPLES_PER_FRAME = 13) as EH by reflexivity.
  assert (3 <= AXIS_COUNT EI_CLASSIFIER_RAW_SAMPLES_PER_FRAME) as A3 by by_computation.
  assert (0 < W < 2 ^ 16) as WR by (rewrite EW; lia).
  assert (W < 2 * HOP_SAMPLES EI_CLASSIFIER_DSP_INPUT_FRAME_SIZE
                    EI_CLASSIFIER_RAW_SAMPLES_PER_FRAME) as ODD by (rewrite EW, EH; lia).
  pose proof (quiet_inv_setup EI_CLASSIFIER_DSP_INPUT_FRAME_SIZE
                EI_CLASSIFIER_RAW_SAMPLES_PER_FRAME t1 t2 t3 t4 g0 A3 (proj1 WR) S) as Q0.
  pose proof (quiet_inv_run EI_CLASSIFIER_DSP_INPUT_FRAME_SIZE
                EI_CLASSIFIER_RAW_SAMPLES_PER_FRAME EI_CLASSIFIER_LABEL_COUNT sfb clf
                _ _ tks g0 WR ODD BT TM Q0) as Q.
  fold (sketch_run sfb clf tks g0) in Q. fold g in Q.
  destruct Q as (ST & C & _ & L & _ & QB & _ & SK & IP & I0 & IF).
  pose proof (quiet_buffer_rejects _ _ g L QB) as REJ.
  cbn zeta in SK, I0, IF. fold stored in SK, I0, IF. fold W in I0, IF.
  rewrite EH in *. rewrite EW in *.
  assert (counts g0 = counts (power_on EI_CLASSIFIER_DSP_INPUT_FRAME_SIZE
                                EI_CLASSIFIER_RAW_SAMPLES_PER_FRAME)) as C0.
  { injection S as <-. reflexivity. }
  assert (currentState g0 = STATE_MAIN /\ sampleCount (ring g0) = 0) as (S0 & F0).
  { injection S as <-. split; reflexivity. }
  repeat split; try assumption; try congruence.
  - intros E. apply I0. lia.
  - intros E. specialize (IF ltac:(lia)). lia.
Qed.

(** *** The properties at work on the build *)

Lemma Forall_ticks (P : Tick -> Prop) from n a :
  (forall k, from < k <= from + Z.of_nat n -> P (tick k a)) -> Forall P (ticks from n a).
Proof.
  intros H. unfold ticks. apply Forall_forall. intros tk I.
  apply list_elem_of_In in I. apply in_map_iff in I. destruct I as (i & <- & I). apply in_seq in I.
  apply H. lia.
Qed.

Lemma decision_gate_conjunctive_witness :
  let g' := sketch_classify signal_ok classifier_sure true 500 at_switch in
  let h' := sketch_classify signal_ok classifier_at_threshold true 500 at_switch in
  hop_due EI_CLASSIFIER_DSP_INPUT_FRAME_SIZE EI_CLASSIFIER_RAW_SAMPLES_PER_FRAME at_switch
    = true /\
  counts at_switch
  = {| countBHdrive := 0; countBHsmash := 0; countFHdrive := 0; countFHloop := 0;
       countFHsmash := 0; totalStrokes := 0 |} /\
  counts g'
  = {| countBHdrive := 1; countBHsmash := 0; countFHdrive := 0; countFHloop := 0;
       countFHsmash := 0; totalStrokes := 1 |} /\
  counts g' = count_stroke 0 (counts at_switch) /\
  totalStrokes (counts g') = u16 (totalStrokes (counts at_switch) + 1) /\
  currentState g' = STATE_FLASH /\
  flashStart (timers g') = 500 /\
  confidence (fst (sketch_infer signal_ok classifier_at_threshold at_switch))
  = F32.decimal 50 100 /\
  counts h' = counts at_switch /\ currentState h' = currentState at_switch.
Proof.
  intros g' h'. split; [by_computation|]. split; [by_computation|].
  split; [by_computation|].
  destruct (decision_gate_conjunctive
              EI_CLASSIFIER_DSP_INPUT_FRAME_SIZE EI_CLASSIFIER_RAW_SAMPLES_PER_FRAME
              EI_CLASSIFIER_LABEL_COUNT signal_ok classifier_sure true 500 at_switch
              ltac:(by_computation) ltac:(by_computation) (or_introl eq_refl))
    as ((_ & ACC) & _).
  destruct ACC as (A1 & A2 & _ & _ & _ & _ & _ & A3 & A4 & _); [by_computation|].
  destruct (decision_gate_conjunctive
              EI_CLASSIFIER_DSP_INPUT_FRAME_SIZE EI_CLASSIFIER_RAW_SAMPLES_PER_FRAME
              EI_CLASSIFIER_LABEL_COUNT signal_ok classifier_at_threshold true 500 at_switch
              ltac:(by_computation) ltac:(by_computation) (or_introl eq_refl))
    as (_ & REJ & EDGE).
  destruct (REJ (EDGE ltac:(by_computation))) as (B1 & B2 & _).
  split; [exact A1|]. split; [exact A2|]. split; [exact A3|]. split; [exact A4|].
  split; [by_computation|]. exact (conj B1 B2).
Defined.

Lemma accelAboveThreshold_iff_some_sample_witness :
  let thr2 :=
    F32.mul (F32.mul (F32.decimal 20 10) (F32.decimal 980665 100000))
            (F32.mul (F32.decimal 20 10) (F32.decimal 980665 100000)) in
  let above (g : Globals) (i : Z) :=
    let ax := cell (cell (imuBuffer (ring g)) i) 0 in
    let ay := cell (cell (imuBuffer (ring g)) i) 1 in
    let az := cell (cell (imuBuffer (ring g)) i) 2 in
    F32.gt (F32.add (F32.add (F32.mul ax ax) (F32.mul ay ay)) (F32.mul az az)) thr2 in
  let gate := accelAboveThreshold EI_CLASSIFIER_DSP_INPUT_FRAME_SIZE
                EI_CLASSIFIER_RAW_SAMPLES_PER_FRAME in
  W < 2 ^ 16 /\
  gate at_switch = true /\ above at_switch 24 = true /\
  gate at_switch_yz = true /\
  (exists i, 0 <= i < W /\ above at_switch_yz i = true) /\
  gate full_at_rest = false /\
  (forall i, 0 <= i < W -> above full_at_rest i = false).
Proof.
  intros thr2 above gate. split; [by_computation|]. split; [by_computation|].
  split; [by_computation|]. split; [by_computation|].
  split.
  - exact (proj1 (proj1 (accelAboveThreshold_iff_some_sample
                           EI_CLASSIFIER_DSP_INPUT_FRAME_SIZE
                           EI_CLASSIFIER_RAW_SAMPLES_PER_FRAME at_switch_yz
                           ltac:(by_computation)))
             ltac:(by_computation)).
  - split; [by_computation|].
    exact (proj1 (proj2 (accelAboveThreshold_iff_some_sample
                           EI_CLASSIFIER_DSP_INPUT_FRAME_SIZE
                           EI_CLASSIFIER_RAW_SAMPLES_PER_FRAME full_at_rest
                           ltac:(by_computation)))
             ltac:(by_computation)).
Defined.

Lemma no_inference_before_full_witness :
  setup EI_CLASSIFIER_DSP_INPUT_FRAME_SIZE EI_CLASSIFIER_RAW_SAMPLES_PER_FRAME
    true true 0 0 0 0 = Some started /\
  inferences (calls full_at_rest) = 1 /\
  forall later earlier,
    calls full_at_rest = later ++ CallRunInference :: earlier ->
    W <= Z.of_nat (length (stored_rows earlier)).
Proof.
  split; [reflexivity|]. split; [by_computation|].
  exact (proj2 (no_inference_before_full
                  EI_CLASSIFIER_DSP_INPUT_FRAME_SIZE EI_CLASSIFIER_RAW_SAMPLES_PER_FRAME
                  EI_CLASSIFIER_LABEL_COUNT signal_ok classifier_sure
                  true true 0 0 0 0 started (ticks 0 25 (Some at_rest)) eq_refl)).
Defined.

Lemma hop_counter_subtracts_hop_witness :
  let tk := tick 25 (Some at_rest) in
  hop_due EI_CLASSIFIER_DSP_INPUT_FRAME_SIZE EI_CLASSIFIER_RAW_SAMPLES_PER_FRAME
    (sketch_sample tk nearly_full) = true /\
  sampleCounter (ring (sketch_sample tk nearly_full)) = 25 /\
  sampleCounter (ring (sketch_loop signal_ok classifier_sure tk nearly_full))
  = sampleCounter (ring (sketch_sample tk nearly_full))
    - HOP_SAMPLES EI_CLASSIFIER_DSP_INPUT_FRAME_SIZE EI_CLASSIFIER_RAW_SAMPLES_PER_FRAME.
Proof.
  intros tk. split; [by_computation|]. split; [by_computation|].
  exact (proj1 (proj2 (hop_counter_subtracts_hop
                  EI_CLASSIFIER_DSP_INPUT_FRAME_SIZE EI_CLASSIFIER_RAW_SAMPLES_PER_FRAME
                  EI_CLASSIFIER_LABEL_COUNT signal_ok classifier_sure tk nearly_full
                  ltac:(by_computation) ltac:(by_computation) ltac:(by_computation)
                  ltac:(by_computation)))).
Defined.

Lemma frame_is_window_oldest_first_witness :
  let g := at_switch in
  let g' := snd (sketch_infer signal_ok classifier_sure g) in
  sampleCount (ring g) = W /\
  Z.of_nat (length (sig g')) = W * EI_CLASSIFIER_RAW_SAMPLES_PER_FRAME /\
  (forall i j, 0 <= i < W -> 0 <= j < EI_CLASSIFIER_RAW_SAMPLES_PER_FRAME ->
     cell (sig g') (i * EI_CLASSIFIER_RAW_SAMPLES_PER_FRAME + j)
     = cell (cell (stored_rows (calls g)) (W - 1 - i)) j).
Proof.
  intros g g'. split; [by_computation|].
  destruct (frame_is_window_oldest_first
              EI_CLASSIFIER_DSP_INPUT_FRAME_SIZE EI_CLASSIFIER_RAW_SAMPLES_PER_FRAME
              EI_CLASSIFIER_LABEL_COUNT signal_ok classifier_sure
              true true 0 0 0 0 started (ticks 0 24 (Some at_rest)) (tick 25 (Some swing))
              ltac:(by_computation) ltac:(by_computation) ltac:(by_computation)
              eq_refl)
    as (_ & EX).
  destruct (EX ltac:(by_computation)) as (L & F & _).
  exact (conj L F).
Defined.

Lemma classifier_failure_is_rejected_witness :
  let g' := sketch_classify signal_ok classifier_broken true 500 at_switch in
  hop_due EI_CLASSIFIER_DSP_INPUT_FRAME_SIZE EI_CLASSIFIER_RAW_SAMPLES_PER_FRAME at_switch
    = true /\
  fst (sketch_infer signal_ok classifier_broken at_switch)
    = {| index := 0; confidence := F32.zero |} /\
  counts g' = counts at_switch /\ currentState g' = currentState at_switch.
Proof.
  intros g'. split; [by_computation|].
  destruct (classifier_failure_is_rejected
              EI_CLASSIFIER_DSP_INPUT_FRAME_SIZE EI_CLASSIFIER_RAW_SAMPLES_PER_FRAME
              EI_CLASSIFIER_LABEL_COUNT signal_ok classifier_broken true 500 at_switch
              ltac:(by_computation)
              (or_intror (ex_intro _ _ (conj eq_refl eq_refl))))
    as (I & _ & _ & C & S & _).
  exact (conj I (conj C S)).
Defined.

Lemma unavailable_sensor_stores_zero_row_witness :
  let tk := tick 25 None in
  accel tk = None /\ gyro tk = None /\
  bufIndex (ring (sketch_sample tk nearly_full))
  = wrap EI_CLASSIFIER_DSP_INPUT_FRAME_SIZE EI_CLASSIFIER_RAW_SAMPLES_PER_FRAME
      (bufIndex (ring nearly_full) + 1) /\
  sampleCount (ring (sketch_sample tk nearly_full))
  = Z.min (sampleCount (ring nearly_full) + 1) W /\
  sampleCounter (ring (sketch_sample tk nearly_full))
  = u16 (sampleCounter (ring nearly_full) + 1).
Proof.
  intros tk. split; [reflexivity|]. split; [reflexivity|].
  destruct (unavailable_sensor_stores_zero_row
              EI_CLASSIFIER_DSP_INPUT_FRAME_SIZE EI_CLASSIFIER_RAW_SAMPLES_PER_FRAME
              EI_CLASSIFIER_LABEL_COUNT signal_ok classifier_sure tk nearly_full
              ltac:(by_computation) ltac:(by_computation) ltac:(by_computation)
              eq_refl eq_refl ltac:(by_computation))
    as (_ & B & SC & SK & _).
  exact (conj B (conj SC SK)).
Defined.

Lemma quiet_scenario_25_13_witness :
  Forall below_threshold (ticks 0 25 (Some at_rest)) /\
  Forall (fun tk => u32 (now tk - 0) < IDLE_TIMEOUT_MS) (ticks 0 25 (Some at_rest)) /\
  currentState full_at_rest = STATE_MAIN /\
  counts full_at_rest = counts started /\
  inferences (calls full_at_rest) = 1.
Proof.
  assert (Forall below_threshold (ticks 0 25 (Some at_rest))) as BT.
  { apply Forall_ticks. intros k _. reflexivity. }
  assert (Forall (fun tk => u32 (now tk - 0) < IDLE_TIMEOUT_MS) (ticks 0 25 (Some at_rest)))
    as TM.
  { apply Forall_ticks. intros k K. cbn [now tick]. unfold u32, SAMPLE_INTERVAL_MS,
      IDLE_TIMEOUT_MS. rewrite Z.mod_small; cbn in K; lia. }
  split; [exact BT|]. split; [exact TM|].
  destruct (quiet_scenario_25_13 signal_ok classifier_sure 0 0 0 0 started
              (ticks 0 25 (Some at_rest)) eq_refl BT TM)
    as (_ & _ & _ & _ & S & C & _ & _ & _ & I).
  exact (conj S (conj C (I ltac:(by_computation)))).
Defined.

Lemma flash_reentry_restarts_flash_witness :
  let tk := tick 26 (Some swing) in
  let g' := sketch_loop signal_ok classifier_sure tk flashing in
  currentState flashing = STATE_FLASH /\
  currentState g' = STATE_FLASH /\
  flashStart (timers g') = now tk /\
  u32 (now tk - flashStart (timers g')) = 0.
Proof.
  intros tk g'. split; [by_computation|].
  destruct (flash_reentry_restarts_flash
              EI_CLASSIFIER_DSP_INPUT_FRAME_SIZE EI_CLASSIFIER_RAW_SAMPLES_PER_FRAME
              EI_CLASSIFIER_LABEL_COUNT signal_ok classifier_sure tk flashing
              ltac:(by_computation) ltac:(by_computation) ltac:(by_computation)
              ltac:(by_computation))
    as (S & F & Z0 & _).
  exact (conj S (conj F Z0)).
Defined.

Lemma accepted_at_idle_timeout_ends_idle_witness :
  let tk := tick 500 (Some swing) in
  let g' := sketch_loop signal_ok classifier_sure tk nearly_full in
  currentState nearly_full = STATE_MAIN /\
  IDLE_TIMEOUT_MS <= u32 (now tk - lastStrokeTime (timers nearly_full)) /\
  currentState g' = STATE_IDLE /\
  totalStrokes (counts g') = u16 (totalStrokes (counts nearly_full) + 1) /\
  flashStart (timers g') = now tk.
Proof.
  intros tk g'. split; [by_computation|]. split; [by_computation|].
  destruct (accepted_at_idle_timeout_ends_idle
              EI_CLASSIFIER_DSP_INPUT_FRAME_SIZE EI_CLASSIFIER_RAW_SAMPLES_PER_FRAME
              EI_CLASSIFIER_LABEL_COUNT signal_ok classifier_sure tk nearly_full
              ltac:(by_computation) ltac:(by_computation) ltac:(by_computation)
              ltac:(by_computation))
    as (S & _ & _ & T & F & _).
  exact (conj S (conj T F)).
Defined.

(** *** Further properties at work on the build *)

Lemma flash_expiry_restarts_idle_timer_witness :
  let tk := tick 175 (Some at_rest) in
  let g' := sketch_loop signal_ok classifier_broken tk flashing in
  let later := [tick 300 (Some at_rest); tick 450 (Some at_rest); tick 600 (Some at_rest)] in
  currentState flashing = STATE_FLASH /\
  FLASH_DURATION_MS <= u32 (now tk - flashStart (timers flashing)) /\
  before_idle_timeout (now tk) 0 later /\
  IDLE_TIMEOUT_MS <= u32 (now (tick 600 (Some at_rest)) - lastStrokeTime (timers flashing)) /\
  currentState g' = STATE_MAIN /\
  lastStrokeTime (timers g') = now tk /\
  currentState (sketch_run signal_ok classifier_broken later g') <> STATE_IDLE.
Proof.
  intros tk g' later. split; [by_computation|]. split; [by_computation|].
  split; [by_computation|]. split; [by_computation|].
  destruct (flash_expiry_restarts_idle_timer
              EI_CLASSIFIER_DSP_INPUT_FRAME_SIZE EI_CLASSIFIER_RAW_SAMPLES_PER_FRAME
              EI_CLASSIFIER_LABEL_COUNT signal_ok classifier_broken tk flashing
              ltac:(by_computation) ltac:(by_computation) ltac:(by_computation))
    as (S & _ & L & _ & _ & N).
  exact (conj S (conj L (N later ltac:(by_computation)))).
Defined.

Lemma cursor_and_fill_follow_stored_rows_witness :
  let g := sketch_run signal_ok classifier_sure (ticks 0 40 (Some at_rest)) started in
  let n := Z.of_nat (length (stored_rows (calls g))) in
  0 < W < 2 ^ 16 /\
  bufIndex (ring g) = n mod W /\
  sampleCount (ring g) = Z.min n W.
Proof.
  intros g n. split; [by_computation|].
  exact (cursor_and_fill_follow_stored_rows
           EI_CLASSIFIER_DSP_INPUT_FRAME_SIZE EI_CLASSIFIER_RAW_SAMPLES_PER_FRAME
           EI_CLASSIFIER_LABEL_COUNT signal_ok classifier_sure
           true true 0 0 0 0 started (ticks 0 40 (Some at_rest))
           ltac:(by_computation) eq_refl).
Defined.

Lemma classifications_follow_hop_witness :
  let g := sketch_run signal_ok classifier_sure (ticks 0 40 (Some at_rest)) started in
  let n := Z.of_nat (length (stored_rows (calls g))) in
  let hop := HOP_SAMPLES EI_CLASSIFIER_DSP_INPUT_FRAME_SIZE
               EI_CLASSIFIER_RAW_SAMPLES_PER_FRAME in
  0 < W < 2 ^ 16 /\ W <= n /\ W < 2 * hop /\
  sampleCounter (ring g) = n - hop * inferences (calls g) /\
  inferences (calls g) = n / hop.
Proof.
  intros g n hop. split; [by_computation|]. split; [by_computation|].
  split; [by_computation|].
  destruct (classifications_follow_hop
              EI_CLASSIFIER_DSP_INPUT_FRAME_SIZE EI_CLASSIFIER_RAW_SAMPLES_PER_FRAME
              EI_CLASSIFIER_LABEL_COUNT signal_ok classifier_sure
              true true 0 0 0 0 started (ticks 0 40 (Some at_rest))
              ltac:(by_computation) eq_refl)
    as (_ & FULL).
  destruct (FULL ltac:(by_computation)) as (K & _ & I).
  exact (conj K (I ltac:(by_computation))).
Defined.

Lemma plausibility_gate_sees_recent_rows_witness :
  let g := sketch_run signal_ok classifier_sure one_swing started in
  let n := Z.of_nat (length (stored_rows (calls g))) in
  0 < AXIS_COUNT EI_CLASSIFIER_RAW_SAMPLES_PER_FRAME /\
  accelAboveThreshold EI_CLASSIFIER_DSP_INPUT_FRAME_SIZE
    EI_CLASSIFIER_RAW_SAMPLES_PER_FRAME g = true /\
  exists k, 0 <= k < Z.min n W /\
            F32.gt (sq_magnitude (cell (stored_rows (calls g)) k)) accel_thr2 = true.
Proof.
  intros g n. split; [by_computation|]. split; [by_computation|].
  destruct (plausibility_gate_sees_recent_rows
              EI_CLASSIFIER_DSP_INPUT_FRAME_SIZE EI_CLASSIFIER_RAW_SAMPLES_PER_FRAME
              EI_CLASSIFIER_LABEL_COUNT signal_ok classifier_sure
              true true 0 0 0 0 started one_swing
              ltac:(by_computation) ltac:(by_computation) eq_refl)
    as (ABOVE & _).
  exact (ABOVE ltac:(by_computation)).
Defined.

Lemma flash_messages_rotate_per_category_witness :
  let g := sketch_run signal_ok classifier_sure two_swings started in
  0 < EI_CLASSIFIER_LABEL_COUNT <= 6 /\
  flash_count 0 (calls g) = 2 /\
  (forall later idx msg earlier,
      calls g = later ++ CallDrawFlash idx msg :: earlier ->
      0 <= idx <= 4 /\
      msg = cell (cell encMsgs idx) (flash_count idx earlier mod 2)) /\
  cell (encIndex g) 0 = u8 (flash_count 0 (calls g)).
Proof.
  intros g. split; [by_computation|]. split; [by_computation|].
  destruct (flash_messages_rotate_per_category
              EI_CLASSIFIER_DSP_INPUT_FRAME_SIZE EI_CLASSIFIER_RAW_SAMPLES_PER_FRAME
              EI_CLASSIFIER_LABEL_COUNT signal_ok classifier_sure
              true true 0 0 0 0 started two_swings
              ltac:(by_computation) eq_refl)
    as (M & E).
  exact (conj M (E 0 ltac:(by_computation))).
Defined.

Lemma counters_count_flashes_witness :
  let g := sketch_run signal_ok classifier_sure two_swings started in
  0 < EI_CLASSIFIER_LABEL_COUNT <= 6 /\
  flashes (calls g) = 2 /\
  category_count 0 (counts g) = u16 (flash_count 0 (calls g)) /\
  totalStrokes (counts g) = u16 (flashes (calls g)).
Proof.
  intros g. split; [by_computation|]. split; [by_computation|].
  destruct (counters_count_flashes
              EI_CLASSIFIER_DSP_INPUT_FRAME_SIZE EI_CLASSIFIER_RAW_SAMPLES_PER_FRAME
              EI_CLASSIFIER_LABEL_COUNT signal_ok classifier_sure
              true true 0 0 0 0 started two_swings
              ltac:(by_computation) eq_refl)
    as (C & T & _).
  exact (conj (C 0 ltac:(by_computation)) T).
Defined.

Lemma main_screen_shows_current_counters_witness :
  let g := sketch_run signal_ok classifier_sure (ticks 0 25 (Some at_rest)) started in
  on_screen (calls g) = Some (CallDrawMainScreen (counts started)) /\
  counts started = counts g.
Proof.
  intros g. split; [by_computation|].
  exact (main_screen_shows_current_counters
           EI_CLASSIFIER_DSP_INPUT_FRAME_SIZE EI_CLASSIFIER_RAW_SAMPLES_PER_FRAME
           EI_CLASSIFIER_LABEL_COUNT signal_ok classifier_sure
           true true 0 0 0 0 started (ticks 0 25 (Some at_rest)) eq_refl
           (counts started) ltac:(by_computation)).
Defined.

Lemma redraw_due_paints_over_flash_witness :
  let tk := tick 40 (Some swing) in
  let g' := sketch_loop signal_ok classifier_sure tk nearly_full in
  let later := [pass_at 805; pass_at 810; pass_at 815] in
  currentState nearly_full = STATE_MAIN /\
  u32 (now tk - lastStrokeTime (timers nearly_full)) < IDLE_TIMEOUT_MS /\
  ANIM_INTERVAL_MS <= u32 (now tk - lastDisplay (timers nearly_full)) /\
  quiet_in_flash EI_CLASSIFIER_DSP_INPUT_FRAME_SIZE EI_CLASSIFIER_RAW_SAMPLES_PER_FRAME
    EI_CLASSIFIER_LABEL_COUNT signal_ok classifier_sure (now tk) later g' /\
  counts g'
  = {| countBHdrive := 1; countBHsmash := 0; countFHdrive := 0; countFHloop := 0;
       countFHsmash := 0; totalStrokes := 1 |} /\
  currentState g' = STATE_FLASH /\
  totalStrokes (counts g') = u16 (totalStrokes (counts nearly_full) + 1) /\
  on_screen (calls g') = Some (CallDrawMainScreen (counts g')) /\
  currentState (sketch_run signal_ok classifier_sure later g') = STATE_FLASH /\
  on_screen (calls (sketch_run signal_ok classifier_sure later g'))
  = Some (CallDrawMainScreen (counts g')).
Proof.
  intros tk g' later. split; [by_computation|]. split; [by_computation|].
  split; [by_computation|]. split; [by_computation|]. split; [by_computation|].
  destruct (redraw_due_paints_over_flash
              EI_CLASSIFIER_DSP_INPUT_FRAME_SIZE EI_CLASSIFIER_RAW_SAMPLES_PER_FRAME
              EI_CLASSIFIER_LABEL_COUNT signal_ok classifier_sure tk nearly_full
              ltac:(by_computation) ltac:(by_computation) ltac:(by_computation)
              ltac:(by_computation))
    as (S & _ & T & _ & _ & _ & _ & _ & _ & _ & O & Q).
  destruct (Q later ltac:(by_computation)) as (S2 & _ & O2).
  exact (conj S (conj T (conj O (conj S2 O2)))).
Defined.

Lemma runInference_picks_first_maximum_witness :
  let cl := [F32.decimal 1 10; F32.decimal 9 10; F32.zero; F32.decimal 9 10;
             F32.zero; F32.zero] in
  let inf := fst (runInference EI_CLASSIFIER_DSP_INPUT_FRAME_SIZE
                    EI_CLASSIFIER_RAW_SAMPLES_PER_FRAME EI_CLASSIFIER_LABEL_COUNT
                    signal_ok classifier_tied at_switch) in
  0 < EI_CLASSIFIER_LABEL_COUNT <= 2 ^ 8 /\
  index inf = 1 /\
  confidence inf = cell cl (index inf) /\
  (forall i, is_label_index EI_CLASSIFIER_LABEL_COUNT i ->
             F32.gt (cell cl i) (confidence inf) = false) /\
  (forall i, 0 <= i < index inf -> F32.gt (confidence inf) (cell cl i) = true).
Proof.
  intros cl inf. split; [by_computation|]. split; [by_computation|].
  assert (forall i, is_label_index EI_CLASSIFIER_LABEL_COUNT i -> is_number (cell cl i))
    as NUM.
  { intros i (L & U).
    assert (i = 0 \/ i = 1 \/ i = 2 \/ i = 3 \/ i = 4 \/ i = 5) as C
        by (unfold EI_CLASSIFIER_LABEL_COUNT in U; lia).
    destruct C as [-> | [-> | [-> | [-> | [-> | ->]]]]]; by_computation. }
  destruct (runInference_picks_first_maximum
              EI_CLASSIFIER_DSP_INPUT_FRAME_SIZE EI_CLASSIFIER_RAW_SAMPLES_PER_FRAME
              EI_CLASSIFIER_LABEL_COUNT signal_ok classifier_tied at_switch
              (fill_sig EI_CLASSIFIER_DSP_INPUT_FRAME_SIZE
                 EI_CLASSIFIER_RAW_SAMPLES_PER_FRAME (ring at_switch) (sig at_switch))
              cl ltac:(by_computation) eq_refl eq_refl NUM)
    as (_ & C & M & F).
  exact (conj C (conj M F)).
Defined.

Lemma sampling_is_paced_across_rollover_witness :
  let tk := tick 1 (Some at_rest) in
  0 <= lastIMUread (timers started_late) < 2 ^ 32 /\
  now tk = u32 (lastIMUread (timers started_late) + 40) /\
  now tk < lastIMUread (timers started_late) /\
  (exists row,
      stored_rows (calls (sketch_loop signal_ok classifier_sure tk started_late))
      = row :: stored_rows (calls started_late)) /\
  lastIMUread (timers (sketch_sample tk started_late)) = now tk.
Proof.
  intros tk. split; [by_computation|]. split; [by_computation|].
  split; [by_computation|].
  destruct (sampling_is_paced_across_rollover
              EI_CLASSIFIER_DSP_INPUT_FRAME_SIZE EI_CLASSIFIER_RAW_SAMPLES_PER_FRAME
              EI_CLASSIFIER_LABEL_COUNT signal_ok classifier_sure tk started_late 40
              ltac:(by_computation) ltac:(by_computation) ltac:(by_computation))
    as (_ & DUE).
  exact (DUE ltac:(by_computation)).
Defined.

Lemma idle_animation_stays_at_base_witness :
  let g := sketch_run signal_ok classifier_sure long_rest started in
  Forall (fun tk => u32 (millis_draw tk - now tk) < ANIM_INTERVAL_MS) long_rest /\
  In (CallDrawIdle false) (calls g) /\
  forall up, In (CallDrawIdle up) (calls g) -> up = false.
Proof.
  intros g.
  assert (Forall (fun tk => u32 (millis_draw tk - now tk) < ANIM_INTERVAL_MS) long_rest)
    as F by (repeat constructor).
  split; [exact F|].
  split; [vm_compute; repeat (first [left; reflexivity | right])|].
  exact (idle_animation_stays_at_base
           EI_CLASSIFIER_DSP_INPUT_FRAME_SIZE EI_CLASSIFIER_RAW_SAMPLES_PER_FRAME
           EI_CLASSIFIER_LABEL_COUNT signal_ok classifier_sure
           true true 0 0 0 0 started long_rest eq_refl F).
Defined.

Lemma idle_prompt_waits_one_interval_witness :
  let tk := tick 500 (Some at_rest) in
  let tk2 := tick 510 (Some at_rest) in
  let g' := sketch_loop signal_ok classifier_sure tk nearly_full in
  currentState nearly_full = STATE_MAIN /\
  IDLE_TIMEOUT_MS <= u32 (now tk - lastStrokeTime (timers nearly_full)) /\
  ANIM_INTERVAL_MS <= u32 (now tk2 - now tk) /\
  currentState g' = STATE_IDLE /\
  idle_draws (calls g') = idle_draws (calls nearly_full) /\
  idle_draws (calls (sketch_loop signal_ok classifier_sure tk2 g'))
  = 1 + idle_draws (calls nearly_full).
Proof.
  intros tk tk2 g'. split; [by_computation|]. split; [by_computation|].
  split; [by_computation|].
  destruct (idle_prompt_waits_one_interval
              EI_CLASSIFIER_DSP_INPUT_FRAME_SIZE EI_CLASSIFIER_RAW_SAMPLES_PER_FRAME
              EI_CLASSIFIER_LABEL_COUNT signal_ok classifier_sure tk tk2 nearly_full
              ltac:(by_computation) ltac:(by_computation))
    as (S & _ & I & _ & DUE).
  exact (conj S (conj I (proj1 (DUE ltac:(by_computation))))).
Defined.

Lemma opening_animation_plays_once_witness :
  let g := sketch_run signal_ok classifier_sure two_swings started in
  currentState g = STATE_FLASH /\
  currentState g <> STATE_OPENING /\ opening_first (calls g).
Proof.
  intros g. split; [by_computation|].
  exact (opening_animation_plays_once
           EI_CLASSIFIER_DSP_INPUT_FRAME_SIZE EI_CLASSIFIER_RAW_SAMPLES_PER_FRAME
           EI_CLASSIFIER_LABEL_COUNT signal_ok classifier_sure
           true true 0 0 0 0 started two_swings eq_refl).
Defined.

(** *** Where the sketch departs from the specification *)

(** Against C6 as stated: the answer of [runInference] to a failing
    classifier does not pair confidence 0 with a non-label index; its
    index 0 is the index of the first label. *)
Lemma classifier_failure_index_is_a_label :
  let inf := fst (sketch_infer signal_ok classifier_broken at_switch) in
  ~ (confidence inf = F32.zero /\ ~ is_label_index EI_CLASSIFIER_LABEL_COUNT (index inf)).
Proof.
  intros inf (_ & N). apply N. by_computation.
Qed.

(** Against C7 as stated: on a pass in which the IMU has no reading,
    the ring does advance.  With the ring full of samples at rest, the
    oldest of them is overwritten by a row of zeros and the cursor
    moves from slot 0 to slot 1; one sample earlier, the filled counter
    goes from 24 to 25 and the hop counter from 24 to 25 as well. *)
Lemma unavailable_sensor_advances_ring :
  let tk := tick 26 None in
  let g' := sketch_sample tk full_at_rest in
  let h' := sketch_sample (tick 25 None) nearly_full in
  accel tk = None /\ gyro tk = None /\
  bufIndex (ring full_at_rest) = 0 /\ bufIndex (ring g') = 1 /\
  cell (imuBuffer (ring full_at_rest)) 0
    = [F32.zero; F32.zero; CONVERT_G_TO_MS2; F32.zero; F32.zero; F32.zero] /\
  cell (imuBuffer (ring g')) 0
    = [F32.zero; F32.zero; F32.zero; F32.zero; F32.zero; F32.zero] /\
  imuBuffer (ring (sketch_loop signal_ok classifier_sure tk full_at_rest))
    <> imuBuffer (ring full_at_rest) /\
  sampleCount (ring nearly_full) = 24 /\ sampleCount (ring h') = 25 /\
  sampleCounter (ring nearly_full) = 24 /\ sampleCounter (ring h') = 25.
Proof.
  by_computation.
Qed.

(** Against C8 as stated: after 13 samples below 2 g, fed from an empty
    ring in [STATE_MAIN], [runInference] has not been called. *)
Lemma no_classifier_call_after_13_samples :
  let g := sketch_run signal_ok classifier_sure (ticks 0 13 (Some at_rest)) started in
  Forall below_threshold (ticks 0 13 (Some at_rest)) /\
  length (stored_rows (calls g)) = 13%nat /\
  ~ In CallRunInference (calls g) /\
  inferences (calls g) = 0.
Proof.
  intros g. split; [apply Forall_ticks; intros k _; reflexivity|].
  split; [by_computation|]. split; [|by_computation].
  vm_compute. intuition discriminate.
Qed.

End Build.

(** * The data-collection sketch

    The second sketch of the repository,
    [table-tennis-data-collection-bluetooth.ino]: it samples the IMU
    into a ring of 25 records, detects a swing on the newest reading and,
    400 ms later, sends the ring over Bluetooth LE as text lines.

    [unsigned long] is 32 bits wide on the board and is modelled like
    [uint32_t] above; [int] values are integers in [Z] ([swingCount++]
    is undefined in C++ beyond [INT_MAX], where the model goes on
    counting).  Every [millis()] in the text is a reading of its own.
    [String(x, 3)] and the layout of a line belong to the Arduino core:
    the log keeps the values a line is printed from.  The global
    [swingStartTime] is neither read nor written and is left out. *)

Module Collector.

(** ** Configuration (lines 27-39) *)

Definition SAMPLE_INTERVAL_MS : Z := 20.
Definition PRE_TRIGGER_MS : Z := 100.
Definition POST_TRIGGER_MS : Z := 400.
Definition TOTAL_WINDOW_MS : Z := 500.
Definition PRE_TRIGGER_SAMPLES : Z := Z.quot PRE_TRIGGER_MS SAMPLE_INTERVAL_MS.
Definition POST_TRIGGER_SAMPLES : Z := Z.quot POST_TRIGGER_MS SAMPLE_INTERVAL_MS.
Definition TOTAL_SAMPLES : Z := Z.quot TOTAL_WINDOW_MS SAMPLE_INTERVAL_MS.

(** [2.0] and [200.0] are [double] literals; a [float] compared with
    them is widened without rounding, and both are binary32 numbers, so
    the comparisons are the binary32 ones. *)
Definition ACCEL_THRESHOLD : F32.t := Eval vm_compute in F32.of_Z 2.
Definition GYRO_THRESHOLD : F32.t := Eval vm_compute in F32.of_Z 200.
Definition COOLDOWN_MS : Z := 200.

(** ** Data (lines 41-69) *)

Record IMUData := {
  timestamp : Z;
  accelX : F32.t; accelY : F32.t; accelZ : F32.t;
  gyroX : F32.t; gyroY : F32.t; gyroZ : F32.t
}.

(** A record of the zero-initialised global array. *)
Definition zero_record : IMUData :=
  {| timestamp := 0; accelX := F32.zero; accelY := F32.zero; accelZ := F32.zero;
     gyroX := F32.zero; gyroY := F32.zero; gyroZ := F32.zero |}.

#[global] Instance IMUData_inhabited : Inhabited IMUData := populate zero_record.

(** What [updateDisplay] and [setup] put on the display. *)
Inductive Screen :=
| ScreenInitializing
| ScreenWaiting
| ScreenConnected (swings minutes : Z) (pad : bool) (seconds : Z) (capturing : bool).

(** What the sketch sends out, newest first: the lines printed on
    [Serial], the values written to the BLE characteristic and the
    screens; [Stored] marks a record written into the ring. *)
Inductive Out :=
| Stored (d : IMUData)
| MsgConnected
| MsgDisconnected
| MsgSwingDetected
| MsgTransmitting
| MsgTransmitted (n : Z)
| WriteHeader (n : Z) (t : Z)
| WriteLine (relativeTime : Z) (d : IMUData)
| WriteEnd
| Show (s : Screen).

Record Vars := {
  circularBuffer : list IMUData;
  bufferIndex : Z;
  bufferFull : bool;
  swingDetected : bool;
  triggerIndex : Z;
  lastSwingTime : Z;
  triggerTime : Z;
  swingCount : Z;
  sessionStartTime : Z;
  lastSampleTime : Z;
  lastDisplayUpdate : Z;
  bleConnected : bool;
  out : list Out
}.

Definition set_circularBuffer (v : list IMUData) (g : Vars) : Vars :=
  {| circularBuffer := v; bufferIndex := bufferIndex g; bufferFull := bufferFull g;
     swingDetected := swingDetected g; triggerIndex := triggerIndex g;
     lastSwingTime := lastSwingTime g; triggerTime := triggerTime g;
     swingCount := swingCount g; sessionStartTime := sessionStartTime g;
     lastSampleTime := lastSampleTime g; lastDisplayUpdate := lastDisplayUpdate g;
     bleConnected := bleConnected g; out := out g |}.
Definition set_bufferIndex (v : Z) (g : Vars) : Vars :=
  {| circularBuffer := circularBuffer g; bufferIndex := v; bufferFull := bufferFull g;
     swingDetected := swingDetected g; triggerIndex := triggerIndex g;
     lastSwingTime := lastSwingTime g; triggerTime := triggerTime g;
     swingCount := swingCount g; sessionStartTime := sessionStartTime g;
     lastSampleTime := lastSampleTime g; lastDisplayUpdate := lastDisplayUpdate g;
     bleConnected := bleConnected g; out := out g |}.
Definition set_bufferFull (v : bool) (g : Vars) : Vars :=
  {| circularBuffer := circularBuffer g; bufferIndex := bufferIndex g; bufferFull := v;
     swingDetected := swingDetected g; triggerIndex := triggerIndex g;
     lastSwingTime := lastSwingTime g; triggerTime := triggerTime g;
     swingCount := swingCount g; sessionStartTime := sessionStartTime g;
     lastSampleTime := lastSampleTime g; lastDisplayUpdate := lastDisplayUpdate g;
     bleConnected := bleConnected g; out := out g |}.
Definition set_swingDetected (v : bool) (g : Vars) : Vars :=
  {| circularBuffer := circularBuffer g; bufferIndex := bufferIndex g;
     bufferFull := bufferFull g; swingDetected := v; triggerIndex := triggerIndex g;
     lastSwingTime := lastSwingTime g; triggerTime := triggerTime g;
     swingCount := swingCount g; sessionStartTime := sessionStartTime g;
     lastSampleTime := lastSampleTime g; lastDisplayUpdate := lastDisplayUpdate g;
     bleConnected := bleConnected g; out := out g |}.
Definition set_triggerIndex (v : Z) (g : Vars) : Vars :=
  {| circularBuffer := circularBuffer g; bufferIndex := bufferIndex g;
     bufferFull := bufferFull g; swingDetected := swingDetected g; triggerIndex := v;
     lastSwingTime := lastSwingTime g; triggerTime := triggerTime g;
     swingCount := swingCount g; sessionStartTime := sessionStartTime g;
     lastSampleTime := lastSampleTime g; lastDisplayUpdate := lastDisplayUpdate g;
     bleConnected := bleConnected g; out := out g |}.
Definition set_lastSwingTime (v : Z) (g : Vars) : Vars :=
  {| circularBuffer := circularBuffer g; bufferIndex := bufferIndex g;
     bufferFull := bufferFull g; swingDetected := swingDetected g;
     triggerIndex := triggerIndex g; lastSwingTime := v; triggerTime := triggerTime g;
     swingCount := swingCount g; sessionStartTime := sessionStartTime g;
     lastSampleTime := lastSampleTime g; lastDisplayUpdate := lastDisplayUpdate g;
     bleConnected := bleConnected g; out := out g |}.
Definition set_triggerTime (v : Z) (g : Vars) : Vars :=
  {| circularBuffer := circularBuffer g; bufferIndex := bufferIndex g;
     bufferFull := bufferFull g; swingDetected := swingDetected g;
     triggerIndex := triggerIndex g; lastSwingTime := lastSwingTime g; triggerTime := v;
     swingCount := swingCount g; sessionStartTime := sessionStartTime g;
     lastSampleTime := lastSampleTime g; lastDisplayUpdate := lastDisplayUpdate g;
     bleConnected := bleConnected g; out := out g |}.
Definition set_swingCount (v : Z) (g : Vars) : Vars :=
  {| circularBuffer := circularBuffer g; bufferIndex := bufferIndex g;
     bufferFull := bufferFull g; swingDetected := swingDetected g;
     triggerIndex := triggerIndex g; lastSwingTime := lastSwingTime g;
     triggerTime := triggerTime g; swingCount := v;
     sessionStartTime := sessionStartTime g;
     lastSampleTime := lastSampleTime g; lastDisplayUpdate := lastDisplayUpdate g;
     bleConnected := bleConnected g; out := out g |}.
Definition set_sessionStartTime (v : Z) (g : Vars) : Vars :=
  {| circularBuffer := circularBuffer g; bufferIndex := bufferIndex g;
     bufferFull := bufferFull g; swingDetected := swingDetected g;
     triggerIndex := triggerIndex g; lastSwingTime := lastSwingTime g;
     triggerTime := triggerTime g; swingCount := swingCount g; sessionStartTime := v;
     lastSampleTime := lastSampleTime g; lastDisplayUpdate := lastDisplayUpdate g;
     bleConnected := bleConnected g; out := out g |}.
Definition set_lastSampleTime (v : Z) (g : Vars) : Vars :=
  {| circularBuffer := circularBuffer g; bufferIndex := bufferIndex g;
     bufferFull := bufferFull g; swingDetected := swingDetected g;
     triggerIndex := triggerIndex g; lastSwingTime := lastSwingTime g;
     triggerTime := triggerTime g; swingCount := swingCount g;
     sessionStartTime := sessionStartTime g;
     lastSampleTime := v; lastDisplayUpdate := lastDisplayUpdate g;
     bleConnected := bleConnected g; out := out g |}.
Definition set_lastDisplayUpdate (v : Z) (g : Vars) : Vars :=
  {| circularBuffer := circularBuffer g; bufferIndex := bufferIndex g;
     bufferFull := bufferFull g; swingDetected := swingDetected g;
     triggerIndex := triggerIndex g; lastSwingTime := lastSwingTime g;
     triggerTime := triggerTime g; swingCount := swingCount g;
     sessionStartTime := sessionStartTime g;
     lastSampleTime := lastSampleTime g; lastDisplayUpdate := v;
     bleConnected := bleConnected g; out := out g |}.
Definition set_bleConnected (v : bool) (g : Vars) : Vars :=
  {| circularBuffer := circularBuffer g; bufferIndex := bufferIndex g;
     bufferFull := bufferFull g; swingDetected := swingDetected g;
     triggerIndex := triggerIndex g; lastSwingTime := lastSwingTime g;
     triggerTime := triggerTime g; swingCount := swingCount g;
     sessionStartTime := sessionStartTime g;
     lastSampleTime := lastSampleTime g; lastDisplayUpdate := lastDisplayUpdate g;
     bleConnected := v; out := out g |}.
Definition emit (o : Out) (g : Vars) : Vars :=
  {| circularBuffer := circularBuffer g; bufferIndex := bufferIndex g;
     bufferFull := bufferFull g; swingDetected := swingDetected g;
     triggerIndex := triggerIndex g; lastSwingTime := lastSwingTime g;
     triggerTime := triggerTime g; swingCount := swingCount g;
     sessionStartTime := sessionStartTime g;
     lastSampleTime := lastSampleTime g; lastDisplayUpdate := lastDisplayUpdate g;
     bleConnected := bleConnected g; out := o :: out g |}.

(** What one pass through [loop] reads from the outside. *)
Record Pass := {
  central : bool;                            (* BLE.central() is a connected device *)
  imu_accel : option (F32.t * F32.t * F32.t);  (* None: accelerationAvailable() is false *)
  imu_gyro : option (F32.t * F32.t * F32.t);   (* None: gyroscopeAvailable() is false *)
  ms_connect : Z;           (* millis() at line 137 *)
  ms_connect_screen : Z;    (* line 256, updateDisplay called at line 140 *)
  ms_sample_due : Z;        (* line 150 *)
  ms_sample : Z;            (* line 151 *)
  ms_stamp : Z;             (* line 170 *)
  ms_cooldown : Z;          (* line 182 *)
  ms_trigger : Z;           (* line 188 *)
  ms_lastSwing : Z;         (* line 190 *)
  ms_post : Z;              (* line 197 *)
  ms_display_due : Z;       (* line 156 *)
  ms_display : Z;           (* line 157 *)
  ms_display_screen : Z     (* line 256, updateDisplay called at line 158 *)
}.

(** ** The sketch *)

(** [sqrt(x*x + y*y + z*z)] assigned to a [float]: the sum is formed in
    binary32; the root, taken in binary32 or taken in [double] and then
    rounded, is the correctly rounded binary32 root either way. *)
Definition magnitude (x y z : F32.t) : F32.t :=
  SFsqrt F32.prec F32.emax (F32.add (F32.add (F32.mul x x) (F32.mul y y)) (F32.mul z z)).

(** [updateDisplay] (lines 242-272), [ms] being its [millis()]. *)
Definition updateDisplay (ms : Z) (g : Vars) : Vars :=
  if negb (bleConnected g) then emit (Show ScreenWaiting) g
  else
    let sessionTime := Z.quot (u32 (ms - sessionStartTime g)) 1000 in
    emit (Show (ScreenConnected (swingCount g) (Z.quot sessionTime 60)
                  (Z.rem sessionTime 60 <? 10) (Z.rem sessionTime 60)
                  (swingDetected g))) g.

(** [captureAndTransmitSwing] (lines 206-240). *)
Definition captureAndTransmitSwing (g : Vars) : Vars :=
  let g := emit MsgTransmitting g in
  let g := emit (WriteHeader (swingCount g + 1) (triggerTime g)) g in
  let startIndex :=
    Z.rem (triggerIndex g - PRE_TRIGGER_SAMPLES + TOTAL_SAMPLES) TOTAL_SAMPLES in
  let g :=
    for_loop (Z.to_nat TOTAL_SAMPLES) 0
      (fun i g =>
         let dataIndex := Z.rem (startIndex + i) TOTAL_SAMPLES in
         let relativeTime := i * SAMPLE_INTERVAL_MS in
         emit (WriteLine relativeTime (cell (circularBuffer g) dataIndex)) g)
      g in
  let g := emit WriteEnd g in
  emit (MsgTransmitted (swingCount g + 1)) g.

(** Lines 170-179 of [sampleIMU]: the record goes into the ring. *)
Definition store_sample (tk : Pass) (a w : F32.t * F32.t * F32.t) (g : Vars) : Vars :=
  let '(ax, ay, az) := a in
  let '(gx, gy, gz) := w in
  let d := {| timestamp := ms_stamp tk; accelX := ax; accelY := ay; accelZ := az;
              gyroX := gx; gyroY := gy; gyroZ := gz |} in
  let g := set_circularBuffer (store (circularBuffer g) (bufferIndex g) d) g in
  let g := emit (Stored d) g in
  let g := set_bufferIndex (Z.rem (bufferIndex g + 1) TOTAL_SAMPLES) g in
  if bufferIndex g =? 0 then set_bufferFull true g else g.

(** Lines 182-193: swing detection on the reading just stored. *)
Definition detect (tk : Pass) (a w : F32.t * F32.t * F32.t) (g : Vars) : Vars :=
  let '(ax, ay, az) := a in
  let '(gx, gy, gz) := w in
  if bleConnected g && negb (swingDetected g)
     && (COOLDOWN_MS <? u32 (ms_cooldown tk - lastSwingTime g))
  then
    let totalAccel := magnitude ax ay az in
    let totalGyro := magnitude gx gy gz in
    if F32.gt totalAccel ACCEL_THRESHOLD && F32.gt totalGyro GYRO_THRESHOLD then
      let g := set_swingDetected true g in
      let g := set_triggerTime (ms_trigger tk) g in
      let g := set_triggerIndex
                 (Z.rem (bufferIndex g - 1 + TOTAL_SAMPLES) TOTAL_SAMPLES) g in
      let g := set_lastSwingTime (ms_lastSwing tk) g in
      emit MsgSwingDetected g
    else g
  else g.

(** Lines 196-202: the capture, once the post-trigger time has passed. *)
Definition collect (tk : Pass) (g : Vars) : Vars :=
  if swingDetected g && bleConnected g then
    if POST_TRIGGER_MS <=? u32 (ms_post tk - triggerTime g) then
      let g := captureAndTransmitSwing g in
      let g := set_swingDetected false g in
      set_swingCount (swingCount g + 1) g
    else g
  else g.

(** [sampleIMU] (lines 162-204). *)
Definition sampleIMU (tk : Pass) (g : Vars) : Vars :=
  match imu_accel tk, imu_gyro tk with
  | Some a, Some w => collect tk (detect tk a w (store_sample tk a w g))
  | _, _ => g
  end.

(** The globals as the program starts. *)
Definition power_on : Vars :=
  {| circularBuffer := replicate (Z.to_nat TOTAL_SAMPLES) zero_record;
     bufferIndex := 0; bufferFull := false; swingDetected := false;
     triggerIndex := -1; lastSwingTime := 0; triggerTime := 0; swingCount := 0;
     sessionStartTime := 0; lastSampleTime := 0; lastDisplayUpdate := 0;
     bleConnected := false; out := [] |}.

(** [setup] (lines 71-129): [None] when the display, the IMU or BLE
    fails to start and the sketch spins forever; [t] is its [millis()]. *)
Definition setup (display_ok imu_ok ble_ok : bool) (t : Z) : option Vars :=
  if negb display_ok then None
  else
    let g := emit (Show ScreenInitializing) power_on in
    if negb imu_ok then None
    else if negb ble_ok then None
    else
      let g := set_sessionStartTime t g in
      Some (emit (Show ScreenWaiting) g).

(** Lines 135-141 and 143-147 of [loop]. *)
Definition connect (tk : Pass) (g : Vars) : Vars :=
  if central tk && negb (bleConnected g) then
    let g := set_bleConnected true g in
    let g := set_sessionStartTime (ms_connect tk) g in
    let g := set_swingCount 0 g in
    let g := emit MsgConnected g in
    updateDisplay (ms_connect_screen tk) g
  else g.

Definition disconnect (tk : Pass) (g : Vars) : Vars :=
  if negb (central tk) && bleConnected g then
    let g := set_bleConnected false g in
    let g := emit MsgDisconnected g in
    updateDisplay (ms_connect_screen tk) g
  else g.

(** Lines 150-153 and 156-159. *)
Definition sample (tk : Pass) (g : Vars) : Vars :=
  if SAMPLE_INTERVAL_MS <=? u32 (ms_sample_due tk - lastSampleTime g) then
    sampleIMU tk (set_lastSampleTime (ms_sample tk) g)
  else g.

Definition refresh (tk : Pass) (g : Vars) : Vars :=
  if 500 <=? u32 (ms_display_due tk - lastDisplayUpdate g) then
    updateDisplay (ms_display_screen tk) (set_lastDisplayUpdate (ms_display tk) g)
  else g.

(** [loop] (lines 131-160). *)
Definition loop (tk : Pass) (g : Vars) : Vars :=
  refresh tk (sample tk (disconnect tk (connect tk g))).

(** The sketch after the passes [tks], oldest first. *)
Definition run (tks : list Pass) (g : Vars) : Vars := fold_left (fun g tk => loop tk g) tks g.

(** ** Vocabulary of the properties *)

(** The records written into the ring so far, newest first. *)
Fixpoint stored (l : list Out) : list IMUData :=
  match l with
  | [] => []
  | Stored d :: l => d :: stored l
  | _ :: l => stored l
  end.

(** The record stored [j] records before the newest one; the zero
    record of the initial ring when fewer have been stored. *)
Definition row_at (rows : list IMUData) (j : Z) : IMUData :=
  if j <? Z.of_nat (length rows) then cell rows j else zero_record.

(** How many records were stored after the latest detection, if any. *)
Fixpoint trigger_depth (l : list Out) : option Z :=
  match l with
  | [] => None
  | MsgSwingDetected :: _ => Some 0
  | Stored _ :: l => option_map Z.succ (trigger_depth l)
  | _ :: l => trigger_depth l
  end.

(** A swing was detected and its transmission has not ended. *)
Fixpoint pending (l : list Out) : bool :=
  match l with
  | [] => false
  | MsgSwingDetected :: _ => true
  | WriteEnd :: _ => false
  | _ :: l => pending l
  end.

(** The latest of connection and disconnection is a connection. *)
Fixpoint connected (l : list Out) : bool :=
  match l with
  | [] => false
  | MsgConnected :: _ => true
  | MsgDisconnected :: _ => false
  | _ :: l => connected l
  end.

(** Transmissions ended since the latest connection. *)
Fixpoint sent (l : list Out) : Z :=
  match l with
  | [] => 0
  | MsgConnected :: _ => 0
  | WriteEnd :: l => 1 + sent l
  | _ :: l => sent l
  end.

(** Detections and ended transmissions of the whole history. *)
Fixpoint detections (l : list Out) : Z :=
  match l with
  | [] => 0
  | MsgSwingDetected :: l => 1 + detections l
  | _ :: l => detections l
  end.

Fixpoint transmissions (l : list Out) : Z :=
  match l with
  | [] => 0
  | WriteEnd :: l => 1 + transmissions l
  | _ :: l => transmissions l
  end.

(** The values written to the BLE characteristic, newest first. *)
Fixpoint writes (l : list Out) : list Out :=
  match l with
  | [] => []
  | WriteHeader n t :: l => WriteHeader n t :: writes l
  | WriteLine r d :: l => WriteLine r d :: writes l
  | WriteEnd :: l => WriteEnd :: writes l
  | _ :: l => writes l
  end.

(** The test of line 186 on a record. *)
Definition swing_reading (d : IMUData) : bool :=
  F32.gt (magnitude (accelX d) (accelY d) (accelZ d)) ACCEL_THRESHOLD
  && F32.gt (magnitude (gyroX d) (gyroY d) (gyroZ d)) GYRO_THRESHOLD.

(** What holds of an entry of the history, given the entries before it. *)
Definition entry_ok (e : Out) (earlier : list Out) : Prop :=
  match e with
  | MsgSwingDetected =>
      pending earlier = false /\ connected earlier = true /\
      exists d rest, stored earlier = d :: rest /\ swing_reading d = true
  | WriteHeader n t =>
      pending earlier = true /\ connected earlier = true /\ n = sent earlier + 1
  | WriteLine rel d =>
      exists i k, 0 <= i < TOTAL_SAMPLES /\ rel = i * SAMPLE_INTERVAL_MS /\
                  trigger_depth earlier = Some k /\
                  d = row_at (stored earlier)
                        ((k + PRE_TRIGGER_SAMPLES - i) mod TOTAL_SAMPLES)
  | Show ScreenInitializing => earlier = []
  | Show ScreenWaiting => connected earlier = false
  | Show (ScreenConnected swings minutes pad seconds capturing) =>
      connected earlier = true /\ swings = sent earlier /\
      capturing = pending earlier /\
      0 <= seconds < 60 /\ pad = (seconds <? 10)
  | _ => True
  end.

Fixpoint log_ok (l : list Out) : Prop :=
  match l with
  | [] => True
  | e :: l => entry_ok e l /\ log_ok l
  end.

(** The invariant of the sketch between two passes of [loop]. *)
Definition inv (g : Vars) : Prop :=
  let l := out g in
  let n := Z.of_nat (length (stored l)) in
  length (circularBuffer g) = Z.to_nat TOTAL_SAMPLES /\
  bufferIndex g = n mod TOTAL_SAMPLES /\
  bufferFull g = (TOTAL_SAMPLES <=? n) /\
  (forall j, 0 <= j < TOTAL_SAMPLES ->
     cell (circularBuffer g) ((n - 1 - j) mod TOTAL_SAMPLES) = row_at (stored l) j) /\
  triggerIndex g = match trigger_depth l with
                   | None => -1
                   | Some k => (n - 1 - k) mod TOTAL_SAMPLES
                   end /\
  swingDetected g = pending l /\
  bleConnected g = connected l /\
  swingCount g = sent l /\
  detections l = transmissions l + (if pending l then 1 else 0) /\
  log_ok l.

(** The lines of one transmission, oldest first: [n] lines from line
    [i] on, read from the ring [buf] starting at slot [s]. *)
Fixpoint lines (buf : list IMUData) (s : Z) (n : nat) (i : Z) : list Out :=
  match n with
  | O => []
  | S k =>
      WriteLine (i * SAMPLE_INTERVAL_MS) (cell buf ((s + i) mod TOTAL_SAMPLES))
      :: lines buf s k (i + 1)
  end.

(** [g] with another history. *)
Definition with_out (l : list Out) (g : Vars) : Vars :=
  {| circularBuffer := circularBuffer g; bufferIndex := bufferIndex g;
     bufferFull := bufferFull g; swingDetected := swingDetected g;
     triggerIndex := triggerIndex g; lastSwingTime := lastSwingTime g;
     triggerTime := triggerTime g; swingCount := swingCount g;
     sessionStartTime := sessionStartTime g;
     lastSampleTime := lastSampleTime g; lastDisplayUpdate := lastDisplayUpdate g;
     bleConnected := bleConnected g; out := l |}.

(** The record [sampleIMU] makes of a reading. *)
Definition record_of (tk : Pass) (a w : F32.t * F32.t * F32.t) : IMUData :=
  {| timestamp := ms_stamp tk;
     accelX := fst (fst a); accelY := snd (fst a); accelZ := snd a;
     gyroX := fst (fst w); gyroY := snd (fst w); gyroZ := snd w |}.

(** The part of the sketch that capture and detection live in. *)
Definition untouched (g g' : Vars) : Prop :=
  circularBuffer g' = circularBuffer g /\
  bufferIndex g' = bufferIndex g /\
  bufferFull g' = bufferFull g /\
  swingDetected g' = swingDetected g /\
  triggerIndex g' = triggerIndex g /\
  triggerTime g' = triggerTime g /\
  lastSwingTime g' = lastSwingTime g /\
  stored (out g') = stored (out g) /\
  writes (out g') = writes (out g) /\
  detections (out g') = detections (out g).

(** A pass that samples at the time [T]: a central is there, both
    sensors have a reading, and the clock reads [T] where the pass
    tests and stamps the sampling time (lines 150, 151) and where it
    stamps and tests the trigger time (lines 188, 197). *)
Definition on_time (T : Z) (tk : Pass) : Prop :=
  central tk = true /\ imu_accel tk <> None /\ imu_gyro tk <> None /\
  ms_sample_due tk = T /\ ms_sample tk = T /\ ms_trigger tk = T /\ ms_post tk = T.

(** Passes that sample every [SAMPLE_INTERVAL_MS] from the time [T] on,
    before the clock rolls over. *)
Fixpoint steady (T : Z) (tks : list Pass) : Prop :=
  match tks with
  | [] => True
  | tk :: tks =>
      on_time (T + SAMPLE_INTERVAL_MS) tk /\ T + SAMPLE_INTERVAL_MS < 2 ^ 32 /\
      steady (T + SAMPLE_INTERVAL_MS) tks
  end.

(** Every transmission of the history started [POST_TRIGGER_SAMPLES]
    records after its detection. *)
Fixpoint paced (l : list Out) : Prop :=
  match l with
  | [] => True
  | WriteHeader _ _ :: l => trigger_depth l = Some POST_TRIGGER_SAMPLES /\ paced l
  | WriteLine _ _ :: l => trigger_depth l = Some POST_TRIGGER_SAMPLES /\ paced l
  | _ :: l => paced l
  end.

(** The invariant of a steady execution whose latest sample was at [T]. *)
Definition paced_inv (T : Z) (g : Vars) : Prop :=
  inv g /\ lastSampleTime g = T /\ 0 <= T < 2 ^ 32 /\
  (pending (out g) = true ->
   exists k, trigger_depth (out g) = Some k /\ 0 <= k < POST_TRIGGER_SAMPLES /\
             triggerTime g = T - SAMPLE_INTERVAL_MS * k) /\
  paced (out g).

(** ** A session to run the sketch on *)

(** A pass in which every [millis()] reads [20 * k]. *)
Definition pass (k : Z) (c : bool)
    (r : option ((F32.t * F32.t * F32.t) * (F32.t * F32.t * F32.t))) : Pass :=
  let ms := SAMPLE_INTERVAL_MS * k in
  {| central := c; imu_accel := option_map fst r; imu_gyro := option_map snd r;
     ms_connect := ms; ms_connect_screen := ms; ms_sample_due := ms; ms_sample := ms;
     ms_stamp := ms; ms_cooldown := ms; ms_trigger := ms; ms_lastSwing := ms;
     ms_post := ms; ms_display_due := ms; ms_display := ms; ms_display_screen := ms |}.

(** Readings in g and degrees per second: the bat lying still, and a
    swing of 3 g turning at 300 degrees per second. *)
Definition lying_still : (F32.t * F32.t * F32.t) * (F32.t * F32.t * F32.t) :=
  ((F32.zero, F32.zero, F32.of_Z 1), (F32.zero, F32.zero, F32.zero)).
Definition swinging : (F32.t * F32.t * F32.t) * (F32.t * F32.t * F32.t) :=
  ((F32.of_Z 3, F32.zero, F32.zero), (F32.of_Z 300, F32.zero, F32.zero)).

(** Passes [from+1 .. from+n] with a central connected and the bat still. *)
Definition still (from : Z) (n : nat) : list Pass :=
  map (fun i => pass (from + 1 + Z.of_nat i) true (Some lying_still)) (seq 0 n).

(** After [setup] with the clock at 0. *)
Definition switched_on : Vars :=
  emit (Show ScreenWaiting)
    (set_sessionStartTime 0 (emit (Show ScreenInitializing) power_on)).

(** 30 passes at rest, a swing in pass 31, 19 more passes at rest: the
    swing is pending.  One more pass at rest, 400 ms after the swing,
    and it has been transmitted. *)
Definition swing_pending : Vars :=
  run (still 0 30 ++ pass 31 true (Some swinging) :: still 31 19) switched_on.
Definition session : list Pass :=
  still 0 30 ++ pass 31 true (Some swinging) :: still 31 20.

(** The swing of pass 31 is pending and the central goes away in pass 37. *)
Definition swing_orphaned : Vars :=
  run (still 0 30 ++ pass 31 true (Some swinging) :: still 31 5
       ++ [pass 37 false (Some lying_still)]) switched_on.

(** ** The invariant is kept *)

Lemma TOTAL_SAMPLES_eq : TOTAL_SAMPLES = 25.
Proof. reflexivity. Qed.

Lemma PRE_TRIGGER_SAMPLES_eq : PRE_TRIGGER_SAMPLES = 5.
Proof. reflexivity. Qed.

Lemma row_at_newest d rows : row_at (d :: rows) 0 = d.
Proof. unfold row_at. cbn [length]. destruct (Z.ltb_spec 0 (Z.of_nat (S (length rows)))); [reflexivity|lia]. Qed.

Lemma row_at_older d rows j : 0 < j -> row_at (d :: rows) j = row_at rows (j - 1).
Proof.
  intros J. unfold row_at. cbn [length].
  destruct (Z.ltb_spec j (Z.of_nat (S (length rows))));
    destruct (Z.ltb_spec (j - 1) (Z.of_nat (length rows))); try lia.
  - apply cell_cons_succ. exact J.
  - reflexivity.
Qed.

Lemma pending_trigger_depth l :
  pending l = true -> exists k, trigger_depth l = Some k /\ 0 <= k.
Proof.
  induction l as [|e l IH]; cbn; [discriminate|].
  destruct e; cbn; intros P; try (apply IH; exact P); try discriminate.
  - destruct (IH P) as (k & -> & K). exists (Z.succ k). split; [reflexivity|lia].
  - exists 0. split; [reflexivity|lia].
Qed.

(** The loop of [captureAndTransmitSwing] in closed form. *)
Lemma transmit_lines (s : Z) (n : nat) (i : Z) (g : Vars) :
  0 <= s -> 0 <= i ->
  for_loop n i
    (fun i g =>
       emit (WriteLine (i * SAMPLE_INTERVAL_MS)
               (cell (circularBuffer g) (Z.rem (s + i) TOTAL_SAMPLES))) g) g
  = with_out (rev (lines (circularBuffer g) s n i) ++ out g) g.
Proof.
  intros S0. revert i g. induction n as [|n IH]; intros i g I; cbn [for_loop lines].
  - destruct g; reflexivity.
  - rewrite IH by lia. cbn [circularBuffer emit out rev].
    rewrite <- app_assoc. cbn [app].
    rewrite Z.rem_mod_nonneg by (rewrite ?TOTAL_SAMPLES_eq; lia).
    reflexivity.
Qed.

Lemma captureAndTransmitSwing_out (g : Vars) :
  0 <= triggerIndex g < TOTAL_SAMPLES ->
  captureAndTransmitSwing g
  = with_out
      (MsgTransmitted (swingCount g + 1) :: WriteEnd
         :: rev (lines (circularBuffer g)
                   ((triggerIndex g - PRE_TRIGGER_SAMPLES) mod TOTAL_SAMPLES)
                   (Z.to_nat TOTAL_SAMPLES) 0)
         ++ WriteHeader (swingCount g + 1) (triggerTime g) :: MsgTransmitting :: out g)
      g.
Proof.
  intros T. unfold captureAndTransmitSwing. cbv zeta.
  rewrite transmit_lines.
  - cbn [circularBuffer bufferIndex bufferFull swingDetected triggerIndex lastSwingTime
         triggerTime swingCount sessionStartTime lastSampleTime lastDisplayUpdate
         bleConnected out emit with_out].
    assert (Z.rem (triggerIndex g - PRE_TRIGGER_SAMPLES + TOTAL_SAMPLES) TOTAL_SAMPLES
            = (triggerIndex g - PRE_TRIGGER_SAMPLES) mod TOTAL_SAMPLES) as ->.
    { rewrite TOTAL_SAMPLES_eq, PRE_TRIGGER_SAMPLES_eq in *.
      rewrite Z.rem_mod_nonneg by lia.
      replace (triggerIndex g - 5 + 25) with (triggerIndex g - 5 + 1 * 25) by lia.
      apply Z.mod_add. lia. }
    reflexivity.
  - cbn [triggerIndex emit]. rewrite TOTAL_SAMPLES_eq, PRE_TRIGGER_SAMPLES_eq in *.
    rewrite Z.rem_mod_nonneg by lia. apply Z.mod_pos_bound. lia.
  - lia.
Qed.

Lemma lines_observers buf s n i l :
  let l' := rev (lines buf s n i) ++ l in
  stored l' = stored l /\ trigger_depth l' = trigger_depth l /\
  pending l' = pending l /\ connected l' = connected l /\ sent l' = sent l /\
  detections l' = detections l /\ transmissions l' = transmissions l.
Proof.
  revert i l. induction n as [|n IH]; intros i l; cbn [lines rev app].
  - repeat split.
  - rewrite <- app_assoc. cbn [app].
    exact (IH (i + 1)
             (WriteLine (i * SAMPLE_INTERVAL_MS) (cell buf ((s + i) mod TOTAL_SAMPLES)) :: l)).
Qed.

Lemma log_ok_lines buf s K n i l :
  log_ok l -> trigger_depth l = Some K ->
  0 <= i -> i + Z.of_nat n <= TOTAL_SAMPLES ->
  (forall i', i <= i' < i + Z.of_nat n ->
     cell buf ((s + i') mod TOTAL_SAMPLES)
     = row_at (stored l) ((K + PRE_TRIGGER_SAMPLES - i') mod TOTAL_SAMPLES)) ->
  log_ok (rev (lines buf s n i) ++ l).
Proof.
  revert i l. induction n as [|n IH]; intros i l OK TD I N H; cbn [lines rev app].
  - exact OK.
  - rewrite <- app_assoc. cbn [app]. apply IH.
    + split; [|exact OK]. exists i, K.
      split; [lia|]. split; [reflexivity|]. split; [exact TD|]. apply H. lia.
    + exact TD.
    + lia.
    + lia.
    + intros i' R. apply H. lia.
Qed.

Lemma slot_of_line n K i :
  (((n - 1 - K) mod 25 - 5) mod 25 + i) mod 25 = (n - 1 - (K + 5 - i) mod 25) mod 25.
Proof. Z.div_mod_to_equations. lia. Qed.

Lemma inv_same (g g' : Vars) :
  circularBuffer g' = circularBuffer g -> bufferIndex g' = bufferIndex g ->
  bufferFull g' = bufferFull g -> swingDetected g' = swingDetected g ->
  triggerIndex g' = triggerIndex g -> swingCount g' = swingCount g ->
  bleConnected g' = bleConnected g -> out g' = out g ->
  inv g -> inv g'.
Proof.
  intros E1 E2 E3 E4 E5 E6 E7 E8. unfold inv. rewrite E1, E2, E3, E4, E5, E6, E7, E8.
  exact (fun H => H).
Qed.

Lemma inv_show s g : entry_ok (Show s) (out g) -> inv g -> inv (emit (Show s) g).
Proof.
  intros E. unfold inv. cbn [out emit circularBuffer bufferIndex bufferFull swingDetected
                              triggerIndex swingCount bleConnected stored trigger_depth
                              pending connected sent detections transmissions log_ok].
  intros (L & B & F & R & T & P & C & N & D & OK).
  repeat split; assumption.
Qed.

Lemma inv_updateDisplay ms g : inv g -> inv (updateDisplay ms g).
Proof.
  intros INV. pose proof INV as (_ & _ & _ & _ & _ & P & C & N & _).
  unfold updateDisplay. destruct (bleConnected g) eqn:CN; cbn [negb].
  - apply inv_show; [|exact INV]. cbn [entry_ok].
    split; [congruence|]. split; [exact N|]. split; [exact P|].
    set (sessionTime := Z.quot (u32 (ms - sessionStartTime g)) 1000).
    assert (0 <= sessionTime).
    { subst sessionTime. apply Z.quot_pos; [|lia]. unfold u32.
      apply Z.mod_pos_bound. lia. }
    split; [|reflexivity].
    rewrite Z.rem_mod_nonneg by lia. apply Z.mod_pos_bound. lia.
  - apply inv_show; [|exact INV]. cbn [entry_ok]. congruence.
Qed.

Lemma inv_connect tk g : inv g -> inv (connect tk g).
Proof.
  intros I. unfold connect. destruct (central tk && negb (bleConnected g)) eqn:E; [|exact I].
  apply inv_updateDisplay. revert I. unfold inv. cbn.
  intros (L & B & F & R & T & P & C & N & D & OK).
  repeat split; assumption.
Qed.

Lemma inv_disconnect tk g : inv g -> inv (disconnect tk g).
Proof.
  intros I. unfold disconnect.
  destruct (negb (central tk) && bleConnected g) eqn:E; [|exact I].
  apply inv_updateDisplay. revert I. unfold inv. cbn.
  intros (L & B & F & R & T & P & C & N & D & OK).
  repeat split; assumption.
Qed.

Lemma store_sample_eq tk a w g :
  let d := record_of tk a w in
  let b := Z.rem (bufferIndex g + 1) TOTAL_SAMPLES in
  store_sample tk a w g
  = set_bufferFull (if b =? 0 then true else bufferFull g)
      (set_bufferIndex b
         (emit (Stored d)
            (set_circularBuffer (store (circularBuffer g) (bufferIndex g) d) g))).
Proof.
  destruct a as ((ax & ay) & az), w as ((gx & gy) & gz). cbv zeta.
  unfold store_sample, record_of. cbn [fst snd bufferIndex set_bufferIndex].
  destruct (_ =? 0); reflexivity.
Qed.

Lemma inv_store_sample tk a w g : inv g -> inv (store_sample tk a w g).
Proof.
  rewrite store_sample_eq. cbv zeta. set (d := record_of tk a w).
  unfold inv. cbn. rewrite !TOTAL_SAMPLES_eq.
  set (n := Z.of_nat (length (stored (out g)))).
  intros (L & B & F & R & T & P & C & N & D & OK).
  assert (0 <= n) as N0 by (subst n; lia).
  replace (Z.of_nat (S (length (stored (out g))))) with (n + 1) by (subst n; lia).
  assert (Z.rem (bufferIndex g + 1) 25 = (n + 1) mod 25) as EB.
  { rewrite B. rewrite Z.rem_mod_nonneg by (Z.div_mod_to_equations; lia).
    Z.div_mod_to_equations. lia. }
  rewrite EB.
  split; [rewrite length_store; exact L|]. split; [reflexivity|].
  split.
  { rewrite F. destruct (Z.eqb_spec ((n + 1) mod 25) 0) as [Z0|NZ].
    - symmetry. apply Z.leb_le. Z.div_mod_to_equations. lia.
    - destruct (Z.leb_spec 25 n), (Z.leb_spec 25 (n + 1)); try reflexivity; try lia.
      exfalso. apply NZ. replace (n + 1) with 25 by lia. reflexivity. }
  split.
  { intros j J. destruct (Z.eq_dec j 0) as [->|NJ].
    - rewrite row_at_newest. replace (n + 1 - 1 - 0) with n by lia. rewrite <- B.
      apply cell_store_eq. rewrite B. Z.div_mod_to_equations. lia.
    - rewrite row_at_older by lia. rewrite <- (R (j - 1)) by lia.
      replace (n - 1 - (j - 1)) with (n + 1 - 1 - j) by lia.
      apply cell_store_ne.
      + rewrite B. Z.div_mod_to_equations. lia.
      + Z.div_mod_to_equations. lia.
      + rewrite B. Z.div_mod_to_equations. lia. }
  split.
  { rewrite T. destruct (trigger_depth (out g)) as [k|]; cbn [option_map]; [|reflexivity].
    f_equal. lia. }
  repeat split; assumption.
Qed.

Lemma stored_store_sample tk a w g :
  stored (out (store_sample tk a w g)) = record_of tk a w :: stored (out g).
Proof. rewrite store_sample_eq. reflexivity. Qed.

Lemma inv_detect tk a w g :
  (exists rest, stored (out g) = record_of tk a w :: rest) ->
  inv g -> inv (detect tk a w g).
Proof.
  intros (rest & ST) I. unfold detect.
  destruct a as ((ax & ay) & az), w as ((gx & gy) & gz).
  destruct (bleConnected g && negb (swingDetected g)
            && (COOLDOWN_MS <? u32 (ms_cooldown tk - lastSwingTime g))) eqn:E; [|exact I].
  destruct (F32.gt (magnitude ax ay az) ACCEL_THRESHOLD
            && F32.gt (magnitude gx gy gz) GYRO_THRESHOLD) eqn:SW; [|exact I].
  apply andb_true_iff in E. destruct E as (E & _).
  apply andb_true_iff in E. destruct E as (CN & NP). apply negb_true_iff in NP.
  revert I. unfold inv. cbn. rewrite !TOTAL_SAMPLES_eq.
  set (n := Z.of_nat (length (stored (out g)))).
  intros (L & B & F & R & T & P & C & N & D & OK).
  assert (0 <= n) as N0 by (subst n; lia).
  assert (pending (out g) = false) as P' by congruence.
  assert (connected (out g) = true) as C' by congruence.
  rewrite P' in D.
  split; [exact L|]. split; [exact B|]. split; [exact F|]. split; [exact R|].
  split.
  { rewrite B. rewrite Z.rem_mod_nonneg by (Z.div_mod_to_equations; lia).
    Z.div_mod_to_equations. lia. }
  split; [reflexivity|]. split; [exact C|]. split; [exact N|].
  split; [lia|].
  split; [|exact OK].
  split; [exact P'|]. split; [exact C'|].
  exists (record_of tk (ax, ay, az) (gx, gy, gz)), rest. split; [exact ST|exact SW].
Qed.

Lemma inv_collect tk g : inv g -> inv (collect tk g).
Proof.
  intros INV. unfold collect.
  destruct (swingDetected g && bleConnected g) eqn:E; [|exact INV].
  destruct (POST_TRIGGER_MS <=? u32 (ms_post tk - triggerTime g)); [|exact INV].
  apply andb_true_iff in E. destruct E as (SD & CN).
  pose proof INV as INV'. unfold inv in INV'. cbv zeta in INV'.
  set (n := Z.of_nat (length (stored (out g)))) in INV'.
  destruct INV' as (L & B & F & R & T & P & C & N & D & OK).
  rewrite SD in P. rewrite CN in C. symmetry in P, C.
  destruct (pending_trigger_depth _ P) as (K & TD & K0).
  rewrite TD in T. rewrite P in D.
  assert (0 <= triggerIndex g < TOTAL_SAMPLES) as TR
      by (rewrite T; apply Z.mod_pos_bound; rewrite TOTAL_SAMPLES_eq; lia).
  rewrite (captureAndTransmitSwing_out g TR).
  set (l0 := WriteHeader (swingCount g + 1) (triggerTime g) :: MsgTransmitting :: out g).
  set (s := (triggerIndex g - PRE_TRIGGER_SAMPLES) mod TOTAL_SAMPLES).
  pose proof (lines_observers (circularBuffer g) s (Z.to_nat TOTAL_SAMPLES) 0 l0) as OBS.
  cbv zeta in OBS.
  assert (log_ok (rev (lines (circularBuffer g) s (Z.to_nat TOTAL_SAMPLES) 0) ++ l0)) as LK.
  { apply (log_ok_lines _ _ K).
    - split; [|split; [constructor|exact OK]].
      split; [exact P|]. split; [exact C|]. rewrite N. reflexivity.
    - exact TD.
    - lia.
    - rewrite TOTAL_SAMPLES_eq. lia.
    - intros i' RI. rewrite TOTAL_SAMPLES_eq in RI.
      change (stored l0) with (stored (out g)).
      rewrite <- R
        by (rewrite PRE_TRIGGER_SAMPLES_eq; apply Z.mod_pos_bound; rewrite TOTAL_SAMPLES_eq; lia).
      subst s. rewrite T, PRE_TRIGGER_SAMPLES_eq, TOTAL_SAMPLES_eq.
      f_equal. apply slot_of_line. }
  set (l1 := rev (lines (circularBuffer g) s (Z.to_nat TOTAL_SAMPLES) 0) ++ l0) in *.
  clearbody l1. subst l0. cbn in OBS.
  destruct OBS as (O1 & O2 & O3 & O4 & O5 & O6 & O7).
  unfold inv. cbn. rewrite O1, O2, O4, O5, O6, O7, TD. fold n.
  repeat split; try assumption; try lia.
  congruence.
Qed.

Lemma inv_sampleIMU tk g : inv g -> inv (sampleIMU tk g).
Proof.
  intros INV. unfold sampleIMU.
  destruct (imu_accel tk) as [a|]; [|exact INV].
  destruct (imu_gyro tk) as [w|]; [|exact INV].
  apply inv_collect, inv_detect.
  - eexists. apply stored_store_sample.
  - apply inv_store_sample. exact INV.
Qed.

Lemma inv_sample tk g : inv g -> inv (sample tk g).
Proof.
  intros INV. unfold sample. destruct (_ <=? _); [|exact INV].
  apply inv_sampleIMU. revert INV. apply inv_same; reflexivity.
Qed.

Lemma inv_refresh tk g : inv g -> inv (refresh tk g).
Proof.
  intros INV. unfold refresh. destruct (_ <=? _); [|exact INV].
  apply inv_updateDisplay. revert INV. apply inv_same; reflexivity.
Qed.

Lemma inv_loop tk g : inv g -> inv (loop tk g).
Proof.
  intros INV. unfold loop.
  apply inv_refresh, inv_sample, inv_disconnect, inv_connect. exact INV.
Qed.

Lemma inv_run tks g : inv g -> inv (run tks g).
Proof.
  revert g. induction tks as [|tk tks IH]; intros g INV; [exact INV|].
  apply IH, inv_loop. exact INV.
Qed.

Lemma inv_setup d i b t g0 : setup d i b t = Some g0 -> inv g0.
Proof.
  unfold setup. destruct d, i, b; cbn; try discriminate. intros [= <-].
  unfold inv. cbn. repeat split.
  intros j J. rewrite TOTAL_SAMPLES_eq in J.
  unfold row_at.
  destruct (Z.ltb_spec j (Z.of_nat (length (@nil IMUData)))) as [X|_]; [cbn in X; lia|].
  unfold cell. apply lookup_total_replicate_2.
  assert (0 <= (0 - 1 - j) mod TOTAL_SAMPLES < 25)
    by (rewrite TOTAL_SAMPLES_eq; apply Z.mod_pos_bound; lia).
  change (Z.to_nat TOTAL_SAMPLES) with 25%nat. lia.
Qed.

Lemma log_ok_split l later e earlier :
  log_ok l -> l = later ++ e :: earlier -> entry_ok e earlier.
Proof.
  revert l. induction later as [|x later IH]; intros l OK ->.
  - exact (proj1 OK).
  - exact (IH _ (proj2 OK) eq_refl).
Qed.

Lemma trigger_depth_nonneg l k : trigger_depth l = Some k -> 0 <= k.
Proof.
  revert k. induction l as [|e l IH]; intros k TD; [discriminate|].
  destruct e; cbn in TD; try (apply IH; assumption).
  - destruct (trigger_depth l) as [k'|]; [|discriminate].
    injection TD as <-. specialize (IH _ eq_refl). lia.
  - injection TD as <-. lia.
Qed.

(** The record that set off the latest detection is a swing reading. *)
Lemma trigger_record_swings l k :
  log_ok l -> trigger_depth l = Some k -> swing_reading (row_at (stored l) k) = true.
Proof.
  revert k. induction l as [|e l IH]; intros k OK TD; [discriminate|].
  destruct OK as (E & OK).
  destruct e; cbn in TD |- *; try (apply IH; assumption).
  - destruct (trigger_depth l) as [k'|] eqn:TD'; [|discriminate].
    injection TD as <-.
    pose proof (trigger_depth_nonneg _ _ TD').
    rewrite row_at_older by lia. replace (Z.succ k' - 1) with k' by lia.
    apply IH; [exact OK|reflexivity].
  - injection TD as <-. destruct E as (_ & _ & d & rest & -> & SW).
    rewrite row_at_newest. exact SW.
Qed.

Lemma updateDisplay_out ms g : exists s, updateDisplay ms g = emit (Show s) g.
Proof. unfold updateDisplay. destruct (negb _); eexists; reflexivity. Qed.

(** ** The ring and the trigger *)

(** X14.  The ring follows the stored records.  In every execution from
    [setup], with [n] records stored so far: the write cursor is
    [n mod 25], [bufferFull] is set exactly when 25 or more were stored,
    and the slot [j] places behind the cursor holds the record stored
    [j] records before the newest, or the zero record of the initial
    array where that many have not been stored yet. *)
Theorem ring_follows_stored_records
    (display_ok imu_ok ble_ok : bool) (t : Z) (g0 : Vars) (tks : list Pass) :
  setup display_ok imu_ok ble_ok t = Some g0 ->
  let g := run tks g0 in
  let rows := stored (out g) in
  let n := Z.of_nat (length rows) in
  bufferIndex g = n mod TOTAL_SAMPLES /\
  (bufferFull g = true <-> TOTAL_SAMPLES <= n) /\
  (forall j, 0 <= j < TOTAL_SAMPLES ->
     cell (circularBuffer g) ((n - 1 - j) mod TOTAL_SAMPLES) = row_at rows j).
Proof.
  intros S g rows n.
  destruct (inv_run tks g0 (inv_setup _ _ _ _ _ S)) as (_ & B & F & R & _).
  split; [exact B|]. split; [|exact R].
  fold g in F. rewrite F. apply Z.leb_le.
Qed.

(** X15.  The trigger index marks the record that set off the latest
    detection.  In every execution from [setup]: before the first
    detection [triggerIndex] is -1 and no swing is pending; after a
    detection followed by [k] further records it is the slot
    [(n - 1 - k) mod 25], the record stored then passed both thresholds
    of line 186, and the slot still holds that record while [k < 25]. *)
Theorem trigger_index_marks_swing_record
    (display_ok imu_ok ble_ok : bool) (t : Z) (g0 : Vars) (tks : list Pass) :
  setup display_ok imu_ok ble_ok t = Some g0 ->
  let g := run tks g0 in
  let rows := stored (out g) in
  let n := Z.of_nat (length rows) in
  match trigger_depth (out g) with
  | None => triggerIndex g = -1 /\ swingDetected g = false
  | Some k =>
      triggerIndex g = (n - 1 - k) mod TOTAL_SAMPLES /\
      swing_reading (row_at rows k) = true /\
      (k < TOTAL_SAMPLES -> cell (circularBuffer g) (triggerIndex g) = row_at rows k)
  end.
Proof.
  intros S g rows n.
  destruct (inv_run tks g0 (inv_setup _ _ _ _ _ S))
    as (_ & _ & _ & R & T & P & _ & _ & _ & OK).
  fold g in R, T, P, OK. fold rows in R. fold n in R, T.
  destruct (trigger_depth (out g)) as [k|] eqn:TD.
  - split; [exact T|]. split; [exact (trigger_record_swings _ _ OK TD)|].
    intros K. rewrite T. apply R.
    pose proof (trigger_depth_nonneg _ _ TD). lia.
  - split; [exact T|]. rewrite P.
    destruct (pending (out g)) eqn:PE; [|reflexivity].
    destruct (pending_trigger_depth _ PE) as (k & TD' & _). congruence.
Qed.

(** ** The transmission *)

(** X16.  What a transmitted line holds.  In every execution from
    [setup], every data line ever written to the characteristic is line
    [i] of its transmission for some [0 <= i < 25], carries the relative
    time [20 * i], and holds the record stored
    [(k + 5 - i) mod 25] records before the newest one, [k] being the
    number of records stored since the detection: the window is read
    off the ring as it is when the transmission starts. *)
Theorem transmitted_lines_come_from_ring
    (display_ok imu_ok ble_ok : bool) (t : Z) (g0 : Vars) (tks : list Pass) :
  setup display_ok imu_ok ble_ok t = Some g0 ->
  let g := run tks g0 in
  forall later rel d earlier,
    out g = later ++ WriteLine rel d :: earlier ->
    exists i k,
      0 <= i < TOTAL_SAMPLES /\ rel = i * SAMPLE_INTERVAL_MS /\
      trigger_depth earlier = Some k /\ 0 <= k /\
      d = row_at (stored earlier) ((k + PRE_TRIGGER_SAMPLES - i) mod TOTAL_SAMPLES).
Proof.
  intros S g later rel d earlier E.
  destruct (inv_run tks g0 (inv_setup _ _ _ _ _ S))
    as (_ & _ & _ & _ & _ & _ & _ & _ & _ & OK).
  destruct (log_ok_split _ _ _ _ OK E) as (i & k & I & RL & TD & D).
  exists i, k. repeat split; try assumption; try lia.
  exact (trigger_depth_nonneg _ _ TD).
Qed.

(** X17.  [captureAndTransmitSwing] sends every slot of the ring once.
    With the trigger index inside the ring it writes the header (swing
    number [swingCount + 1] and the trigger time), then 25 lines read
    from the slots [s, s+1, ...] modulo 25, where
    [s = (triggerIndex - 5) mod 25], then the end marker, and changes
    nothing but the history.  The slot of the trigger is read by line 5,
    and each slot of the ring is read by exactly one line. *)
Theorem capture_sends_every_slot_once (g : Vars) :
  0 <= triggerIndex g < TOTAL_SAMPLES ->
  let g' := captureAndTransmitSwing g in
  let s := (triggerIndex g - PRE_TRIGGER_SAMPLES) mod TOTAL_SAMPLES in
  out g' = MsgTransmitted (swingCount g + 1) :: WriteEnd
             :: rev (lines (circularBuffer g) s (Z.to_nat TOTAL_SAMPLES) 0)
             ++ WriteHeader (swingCount g + 1) (triggerTime g) :: MsgTransmitting :: out g /\
  circularBuffer g' = circularBuffer g /\
  swingDetected g' = swingDetected g /\
  swingCount g' = swingCount g /\
  (s + PRE_TRIGGER_SAMPLES) mod TOTAL_SAMPLES = triggerIndex g /\
  (forall slot, 0 <= slot < TOTAL_SAMPLES ->
     exists i, 0 <= i < TOTAL_SAMPLES /\ (s + i) mod TOTAL_SAMPLES = slot /\
               forall i', 0 <= i' < TOTAL_SAMPLES ->
                          (s + i') mod TOTAL_SAMPLES = slot -> i' = i).
Proof.
  intros T g' s. subst g'. rewrite (captureAndTransmitSwing_out g T). fold s.
  split; [reflexivity|]. split; [reflexivity|]. split; [reflexivity|].
  split; [reflexivity|].
  subst s. rewrite TOTAL_SAMPLES_eq, PRE_TRIGGER_SAMPLES_eq in *.
  split.
  - Z.div_mod_to_equations. lia.
  - intros slot SL.
    exists ((slot - (triggerIndex g - 5) mod 25) mod 25).
    split; [apply Z.mod_pos_bound; lia|].
    split; [Z.div_mod_to_equations; lia|].
    intros i' I' E. Z.div_mod_to_equations. lia.
Qed.

(** ** Detections, transmissions and the session *)

(** X18.  Detections and transmissions alternate.  In every execution
    from [setup]: [swingDetected] is set exactly when the latest
    detection has not been followed by the end of a transmission; a
    swing is detected only while a central is connected and no swing is
    pending; a transmission starts only while a central is connected
    and a swing is pending; so the detections are the transmissions
    plus the one pending. *)
Theorem detections_and_transmissions_alternate
    (display_ok imu_ok ble_ok : bool) (t : Z) (g0 : Vars) (tks : list Pass) :
  setup display_ok imu_ok ble_ok t = Some g0 ->
  let g := run tks g0 in
  swingDetected g = pending (out g) /\
  detections (out g) = transmissions (out g) + (if swingDetected g then 1 else 0) /\
  (forall later earlier,
      out g = later ++ MsgSwingDetected :: earlier ->
      pending earlier = false /\ connected earlier = true) /\
  (forall later n tt earlier,
      out g = later ++ WriteHeader n tt :: earlier ->
      pending earlier = true /\ connected earlier = true).
Proof.
  intros S g.
  destruct (inv_run tks g0 (inv_setup _ _ _ _ _ S))
    as (_ & _ & _ & _ & _ & P & _ & _ & D & OK).
  fold g in P, D, OK.
  split; [exact P|]. split; [rewrite P; exact D|]. split.
  - intros later earlier E.
    destruct (log_ok_split _ _ _ _ OK E) as (A & B & _). split; assumption.
  - intros later n tt earlier E.
    destruct (log_ok_split _ _ _ _ OK E) as (A & B & _). split; assumption.
Qed.

(** X19.  Swing numbers restart at each connection.  In every execution
    from [setup]: [swingCount] is the number of transmissions ended
    since the latest connection, [bleConnected] tells whether the
    latest change was a connection, and the header of a transmission
    carries one more than the number of transmissions ended since the
    latest connection before it. *)
Theorem swing_numbers_restart_at_connection
    (display_ok imu_ok ble_ok : bool) (t : Z) (g0 : Vars) (tks : list Pass) :
  setup display_ok imu_ok ble_ok t = Some g0 ->
  let g := run tks g0 in
  swingCount g = sent (out g) /\
  bleConnected g = connected (out g) /\
  (forall later n tt earlier,
      out g = later ++ WriteHeader n tt :: earlier -> n = sent earlier + 1).
Proof.
  intros S g.
  destruct (inv_run tks g0 (inv_setup _ _ _ _ _ S))
    as (_ & _ & _ & _ & _ & _ & C & N & _ & OK).
  fold g in C, N, OK.
  split; [exact N|]. split; [exact C|].
  intros later n tt earlier E.
  destruct (log_ok_split _ _ _ _ OK E) as (_ & _ & A). exact A.
Qed.

(** ** Passes out of the ordinary *)

Lemma untouched_refl g : untouched g g.
Proof. repeat split. Qed.

Lemma untouched_updateDisplay ms g h : untouched g h -> untouched g (updateDisplay ms h).
Proof.
  destruct (updateDisplay_out ms h) as (s & ->). unfold untouched. cbn.
  exact (fun H => H).
Qed.

Lemma untouched_connect tk g h : untouched g h -> untouched g (connect tk h).
Proof.
  intros U. unfold connect. destruct (_ && _); [|exact U].
  apply untouched_updateDisplay. exact U.
Qed.

Lemma untouched_disconnect tk g h : untouched g h -> untouched g (disconnect tk h).
Proof.
  intros U. unfold disconnect. destruct (_ && _); [|exact U].
  apply untouched_updateDisplay. exact U.
Qed.

Lemma untouched_refresh tk g h : untouched g h -> untouched g (refresh tk h).
Proof.
  intros U. unfold refresh. destruct (_ <=? _); [|exact U].
  apply untouched_updateDisplay. exact U.
Qed.

(** X20.  Without a reading the pass leaves the capture alone.  When
    the accelerometer or the gyroscope has no new reading, a pass of
    [loop] stores no record, moves neither cursor nor trigger, writes
    nothing to the characteristic and leaves [swingDetected] as it is:
    a pending swing whose 400 ms have passed is not transmitted in that
    pass. *)
Theorem missing_reading_skips_capture (tk : Pass) (g : Vars) :
  imu_accel tk = None \/ imu_gyro tk = None ->
  let g' := loop tk g in
  circularBuffer g' = circularBuffer g /\
  bufferIndex g' = bufferIndex g /\
  bufferFull g' = bufferFull g /\
  swingDetected g' = swingDetected g /\
  triggerIndex g' = triggerIndex g /\
  triggerTime g' = triggerTime g /\
  lastSwingTime g' = lastSwingTime g /\
  stored (out g') = stored (out g) /\
  writes (out g') = writes (out g) /\
  detections (out g') = detections (out g).
Proof.
  intros NONE g'. subst g'. unfold loop.
  assert (forall h, sampleIMU tk h = h) as SI.
  { intros h. unfold sampleIMU. destruct NONE as [-> | ->]; [reflexivity|].
    destruct (imu_accel tk); reflexivity. }
  apply untouched_refresh. unfold sample.
  destruct (_ <=? _).
  - rewrite SI.
    assert (untouched g (disconnect tk (connect tk g))) as U
        by apply untouched_disconnect, untouched_connect, untouched_refl.
    exact U.
  - apply untouched_disconnect, untouched_connect, untouched_refl.
Qed.

Lemma writes_lines buf s n i l :
  writes (rev (lines buf s n i) ++ l) = rev (lines buf s n i) ++ writes l.
Proof.
  revert i l. induction n as [|n IH]; intros i l; cbn [lines rev app]; [reflexivity|].
  rewrite <- !app_assoc. cbn [app]. rewrite IH. reflexivity.
Qed.

(** X21.  A swing pending at a disconnection is sent after the
    reconnection.  [loop] does not clear [swingDetected] when the
    central goes away.  In the first sampling pass with a central
    again, once 400 ms have passed since the trigger, the pass resets
    [swingCount], stores its record and transmits at once: the header
    carries swing number 1 and the old trigger time, and the lines are
    read from the ring as it is now, this pass's record included. *)
Theorem pending_swing_is_sent_after_reconnection
    (tk : Pass) (g : Vars) (a w : F32.t * F32.t * F32.t) :
  swingDetected g = true -> bleConnected g = false -> central tk = true ->
  imu_accel tk = Some a -> imu_gyro tk = Some w ->
  SAMPLE_INTERVAL_MS <= u32 (ms_sample_due tk - lastSampleTime g) ->
  POST_TRIGGER_MS <= u32 (ms_post tk - triggerTime g) ->
  0 <= triggerIndex g < TOTAL_SAMPLES ->
  let g' := loop tk g in
  let buf := store (circularBuffer g) (bufferIndex g) (record_of tk a w) in
  let s := (triggerIndex g - PRE_TRIGGER_SAMPLES) mod TOTAL_SAMPLES in
  swingDetected g' = false /\ swingCount g' = 1 /\ bleConnected g' = true /\
  circularBuffer g' = buf /\
  writes (out g')
  = WriteEnd :: rev (lines buf s (Z.to_nat TOTAL_SAMPLES) 0)
      ++ WriteHeader 1 (triggerTime g) :: writes (out g).
Proof.
  intros SD NC CE A W DUE POST T g' buf s. subst g'. unfold loop.
  assert (exists g1, disconnect tk (connect tk g) = g1 /\
            swingDetected g1 = true /\ bleConnected g1 = true /\ swingCount g1 = 0 /\
            triggerIndex g1 = triggerIndex g /\ triggerTime g1 = triggerTime g /\
            circularBuffer g1 = circularBuffer g /\ bufferIndex g1 = bufferIndex g /\
            lastSampleTime g1 = lastSampleTime g /\ writes (out g1) = writes (out g))
    as (g1 & -> & SD1 & C1 & N1 & T1 & TT1 & B1 & BI1 & LS1 & W1).
  { eexists. split; [reflexivity|].
    unfold disconnect, connect. rewrite CE, NC. cbn [andb negb].
    destruct (updateDisplay_out (ms_connect_screen tk)
                (emit MsgConnected
                   (set_swingCount 0
                      (set_sessionStartTime (ms_connect tk) (set_bleConnected true g)))))
      as (sc & ->).
    cbn. repeat split; assumption. }
  assert (exists g2, sample tk g1 = g2 /\
            swingDetected g2 = false /\ bleConnected g2 = true /\ swingCount g2 = 1 /\
            circularBuffer g2 = buf /\
            writes (out g2)
            = WriteEnd :: rev (lines buf s (Z.to_nat TOTAL_SAMPLES) 0)
                ++ WriteHeader 1 (triggerTime g) :: writes (out g))
    as (g2 & -> & SD2 & C2 & N2 & B2 & W2).
  { eexists. split; [reflexivity|].
    unfold sample. rewrite LS1. apply Z.leb_le in DUE. rewrite DUE.
    unfold sampleIMU. rewrite A, W, store_sample_eq. cbv zeta.
    set (g3 := set_bufferFull _ _).
    assert (detect tk a w g3 = g3) as ->.
    { unfold detect. destruct a as ((ax & ay) & az), w as ((gx & gy) & gz).
      subst g3. cbn [bleConnected swingDetected set_bufferFull set_bufferIndex emit
                      set_circularBuffer set_lastSampleTime].
      rewrite SD1, C1. reflexivity. }
    unfold collect.
    assert (swingDetected g3 = true) as -> by exact SD1.
    assert (bleConnected g3 = true) as -> by exact C1.
    assert (triggerTime g3 = triggerTime g) as -> by exact TT1.
    apply Z.leb_le in POST. rewrite POST. cbn [andb].
    assert (0 <= triggerIndex g3 < TOTAL_SAMPLES) as T3.
    { change (triggerIndex g3) with (triggerIndex g1). rewrite T1. exact T. }
    rewrite (captureAndTransmitSwing_out g3 T3).
    cbn [swingDetected bleConnected swingCount circularBuffer out with_out
         set_swingDetected set_swingCount writes].
    change (swingCount g3) with (swingCount g1).
    change (triggerIndex g3) with (triggerIndex g1).
    change (triggerTime g3) with (triggerTime g1).
    change (bleConnected g3) with (bleConnected g1).
    change (circularBuffer g3)
      with (store (circularBuffer g1) (bufferIndex g1) (record_of tk a w)).
    change (out g3) with (Stored (record_of tk a w) :: out g1).
    rewrite writes_lines. cbn [writes].
    rewrite N1, T1, TT1, B1, BI1, W1.
    repeat split; try reflexivity. exact C1. }
  unfold refresh. destruct (_ <=? _).
  - destruct (updateDisplay_out (ms_display_screen tk)
                (set_lastDisplayUpdate (ms_display tk) g2)) as (sc & ->).
    cbn. repeat split; assumption.
  - repeat split; assumption.
Qed.

(** ** The status screen *)

(** X22.  The status screen tells the state of the session.  In every
    execution from [setup], the start screen of [setup] is the first
    entry of the history; a waiting screen is drawn only while no
    central is connected and a connected screen only while one is; a
    connected screen shows as swing count the number of transmissions
    ended since the connection, shows [Capturing...] exactly while a
    swing is pending, and prints the seconds of the session time as a
    number below 60, with a leading zero exactly when it is below 10. *)
Theorem status_screen_tells_session_state
    (display_ok imu_ok ble_ok : bool) (t : Z) (g0 : Vars) (tks : list Pass) :
  setup display_ok imu_ok ble_ok t = Some g0 ->
  let g := run tks g0 in
  forall later s earlier,
    out g = later ++ Show s :: earlier ->
    match s with
    | ScreenInitializing => earlier = []
    | ScreenWaiting => connected earlier = false
    | ScreenConnected swings minutes pad seconds capturing =>
        connected earlier = true /\ swings = sent earlier /\
        capturing = pending earlier /\
        0 <= seconds < 60 /\ pad = (seconds <? 10)
    end.
Proof.
  intros S g later s earlier E.
  destruct (inv_run tks g0 (inv_setup _ _ _ _ _ S))
    as (_ & _ & _ & _ & _ & _ & _ & _ & _ & OK).
  pose proof (log_ok_split _ _ _ _ OK E) as H.
  destruct s; exact H.
Qed.

(** ** The nominal pace *)

Lemma POST_TRIGGER_SAMPLES_eq : POST_TRIGGER_SAMPLES = 20.
Proof. reflexivity. Qed.

Lemma paced_split l later rel d earlier :
  paced l -> l = later ++ WriteLine rel d :: earlier ->
  trigger_depth earlier = Some POST_TRIGGER_SAMPLES.
Proof.
  revert l. induction later as [|x later IH]; intros l PC ->.
  - exact (proj1 PC).
  - apply (IH (later ++ WriteLine rel d :: earlier)); [|reflexivity].
    destruct x; try exact PC; exact (proj2 PC).
Qed.

Lemma paced_lines buf s n i l :
  paced l -> trigger_depth l = Some POST_TRIGGER_SAMPLES ->
  paced (rev (lines buf s n i) ++ l).
Proof.
  revert i l. induction n as [|n IH]; intros i l PC TD; cbn [lines rev app]; [exact PC|].
  rewrite <- app_assoc. cbn [app]. apply IH.
  - split; assumption.
  - exact TD.
Qed.

(** The part of the state the pace depends on, kept by what only
    draws a screen or handles the connection. *)
Definition pace_kept (g g' : Vars) : Prop :=
  lastSampleTime g' = lastSampleTime g /\ triggerTime g' = triggerTime g /\
  pending (out g') = pending (out g) /\ trigger_depth (out g') = trigger_depth (out g) /\
  (paced (out g) -> paced (out g')).

Lemma pace_kept_refl g : pace_kept g g.
Proof. repeat split. exact (fun H => H). Qed.

Lemma pace_kept_updateDisplay ms g h : pace_kept g h -> pace_kept g (updateDisplay ms h).
Proof.
  destruct (updateDisplay_out ms h) as (s & ->). unfold pace_kept. cbn.
  exact (fun H => H).
Qed.

Lemma pace_kept_connect tk g : pace_kept g (disconnect tk (connect tk g)).
Proof.
  assert (pace_kept g (connect tk g)) as C.
  { unfold connect. destruct (_ && _); [|apply pace_kept_refl].
    apply pace_kept_updateDisplay. unfold pace_kept. cbn.
    repeat split. exact (fun H => H). }
  unfold disconnect. destruct (_ && _); [|exact C].
  apply pace_kept_updateDisplay. revert C. unfold pace_kept. cbn.
  exact (fun H => H).
Qed.

Lemma connected_after_connect tk g :
  central tk = true -> bleConnected (disconnect tk (connect tk g)) = true.
Proof.
  intros C. unfold disconnect, connect. rewrite C. cbn [negb andb].
  destruct (bleConnected g) eqn:B; cbn [negb].
  - exact B.
  - destruct (updateDisplay_out (ms_connect_screen tk)
                (emit MsgConnected
                   (set_swingCount 0
                      (set_sessionStartTime (ms_connect tk) (set_bleConnected true g)))))
      as (s & ->).
    reflexivity.
Qed.

Lemma paced_inv_sampleIMU T tk g :
  on_time (T + SAMPLE_INTERVAL_MS) tk -> T + SAMPLE_INTERVAL_MS < 2 ^ 32 -> 0 <= T ->
  bleConnected g = true ->
  inv g ->
  (pending (out g) = true ->
   exists k, trigger_depth (out g) = Some k /\ 0 <= k < POST_TRIGGER_SAMPLES /\
             triggerTime g = T - SAMPLE_INTERVAL_MS * k) ->
  paced (out g) ->
  let g' := sampleIMU tk g in
  inv g' /\ lastSampleTime g' = lastSampleTime g /\
  (pending (out g') = true ->
   exists k, trigger_depth (out g') = Some k /\ 0 <= k < POST_TRIGGER_SAMPLES /\
             triggerTime g' = T + SAMPLE_INTERVAL_MS - SAMPLE_INTERVAL_MS * k) /\
  paced (out g').
Proof.
  intros (_ & A & W & _ & _ & MT & MP) HI T0 CN INV PD PC g'.
  split; [apply inv_sampleIMU; exact INV|].
  subst g'. unfold sampleIMU.
  destruct (imu_accel tk) as [a|]; [|congruence].
  destruct (imu_gyro tk) as [w|]; [|congruence].
  clear A W.
  (* the record is stored *)
  pose proof (inv_store_sample tk a w g INV) as INV1.
  assert (exists rest, stored (out (store_sample tk a w g)) = record_of tk a w :: rest) as ST1
      by (eexists; apply stored_store_sample).
  set (g1 := store_sample tk a w g) in *.
  assert (lastSampleTime g1 = lastSampleTime g /\ triggerTime g1 = triggerTime g /\
          bleConnected g1 = true /\
          pending (out g1) = pending (out g) /\
          trigger_depth (out g1) = option_map Z.succ (trigger_depth (out g)) /\
          paced (out g1)) as (LS1 & TT1 & CN1 & P1 & TD1 & PC1).
  { subst g1. rewrite store_sample_eq. cbn. repeat split; assumption. }
  clearbody g1.
  (* detection *)
  pose proof (inv_detect tk a w g1 ST1 INV1) as INV2.
  assert (lastSampleTime (detect tk a w g1) = lastSampleTime g /\
          bleConnected (detect tk a w g1) = true /\
          paced (out (detect tk a w g1)) /\
          (pending (out (detect tk a w g1)) = true ->
           exists k, trigger_depth (out (detect tk a w g1)) = Some k /\
                     0 <= k <= POST_TRIGGER_SAMPLES /\
                     triggerTime (detect tk a w g1)
                     = T + SAMPLE_INTERVAL_MS - SAMPLE_INTERVAL_MS * k))
    as (LS2 & CN2 & PC2 & PD2).
  { assert (pending (out g1) = true ->
            exists k, trigger_depth (out g1) = Some k /\ 0 <= k <= POST_TRIGGER_SAMPLES /\
                      triggerTime g1 = T + SAMPLE_INTERVAL_MS - SAMPLE_INTERVAL_MS * k) as PD1.
    { rewrite P1, TD1, TT1. intros PE. destruct (PD PE) as (k & -> & K & TT).
      exists (Z.succ k). split; [reflexivity|]. split; [lia|]. rewrite TT. lia. }
    unfold detect. destruct a as ((ax & ay) & az), w as ((gx & gy) & gz).
    destruct (bleConnected g1 && negb (swingDetected g1)
              && (COOLDOWN_MS <? u32 (ms_cooldown tk - lastSwingTime g1)));
      [|repeat split; assumption].
    destruct (F32.gt (magnitude ax ay az) ACCEL_THRESHOLD
              && F32.gt (magnitude gx gy gz) GYRO_THRESHOLD);
      [|repeat split; assumption].
    cbn. repeat split; try assumption.
    intros _. exists 0. split; [reflexivity|]. split; [rewrite POST_TRIGGER_SAMPLES_eq; lia|].
    rewrite MT. lia. }
  set (g2 := detect tk a w g1) in *. clearbody g2.
  (* the capture *)
  pose proof INV2 as (_ & _ & _ & _ & TI2 & SD2 & _ & _ & _ & _).
  unfold collect. rewrite CN2, andb_true_r.
  destruct (swingDetected g2) eqn:SW.
  - symmetry in SD2. destruct (PD2 SD2) as (k & TD & K & TT).
    rewrite POST_TRIGGER_SAMPLES_eq in K.
    assert (u32 (ms_post tk - triggerTime g2) = SAMPLE_INTERVAL_MS * k) as ->.
    { rewrite MP, TT. unfold u32. unfold SAMPLE_INTERVAL_MS in *.
      rewrite Z.mod_small; lia. }
    destruct (Z.leb_spec POST_TRIGGER_MS (SAMPLE_INTERVAL_MS * k)) as [GE|LT].
    + assert (k = 20) as -> by (unfold POST_TRIGGER_MS, SAMPLE_INTERVAL_MS in GE; lia).
      assert (0 <= triggerIndex g2 < TOTAL_SAMPLES) as TR.
      { rewrite TI2, TD. apply Z.mod_pos_bound. rewrite TOTAL_SAMPLES_eq. lia. }
      rewrite (captureAndTransmitSwing_out g2 TR).
      set (s := (triggerIndex g2 - PRE_TRIGGER_SAMPLES) mod TOTAL_SAMPLES).
      set (l0 := WriteHeader (swingCount g2 + 1) (triggerTime g2)
                   :: MsgTransmitting :: out g2).
      assert (paced (rev (lines (circularBuffer g2) s (Z.to_nat TOTAL_SAMPLES) 0) ++ l0))
        as PL.
      { apply paced_lines.
        - split; [exact TD|exact PC2].
        - exact TD. }
      set (l1 := rev (lines (circularBuffer g2) s (Z.to_nat TOTAL_SAMPLES) 0) ++ l0) in *.
      clearbody l1.
      cbn. split; [exact LS2|]. split; [discriminate|exact PL].
    + split; [exact LS2|]. split; [|exact PC2].
      intros _. exists k. split; [exact TD|]. split; [|exact TT].
      rewrite POST_TRIGGER_SAMPLES_eq.
      unfold POST_TRIGGER_MS, SAMPLE_INTERVAL_MS in LT. lia.
  - split; [exact LS2|]. split; [|exact PC2].
    intros PE. congruence.
Qed.

Lemma paced_inv_loop T tk g :
  on_time (T + SAMPLE_INTERVAL_MS) tk -> T + SAMPLE_INTERVAL_MS < 2 ^ 32 ->
  paced_inv T g -> paced_inv (T + SAMPLE_INTERVAL_MS) (loop tk g).
Proof.
  intros OT HI (INV & LS & TR & PD & PC).
  pose proof OT as (CE & _ & _ & MD & MS & _).
  unfold loop.
  destruct (pace_kept_connect tk g) as (LS1 & TT1 & P1 & TD1 & PC1).
  pose proof (inv_disconnect tk _ (inv_connect tk g INV)) as INV1.
  pose proof (connected_after_connect tk g CE) as CN1.
  set (g1 := disconnect tk (connect tk g)) in *. clearbody g1.
  assert (sample tk g1 = sampleIMU tk (set_lastSampleTime (T + SAMPLE_INTERVAL_MS) g1)) as ES.
  { unfold sample. rewrite LS1, LS, MD, MS.
    replace (T + SAMPLE_INTERVAL_MS - T) with SAMPLE_INTERVAL_MS by lia.
    reflexivity. }
  set (h := set_lastSampleTime (T + SAMPLE_INTERVAL_MS) g1) in *.
  assert (inv h) as INVh by (revert INV1; apply inv_same; reflexivity).
  destruct (paced_inv_sampleIMU T tk h OT HI (proj1 TR) CN1 INVh) as (INV2 & LS2 & PD2 & PC2).
  { change (pending (out h)) with (pending (out g1)).
    change (trigger_depth (out h)) with (trigger_depth (out g1)).
    change (triggerTime h) with (triggerTime g1).
    rewrite P1, TD1, TT1. exact PD. }
  { exact (PC1 PC). }
  rewrite <- ES in INV2, LS2, PD2, PC2.
  set (g2 := sample tk g1) in *. clearbody g2.
  assert (lastSampleTime g2 = T + SAMPLE_INTERVAL_MS) as LS3 by exact LS2.
  unfold refresh. destruct (_ <=? _).
  - destruct (updateDisplay_out (ms_display_screen tk)
                (set_lastDisplayUpdate (ms_display tk) g2)) as (sc & E).
    split.
    { apply inv_updateDisplay. revert INV2. apply inv_same; reflexivity. }
    rewrite E. cbn. split; [exact LS3|]. split; [unfold SAMPLE_INTERVAL_MS in *; lia|].
    split; [exact PD2|exact PC2].
  - split; [exact INV2|]. split; [exact LS3|].
    split; [unfold SAMPLE_INTERVAL_MS in *; lia|]. split; [exact PD2|exact PC2].
Qed.

Lemma paced_inv_run T tks g :
  steady T tks -> paced_inv T g -> exists T', paced_inv T' (run tks g).
Proof.
  revert T g. induction tks as [|tk tks IH]; intros T g ST PI.
  - exists T. exact PI.
  - destruct ST as (OT & HI & ST). apply (IH (T + SAMPLE_INTERVAL_MS)); [exact ST|].
    apply paced_inv_loop; assumption.
Qed.

Lemma paced_inv_setup d i b t g0 : setup d i b t = Some g0 -> paced_inv 0 g0.
Proof.
  intros S. split; [exact (inv_setup _ _ _ _ _ S)|].
  revert S. unfold setup. destruct d, i, b; cbn; try discriminate. intros [= <-].
  cbn. repeat split; try lia; try discriminate.
Qed.

(** X23.  At the nominal pace the first line is the newest record.  In
    an execution from [setup] whose passes all sample, 20 ms apart from
    time 0 on, with a central present and readings available, every
    transmission starts exactly 20 records after the detected one.  So
    line [i] of every transmission holds the record stored
    [(25 - i) mod 25] records before the newest: line 0 (relative time
    0) is the newest record, stored 400 ms after the detection, lines 1
    to 4 are the four records before the detected one, line 5 is the
    detected record and lines 6 to 24 are the 19 records after it; the
    record 100 ms before the detection has been overwritten. *)
Theorem steady_pace_sends_newest_record_first
    (display_ok imu_ok ble_ok : bool) (t : Z) (g0 : Vars) (tks : list Pass) :
  setup display_ok imu_ok ble_ok t = Some g0 ->
  steady 0 tks ->
  let g := run tks g0 in
  forall later rel d earlier,
    out g = later ++ WriteLine rel d :: earlier ->
    exists i,
      0 <= i < TOTAL_SAMPLES /\ rel = i * SAMPLE_INTERVAL_MS /\
      trigger_depth earlier = Some POST_TRIGGER_SAMPLES /\
      d = row_at (stored earlier) ((TOTAL_SAMPLES - i) mod TOTAL_SAMPLES).
Proof.
  intros S ST g later rel d earlier E.
  destruct (paced_inv_run 0 tks g0 ST (paced_inv_setup _ _ _ _ _ S))
    as (T' & INV & _ & _ & _ & PC).
  destruct INV as (_ & _ & _ & _ & _ & _ & _ & _ & _ & OK).
  destruct (log_ok_split _ _ _ _ OK E) as (i & k & I & RL & TD & D).
  pose proof (paced_split _ _ _ _ _ PC E) as TD'.
  exists i. split; [exact I|]. split; [exact RL|]. split; [exact TD'|].
  rewrite D. f_equal.
  assert (k = POST_TRIGGER_SAMPLES) as -> by congruence.
  rewrite POST_TRIGGER_SAMPLES_eq, PRE_TRIGGER_SAMPLES_eq, TOTAL_SAMPLES_eq.
  f_equal; lia.
Qed.


(** ** The properties at work on the session *)

Lemma ring_follows_stored_records_witness :
  let g := run session switched_on in
  let rows := stored (out g) in
  let n := Z.of_nat (length rows) in
  n = 51 /\
  bufferIndex g = n mod TOTAL_SAMPLES /\
  (bufferFull g = true <-> TOTAL_SAMPLES <= n) /\
  (forall j, 0 <= j < TOTAL_SAMPLES ->
     cell (circularBuffer g) ((n - 1 - j) mod TOTAL_SAMPLES) = row_at rows j).
Proof.
  intros g rows n. split; [Build.by_computation|].
  exact (ring_follows_stored_records true true true 0 switched_on session eq_refl).
Defined.

Lemma trigger_index_marks_swing_record_witness :
  let g := run session switched_on in
  let rows := stored (out g) in
  trigger_depth (out g) = Some 20 /\
  triggerIndex g = 5 /\
  swing_reading (row_at rows 20) = true /\
  cell (circularBuffer g) (triggerIndex g) = row_at rows 20.
Proof.
  intros g rows.
  assert (trigger_depth (out g) = Some 20) as TD by Build.by_computation.
  split; [exact TD|]. split; [Build.by_computation|].
  pose proof (trigger_index_marks_swing_record true true true 0 switched_on session eq_refl)
    as H.
  cbv zeta in H. fold g in H. rewrite TD in H. destruct H as (_ & SW & SLOT).
  exact (conj SW (SLOT ltac:(Build.by_computation))).
Defined.

Lemma transmitted_lines_come_from_ring_witness :
  let g := run session switched_on in
  let later := take 26 (out g) in
  let earlier := drop 27 (out g) in
  let newest := row_at (stored (out g)) 0 in
  out g = later ++ WriteLine 0 newest :: earlier /\
  trigger_depth earlier = Some 20 /\
  exists i k,
    0 <= i < TOTAL_SAMPLES /\ 0 = i * SAMPLE_INTERVAL_MS /\
    trigger_depth earlier = Some k /\ 0 <= k /\
    newest = row_at (stored earlier) ((k + PRE_TRIGGER_SAMPLES - i) mod TOTAL_SAMPLES).
Proof.
  intros g later earlier newest. split; [Build.by_computation|]. split; [Build.by_computation|].
  exact (transmitted_lines_come_from_ring true true true 0 switched_on session eq_refl
           later 0 newest earlier ltac:(Build.by_computation)).
Defined.

Lemma capture_sends_every_slot_once_witness :
  let g' := captureAndTransmitSwing swing_pending in
  let s := (triggerIndex swing_pending - PRE_TRIGGER_SAMPLES) mod TOTAL_SAMPLES in
  0 <= triggerIndex swing_pending < TOTAL_SAMPLES /\
  s = 0 /\
  circularBuffer g' = circularBuffer swing_pending /\
  (s + PRE_TRIGGER_SAMPLES) mod TOTAL_SAMPLES = triggerIndex swing_pending.
Proof.
  intros g' s. split; [Build.by_computation|]. split; [Build.by_computation|].
  destruct (capture_sends_every_slot_once swing_pending ltac:(Build.by_computation))
    as (_ & B & _ & _ & T & _).
  exact (conj B T).
Defined.

Lemma detections_and_transmissions_alternate_witness :
  let g := run session switched_on in
  detections (out g) = 1 /\
  swingDetected g = pending (out g) /\
  detections (out g) = transmissions (out g) + (if swingDetected g then 1 else 0).
Proof.
  intros g. split; [Build.by_computation|].
  destruct (detections_and_transmissions_alternate true true true 0 switched_on session
              eq_refl) as (P & D & _).
  exact (conj P D).
Defined.

Lemma swing_numbers_restart_at_connection_witness :
  let g := run session switched_on in
  swingCount g = 1 /\
  swingCount g = sent (out g) /\
  bleConnected g = connected (out g).
Proof.
  intros g. split; [Build.by_computation|].
  destruct (swing_numbers_restart_at_connection true true true 0 switched_on session
              eq_refl) as (N & C & _).
  exact (conj N C).
Defined.

Lemma missing_reading_skips_capture_witness :
  let tk := pass 51 true None in
  let g' := loop tk swing_pending in
  imu_accel tk = None /\
  swingDetected swing_pending = true /\
  POST_TRIGGER_MS <= u32 (ms_post tk - triggerTime swing_pending) /\
  swingDetected g' = swingDetected swing_pending /\
  writes (out g') = writes (out swing_pending).
Proof.
  intros tk g'. split; [reflexivity|]. split; [Build.by_computation|]. split; [Build.by_computation|].
  destruct (missing_reading_skips_capture tk swing_pending (or_introl eq_refl))
    as (_ & _ & _ & S & _ & _ & _ & _ & W & _).
  exact (conj S W).
Defined.

Lemma pending_swing_is_sent_after_reconnection_witness :
  let tk := pass 60 true (Some lying_still) in
  let g' := loop tk swing_orphaned in
  swingDetected swing_orphaned = true /\ bleConnected swing_orphaned = false /\
  swingCount swing_orphaned = 0 /\
  swingDetected g' = false /\ swingCount g' = 1 /\ bleConnected g' = true.
Proof.
  intros tk g'. split; [Build.by_computation|]. split; [Build.by_computation|].
  split; [Build.by_computation|].
  destruct (pending_swing_is_sent_after_reconnection tk swing_orphaned
              (fst lying_still) (snd lying_still)
              ltac:(Build.by_computation) ltac:(Build.by_computation) eq_refl eq_refl eq_refl
              ltac:(Build.by_computation) ltac:(Build.by_computation)
              ltac:(Build.by_computation))
    as (S & N & C & _).
  exact (conj S (conj N C)).
Defined.

Lemma status_screen_tells_session_state_witness :
  let g := run session switched_on in
  let later := take 30 (out g) in
  let earlier := drop 31 (out g) in
  out g = later ++ Show (ScreenConnected 0 0 true 0 true) :: earlier /\
  connected earlier = true /\ 0 = sent earlier /\ true = pending earlier /\
  0 <= 0 < 60 /\ true = (0 <? 10).
Proof.
  intros g later earlier. split; [Build.by_computation|].
  exact (status_screen_tells_session_state true true true 0 switched_on session eq_refl
           later (ScreenConnected 0 0 true 0 true) earlier ltac:(Build.by_computation)).
Defined.

Lemma steady_pace_sends_newest_record_first_witness :
  let g := run session switched_on in
  let later := take 26 (out g) in
  let earlier := drop 27 (out g) in
  let newest := row_at (stored (out g)) 0 in
  steady 0 session /\
  out g = later ++ WriteLine 0 newest :: earlier /\
  exists i,
    0 <= i < TOTAL_SAMPLES /\ 0 = i * SAMPLE_INTERVAL_MS /\
    trigger_depth earlier = Some POST_TRIGGER_SAMPLES /\
    newest = row_at (stored earlier) ((TOTAL_SAMPLES - i) mod TOTAL_SAMPLES).
Proof.
  intros g later earlier newest. split; [Build.by_computation|].
  split; [Build.by_computation|].
  exact (steady_pace_sends_newest_record_first true true true 0 switched_on session
           eq_refl ltac:(Build.by_computation)
           later 0 newest earlier ltac:(Build.by_computation)).
Defined.

End Collector.
